(** * riyadh-fmcg: the financial data processor

    A shallow embedding of [src/services/dataProcessor.ts] and the
    properties its specification states about it, followed by the pure
    computations of the components that call it or show its rows: the
    upload check, the filters, the filter menus and the aggregations
    of the dashboard.

    The processor is a pure function from raw CSV rows (string fields) to
    enriched rows (numbers).  Its numbers are ECMAScript Numbers, that is
    IEEE 754 binary64 values; they are embedded here as [spec_float] at
    precision 53 and maximal exponent 1024, with the arithmetic of the
    Standard Library's [SpecFloat], so that NaN, the infinities, signed
    zeros and rounding are those of the running program. *)

From Stdlib Require Import ZArith QArith Qpower List String Ascii Bool Lia.
From Stdlib Require Import Floats.SpecFloat.
From Stdlib Require Import DecimalString.
From Stdlib Require Import DecimalNat.
From Stdlib Require Import Sorting.Sorted.
From Stdlib Require Import Sorting.Permutation.
Import ListNotations.

Local Open Scope string_scope.
Local Open Scope Z_scope.

(** ** ECMAScript primitives used by the processor *)

Module JS.

(** *** Numbers *)

Definition number : Type := spec_float.

Definition prec : Z := 53.
Definition emax : Z := 1024.

Definition NaN : number := S754_nan.
Definition Infinity : number := S754_infinity false.
Definition zero : number := S754_zero false.

Definition add : number -> number -> number := SFadd prec emax.
Definition sub : number -> number -> number := SFsub prec emax.
Definition mul : number -> number -> number := SFmul prec emax.
Definition div : number -> number -> number := SFdiv prec emax.

(** [x === y] and [x !== y] on numbers: NaN differs from everything,
    [-0] equals [+0]. *)
Definition strict_eq (x y : number) : bool := SFeqb x y.
Definition strict_neq (x y : number) : bool := negb (SFeqb x y).

Definition lt (x y : number) : bool := SFltb x y.
Definition le (x y : number) : bool := SFleb x y.

Definition isNaN (x : number) : bool :=
  match x with S754_nan => true | _ => false end.

Definition isFinite (x : number) : bool :=
  match x with
  | S754_zero _ | S754_finite _ _ _ => true
  | S754_infinity _ | S754_nan => false
  end.

(** The rational a finite Number stands for. *)
Definition toQ (x : number) : option Q :=
  match x with
  | S754_zero _ => Some 0%Q
  | S754_finite s m e =>
      Some (inject_Z (cond_Zopp s (Zpos m)) * Qpower 2 e)%Q
  | S754_infinity _ | S754_nan => None
  end.

(** The Number nearest to an integer (ties to even). *)
Definition of_Z (z : Z) : number := binary_normalize prec emax z 0 false.

(** The Number nearest to [(-1)^neg * m * 10^e10], for [0 <= m]: the
    rounding ECMAScript's StringNumericValue applies to a decimal
    literal.  A negative power of ten is divided out exactly, with the
    remainder's location, before the one rounding. *)
Definition of_decimal (neg : bool) (m : Z) (e10 : Z) : number :=
  match m with
  | Z0 => S754_zero neg
  | Zneg _ => S754_nan
  | Zpos p =>
      match e10 with
      | Zneg k =>
          let '(q, e, l) :=
            SFdiv_core_binary prec emax (Zpos p) 0 (Z.pow_pos 10 k) 0 in
          binary_round_aux prec emax neg q e l
      | _ =>
          match Zpos p * 10 ^ e10 with
          | Zpos p' => binary_round prec emax neg p' 0
          | _ => S754_nan
          end
      end
  end.

(** *** Strings

    A string is a sequence of code units; the embedding keeps those of
    the Latin-1 range, one [ascii] each. *)

Definition code (c : ascii) : N := N_of_ascii c.

(** WhiteSpace and LineTerminator code units: TAB, LF, VT, FF, CR, SP
    and NBSP. *)
Definition isWhiteSpace (c : ascii) : bool :=
  let n := code c in
  (((9 <=? n) && (n <=? 13)) || (n =? 32) || (n =? 160))%N.

Definition isDigit (c : ascii) : bool :=
  let n := code c in ((48 <=? n) && (n <=? 57))%N.

Definition digitValue (c : ascii) : Z := Z.of_N (code c) - 48.

Fixpoint trimStart (s : string) : string :=
  match s with
  | String c r => if isWhiteSpace c then trimStart r else s
  | EmptyString => EmptyString
  end.

Definition reverse (s : string) : string :=
  string_of_list_ascii (rev (list_ascii_of_string s)).

Definition trimEnd (s : string) : string := reverse (trimStart (reverse s)).

(** [s.trim()] *)
Definition trim (s : string) : string := trimEnd (trimStart s).

(** The longest prefix of decimal digits, and what follows it. *)
Fixpoint spanDigits (s : string) : string * string :=
  match s with
  | String c r =>
      if isDigit c
      then let '(d, r') := spanDigits r in (String c d, r')
      else (EmptyString, s)
  | EmptyString => (EmptyString, EmptyString)
  end.

(** The mathematical value of a string of decimal digits, read after
    the digits [acc] already seen. *)
Fixpoint digitsValueFrom (acc : Z) (s : string) : Z :=
  match s with
  | String c r => digitsValueFrom (10 * acc + digitValue c) r
  | EmptyString => acc
  end.

Definition digitsValue (s : string) : Z := digitsValueFrom 0 s.

(** An optional sign: whether it is [-], and what follows it. *)
Definition spanSign (s : string) : bool * string :=
  match s with
  | String c r =>
      if Ascii.eqb c "+" then (false, r)
      else if Ascii.eqb c "-" then (true, r)
      else (false, s)
  | EmptyString => (false, s)
  end.

(** The exponent part of a decimal literal, when [s] starts with one:
    [e] or [E], an optional sign and at least one digit. *)
Definition exponentPart (s : string) : Z :=
  match s with
  | String c r =>
      if (Ascii.eqb c "e" || Ascii.eqb c "E")%bool
      then let '(neg, r1) := spanSign r in
           let '(ds, _) := spanDigits r1 in
           match ds with
           | EmptyString => 0
           | _ => if neg then - digitsValue ds else digitsValue ds
           end
      else 0
  | EmptyString => 0
  end.

(** [parseFloat(s)]: the value of the longest prefix of [s], after its
    leading white space, that is a StrDecimalLiteral; NaN when no prefix
    is one. *)
Definition parseFloat (input : string) : number :=
  let '(neg, s) := spanSign (trimStart input) in
  if String.prefix "Infinity" s then S754_infinity neg
  else
    let '(ip, r1) := spanDigits s in
    let '(fp, r2) :=
      match r1 with
      | String c r =>
          if Ascii.eqb c "." then spanDigits r else (EmptyString, r1)
      | EmptyString => (EmptyString, r1)
      end in
    match ip ++ fp with
    | EmptyString => NaN
    | ds => of_decimal neg (digitsValue ds)
              (exponentPart r2 - Z.of_nat (String.length fp))
    end.

(** The sign and the magnitude [parseInt(s, 10)] reads: the longest
    prefix of digits after leading white space and an optional sign;
    nothing when there is no digit. *)
Definition parseIntDigits (input : string) : option (bool * Z) :=
  let '(neg, s) := spanSign (trimStart input) in
  let '(ds, _) := spanDigits s in
  match ds with
  | EmptyString => None
  | _ => Some (neg, digitsValue ds)
  end.

(** [parseInt(s, 10)]: the Number nearest to the integer read, NaN when
    there is none. *)
Definition parseInt10 (input : string) : number :=
  match parseIntDigits input with
  | Some (neg, v) => if neg then SFopp (of_Z v) else of_Z v
  | None => NaN
  end.

(** [s.split(sep)] for a separator of one code unit. *)
Fixpoint split (sep : ascii) (s : string) : list string :=
  match s with
  | EmptyString => [EmptyString]
  | String c r =>
      if Ascii.eqb c sep then EmptyString :: split sep r
      else match split sep r with
           | h :: t => String c h :: t
           | [] => [String c EmptyString]
           end
  end.

(** [s.substring(1)] *)
Definition substring1 (s : string) : string :=
  match s with String _ r => r | EmptyString => EmptyString end.

(** [String(n)] for an array index. *)
Definition indexToString (n : nat) : string :=
  NilEmpty.string_of_uint (Nat.to_uint n).

(** *** Regular expressions

    The only pattern of the program is a sequence of single-character
    classes between [^] and [$]. *)
Inductive charClass : Type :=
| Lit (c : ascii)
| Range (lo hi : ascii)
| Digit.

Definition classMatches (cls : charClass) (c : ascii) : bool :=
  match cls with
  | Lit c' => Ascii.eqb c c'
  | Range lo hi => ((code lo <=? code c) && (code c <=? code hi))%N
  | Digit => isDigit c
  end.

(** [s.match(/^c1 c2 ... cn$/)] is not null. *)
Fixpoint matchAnchored (p : list charClass) (s : string) : bool :=
  match p, s with
  | [], EmptyString => true
  | cls :: p', String c s' => classMatches cls c && matchAnchored p' s'
  | _, _ => false
  end.

(** *** Arrays *)

(** [arr[i]] read as a string operand: a missing element is
    [undefined], which prints as such. *)
Definition stringAt (arr : list string) (i : nat) : string :=
  nth i arr "undefined".

Section Sort.
Context {A : Type}.
Variable comparefn : A -> A -> number.

(** [x] goes after every [y] that the comparator puts before it or
    leaves equal: [comparefn x y > 0] moves on. *)
Fixpoint insert (x : A) (l : list A) : list A :=
  match l with
  | [] => [x]
  | y :: l' =>
      if lt zero (comparefn x y) then y :: insert x l' else x :: l
  end.

(** [arr.sort(comparefn)]: ECMAScript requires a stable sort; for a
    consistent comparator its result is the one of this insertion
    sort, which places each element before the equal ones that
    followed it. *)
Definition sort (arr : list A) : list A := fold_right insert [] arr.
End Sort.

(** *** Exceptions *)

Inductive completion (A : Type) : Type :=
| Normal (a : A)
| Throw (message : string).
Arguments Normal {A} a.
Arguments Throw {A} message.

(** [arr.map((x, index) => f x index)] with a callback that may throw:
    the first exception leaves the map. *)
Fixpoint mapFrom {A B : Type} (f : A -> nat -> completion B)
         (index : nat) (arr : list A) : completion (list B) :=
  match arr with
  | [] => Normal []
  | x :: arr' =>
      match f x index with
      | Throw m => Throw m
      | Normal y =>
          match mapFrom f (S index) arr' with
          | Throw m => Throw m
          | Normal ys => Normal (y :: ys)
          end
      end
  end.

Definition mapThrowing {A B : Type} (f : A -> nat -> completion B)
           (arr : list A) : completion (list B) :=
  mapFrom f 0%nat arr.

(** [arr.map((x, index) => f x index)] with a total callback. *)
Fixpoint mapiFrom {A B : Type} (f : A -> nat -> B)
         (index : nat) (arr : list A) : list B :=
  match arr with
  | [] => []
  | x :: arr' => f x index :: mapiFrom f (S index) arr'
  end.

Definition mapi {A B : Type} (f : A -> nat -> B) (arr : list A) : list B :=
  mapiFrom f 0%nat arr.

(** *** Sets and membership *)

(** SameValueZero on numbers, the equality of [Array.prototype.includes]
    and of [Set]: NaN is the same as NaN, [-0] the same as [+0]. *)
Definition sameValueZero (x y : number) : bool :=
  (isNaN x && isNaN y) || strict_eq x y.

(** The value a [Set] keeps for a number: [-0] is stored as [+0]. *)
Definition plusZero (x : number) : number :=
  match x with S754_zero _ => zero | _ => x end.

Section SameValue.
Context {A : Type}.
Variable same : A -> A -> bool.

(** [arr.includes(x)] *)
Definition includes (arr : list A) (x : A) : bool :=
  existsb (fun y => same y x) arr.

(** [set.add(x)] on the values of a [Set] in insertion order. *)
Definition setAdd (set : list A) (x : A) : list A :=
  if includes set x then set else (set ++ [x])%list.

(** [[...new Set(arr)]]: every value once, in the order of first
    occurrence. *)
Definition setOf (arr : list A) : list A := fold_left setAdd arr [].
End SameValue.

(** [[...new Set(arr)]] for an array of numbers. *)
Definition numberSet (arr : list number) : list number :=
  setOf sameValueZero (map plusZero arr).

(** [[...new Set(arr)]] for an array of strings. *)
Definition stringSet (arr : list string) : list string :=
  setOf String.eqb arr.

End JS.

Import JS.

(** ** The data model ([RawDataRow] and [ProcessedDataRow]) *)

(** A CSV row: every field is text; an optional field may be absent. *)
Record RawDataRow : Type := {
  raw_Quarter : string;
  raw_Year : string;
  raw_Region : option string;
  raw_Product : option string;
  raw_Revenue : option string;
  raw_COGS : option string;
  raw_OPEX : option string;
  raw_Non_Cash_Adjustments : option string;
  raw_Net_Income : option string;
  raw_Plan_Revenue : option string;
  raw_Plan_COGS : option string;
  raw_Plan_OPEX : option string;
  raw_Plan_Non_Cash_Adjustments : option string;
  raw_Plan_NetIncome : option string
}.

(** An enriched row; [number | null] is [option number]. *)
Record ProcessedDataRow : Type := {
  id : string;
  Quarter : string;
  Year : number;
  quarterIndex : number;
  sortKey : number;
  Region : string;
  Product : string;
  Revenue : number;
  COGS : number;
  OPEX : number;
  Non_Cash_Adjustments : number;
  Net_Income : number;
  plan_Revenue : option number;
  plan_COGS : option number;
  plan_OPEX : option number;
  plan_Non_Cash_Adjustments : option number;
  plan_NetIncome : option number;
  grossProfit : number;
  grossMargin : number;
  opexMargin : number;
  EBITDA : number;
  EBITDA_Margin : number;
  netMargin : number;
  qoqRevenueGrowth : option number;
  qoqNetIncomeGrowth : option number;
  yoyRevenueGrowth : option number;
  yoyNetIncomeGrowth : option number;
  revVarAbs : option number;
  revVarPerc : option number;
  cogsVarAbs : option number;
  cogsVarPerc : option number;
  opexVarAbs : option number;
  opexVarPerc : option number;
  ebitdaPlan : option number;
  ebitdaVarAbs : option number;
  ebitdaVarPerc : option number;
  netIncomeVarAbs : option number;
  netIncomeVarPerc : option number
}.

(** ** [parseQuarter] *)

Record PeriodKey : Type := {
  pk_year : number;
  pk_quarterIndex : number;
  pk_sortKey : number
}.

(** [/^Q[1-4]-\d{4}$/] *)
Definition quarterPattern : list charClass :=
  [Lit "Q"; Range "1" "4"; Lit "-"; Digit; Digit; Digit; Digit].

Definition dquote : string := String (ascii_of_nat 34) EmptyString.

Definition invalidQuarterMessage (quarterStr : string) : string :=
  "Invalid Quarter format: " ++ dquote ++ quarterStr ++ dquote
  ++ ". Expected format is " ++ dquote ++ "Q1-2023" ++ dquote ++ ".".

Definition four : number := Eval vm_compute in of_Z 4.
Definition hundred : number := Eval vm_compute in of_Z 100.
Definition one : number := Eval vm_compute in of_Z 1.

Definition parseQuarter (quarterStr : string) : completion PeriodKey :=
  if (String.eqb quarterStr "" || negb (matchAnchored quarterPattern quarterStr))%bool
  then Throw (invalidQuarterMessage quarterStr)
  else
    let parts := split "-" quarterStr in
    let qIndex := parseInt10 (substring1 (stringAt parts 0)) in
    let year := parseInt10 (stringAt parts 1) in
    Normal {| pk_year := year;
              pk_quarterIndex := qIndex;
              pk_sortKey := add year (div qIndex four) |}.

(** ** [safeParseFloat] *)

Definition safeParseFloat (val : option string) (defaultValue : option number)
  : option number :=
  match val with
  | None => defaultValue
  | Some v =>
      if String.eqb (trim v) "" then defaultValue
      else
        let num := parseFloat v in
        if isNaN num then defaultValue else Some num
  end.

(** The non-null assertion [e!]: no check is made at run time.  It is
    applied only to results whose default is a number, where the value
    is never null; [zero] stands for the excluded case. *)
Definition nonNull (x : option number) : number :=
  match x with Some n => n | None => zero end.

(** ** [processFinancialData] *)

(** [s || 'All'] on an optional string: absent and empty are falsy. *)
Definition orAll (s : option string) : string :=
  match s with
  | None => "All"
  | Some EmptyString => "All"
  | Some v => v
  end.

(** [plan !== null ? actual - plan : null] *)
Definition varAbs (actual : number) (plan : option number) : option number :=
  match plan with
  | Some p => Some (sub actual p)
  | None => None
  end.

(** [plan !== null && plan !== 0 ? (varAbs! / plan) * 100 : null] *)
Definition varPerc (abs plan : option number) : option number :=
  match plan with
  | Some p =>
      if strict_neq p zero then Some (mul (div (nonNull abs) p) hundred)
      else None
  | None => None
  end.

(** [Revenue !== 0 ? (x / Revenue) * 100 : 0] *)
Definition margin (x revenue : number) : number :=
  if strict_neq revenue zero then mul (div x revenue) hundred else zero.

(** The object the callback of the first [map] returns for a row whose
    period key is [pk]: the row's own metrics. *)
Definition rowMetrics (row : RawDataRow) (index : nat) (pk : PeriodKey)
  : ProcessedDataRow :=
  let Revenue := nonNull (safeParseFloat (raw_Revenue row) (Some zero)) in
  let COGS := nonNull (safeParseFloat (raw_COGS row) (Some zero)) in
  let OPEX := nonNull (safeParseFloat (raw_OPEX row) (Some zero)) in
  let Non_Cash_Adjustments :=
    nonNull (safeParseFloat (raw_Non_Cash_Adjustments row) (Some zero)) in
  let NetIncome := safeParseFloat (raw_Net_Income row) None in
  let finalNetIncome :=
    match NetIncome with
    | None => sub (sub Revenue COGS) OPEX
    | Some n => n
    end in
  let plan_Revenue := safeParseFloat (raw_Plan_Revenue row) None in
  let plan_COGS := safeParseFloat (raw_Plan_COGS row) None in
  let plan_OPEX := safeParseFloat (raw_Plan_OPEX row) None in
  let plan_Non_Cash_Adjustments :=
    nonNull (safeParseFloat (raw_Plan_Non_Cash_Adjustments row)
                          (Some Non_Cash_Adjustments)) in
  let plan_NetIncomeRaw := safeParseFloat (raw_Plan_NetIncome row) None in
  let plan_NetIncome :=
    match plan_NetIncomeRaw, plan_Revenue, plan_COGS, plan_OPEX with
    | None, Some pr, Some pc, Some po => Some (sub (sub pr pc) po)
    | _, _, _, _ => plan_NetIncomeRaw
    end in
  let grossProfit := sub Revenue COGS in
  let grossMargin := margin grossProfit Revenue in
  let opexMargin := margin OPEX Revenue in
  let EBITDA := add (sub (sub Revenue COGS) OPEX) Non_Cash_Adjustments in
  let EBITDA_Margin := margin EBITDA Revenue in
  let netMargin := margin finalNetIncome Revenue in
  let revVarAbs := varAbs Revenue plan_Revenue in
  let revVarPerc := varPerc revVarAbs plan_Revenue in
  let cogsVarAbs := varAbs COGS plan_COGS in
  let cogsVarPerc := varPerc cogsVarAbs plan_COGS in
  let opexVarAbs := varAbs OPEX plan_OPEX in
  let opexVarPerc := varPerc opexVarAbs plan_OPEX in
  let ebitdaPlan :=
    match plan_Revenue, plan_COGS, plan_OPEX with
    | Some pr, Some pc, Some po =>
      Some (add (sub (sub pr pc) po) plan_Non_Cash_Adjustments)
    | _, _, _ => None
    end in
  let ebitdaVarAbs := varAbs EBITDA ebitdaPlan in
  let ebitdaVarPerc := varPerc ebitdaVarAbs ebitdaPlan in
  let netIncomeVarAbs := varAbs finalNetIncome plan_NetIncome in
  let netIncomeVarPerc := varPerc netIncomeVarAbs plan_NetIncome in
  {| id := raw_Quarter row ++ "-" ++ orAll (raw_Region row) ++ "-"
           ++ orAll (raw_Product row) ++ "-" ++ indexToString index;
     Quarter := raw_Quarter row;
     Year := pk_year pk;
     quarterIndex := pk_quarterIndex pk;
     sortKey := pk_sortKey pk;
     Region := orAll (raw_Region row);
     Product := orAll (raw_Product row);
     Revenue := Revenue;
     COGS := COGS;
     OPEX := OPEX;
     Non_Cash_Adjustments := Non_Cash_Adjustments;
     Net_Income := finalNetIncome;
     plan_Revenue := plan_Revenue;
     plan_COGS := plan_COGS;
     plan_OPEX := plan_OPEX;
     plan_Non_Cash_Adjustments := Some plan_Non_Cash_Adjustments;
     plan_NetIncome := plan_NetIncome;
     grossProfit := grossProfit;
     grossMargin := grossMargin;
     opexMargin := opexMargin;
     EBITDA := EBITDA;
     EBITDA_Margin := EBITDA_Margin;
     netMargin := netMargin;
     qoqRevenueGrowth := None;
     qoqNetIncomeGrowth := None;
     yoyRevenueGrowth := None;
     yoyNetIncomeGrowth := None;
     revVarAbs := revVarAbs;
     revVarPerc := revVarPerc;
     cogsVarAbs := cogsVarAbs;
     cogsVarPerc := cogsVarPerc;
     opexVarAbs := opexVarAbs;
     opexVarPerc := opexVarPerc;
     ebitdaPlan := ebitdaPlan;
     ebitdaVarAbs := ebitdaVarAbs;
     ebitdaVarPerc := ebitdaVarPerc;
     netIncomeVarAbs := netIncomeVarAbs;
     netIncomeVarPerc := netIncomeVarPerc |}.

(** The callback of the first [map]: it throws on a malformed period
    label. *)
Definition normalizeRow (row : RawDataRow) (index : nat)
  : completion ProcessedDataRow :=
  match parseQuarter (raw_Quarter row) with
  | Throw m => Throw m
  | Normal pk => Normal (rowMetrics row index pk)
  end.

(** The comparator of the sort: [(a, b) => a.sortKey - b.sortKey]. *)
Definition bySortKey (a b : ProcessedDataRow) : number :=
  sub (sortKey a) (sortKey b).

(** [((current - previous) / previous) * 100], left null when
    [previous] is zero. *)
Definition growth (current previous : number) : option number :=
  if strict_neq previous zero
  then Some (mul (div (sub current previous) previous) hundred)
  else None.

(** [arr[index - 1]]: no element at index -1. *)
Definition previousRow (arr : list ProcessedDataRow) (index : nat)
  : option ProcessedDataRow :=
  match index with
  | O => None
  | S i => nth_error arr i
  end.

(** The predicate of [arr.find]: same quarter and segment, one year
    before. *)
Definition isPrevYearQuarter (currentRow d : ProcessedDataRow) : bool :=
  strict_eq (Year d) (sub (Year currentRow) one)
  && strict_eq (quarterIndex d) (quarterIndex currentRow)
  && String.eqb (Region d) (Region currentRow)
  && String.eqb (Product d) (Product currentRow).

Definition withGrowth (currentRow : ProcessedDataRow)
           (qoqRev qoqNet yoyRev yoyNet : option number) : ProcessedDataRow :=
  {| id := id currentRow;
     Quarter := Quarter currentRow;
     Year := Year currentRow;
     quarterIndex := quarterIndex currentRow;
     sortKey := sortKey currentRow;
     Region := Region currentRow;
     Product := Product currentRow;
     Revenue := Revenue currentRow;
     COGS := COGS currentRow;
     OPEX := OPEX currentRow;
     Non_Cash_Adjustments := Non_Cash_Adjustments currentRow;
     Net_Income := Net_Income currentRow;
     plan_Revenue := plan_Revenue currentRow;
     plan_COGS := plan_COGS currentRow;
     plan_OPEX := plan_OPEX currentRow;
     plan_Non_Cash_Adjustments := plan_Non_Cash_Adjustments currentRow;
     plan_NetIncome := plan_NetIncome currentRow;
     grossProfit := grossProfit currentRow;
     grossMargin := grossMargin currentRow;
     opexMargin := opexMargin currentRow;
     EBITDA := EBITDA currentRow;
     EBITDA_Margin := EBITDA_Margin currentRow;
     netMargin := netMargin currentRow;
     qoqRevenueGrowth := qoqRev;
     qoqNetIncomeGrowth := qoqNet;
     yoyRevenueGrowth := yoyRev;
     yoyNetIncomeGrowth := yoyNet;
     revVarAbs := revVarAbs currentRow;
     revVarPerc := revVarPerc currentRow;
     cogsVarAbs := cogsVarAbs currentRow;
     cogsVarPerc := cogsVarPerc currentRow;
     opexVarAbs := opexVarAbs currentRow;
     opexVarPerc := opexVarPerc currentRow;
     ebitdaPlan := ebitdaPlan currentRow;
     ebitdaVarAbs := ebitdaVarAbs currentRow;
     ebitdaVarPerc := ebitdaVarPerc currentRow;
     netIncomeVarAbs := netIncomeVarAbs currentRow;
     netIncomeVarPerc := netIncomeVarPerc currentRow |}.

(** The callback of the second [map]: growth against the previous row
    and against the same quarter of the year before. *)
Definition enrichRow (arr : list ProcessedDataRow)
           (currentRow : ProcessedDataRow) (index : nat) : ProcessedDataRow :=
  let prevQuarter := previousRow arr index in
  let qoqRevenueGrowth :=
    match prevQuarter with
    | Some p => growth (Revenue currentRow) (Revenue p)
    | None => None
    end in
  let qoqNetIncomeGrowth :=
    match prevQuarter with
    | Some p => growth (Net_Income currentRow) (Net_Income p)
    | None => None
    end in
  let prevYearQuarter := find (isPrevYearQuarter currentRow) arr in
  let yoyRevenueGrowth :=
    match prevYearQuarter with
    | Some p => growth (Revenue currentRow) (Revenue p)
    | None => None
    end in
  let yoyNetIncomeGrowth :=
    match prevYearQuarter with
    | Some p => growth (Net_Income currentRow) (Net_Income p)
    | None => None
    end in
  withGrowth currentRow qoqRevenueGrowth qoqNetIncomeGrowth
             yoyRevenueGrowth yoyNetIncomeGrowth.

Definition processFinancialData (rawData : list RawDataRow)
  : completion (list ProcessedDataRow) :=
  match mapThrowing normalizeRow rawData with
  | Throw m => Throw m
  | Normal rows =>
      let dataWithMetrics := sort bySortKey rows in
      Normal (mapi (enrichRow dataWithMetrics) dataWithMetrics)
  end.


(** ** The upload check ([src/components/FileUpload.tsx]) *)

(** What the upload check reports about a parsed file. *)
Record DataValidation : Type := {
  rowCount : nat;
  yearsDetected : list number;
  missingValues : list (string * nat);
  hasPlanData : bool
}.

(** [r[col]]: the field of a parsed row under a column name; a name the
    row does not have gives [undefined]. *)
Definition column (col : string) (r : RawDataRow) : option string :=
  if String.eqb col "Quarter" then Some (raw_Quarter r)
  else if String.eqb col "Year" then Some (raw_Year r)
  else if String.eqb col "Region" then raw_Region r
  else if String.eqb col "Product" then raw_Product r
  else if String.eqb col "Revenue" then raw_Revenue r
  else if String.eqb col "COGS" then raw_COGS r
  else if String.eqb col "OPEX" then raw_OPEX r
  else if String.eqb col "Non_Cash_Adjustments" then raw_Non_Cash_Adjustments r
  else if String.eqb col "Net Income" then raw_Net_Income r
  else if String.eqb col "Plan_Revenue" then raw_Plan_Revenue r
  else if String.eqb col "Plan_COGS" then raw_Plan_COGS r
  else if String.eqb col "Plan_OPEX" then raw_Plan_OPEX r
  else if String.eqb col "Plan_Non_Cash_Adjustments"
       then raw_Plan_Non_Cash_Adjustments r
  else if String.eqb col "Plan_NetIncome" then raw_Plan_NetIncome r
  else None.

(** [v === undefined || v === null || String(v).trim() === ''] *)
Definition isMissing (v : option string) : bool :=
  match v with
  | None => true
  | Some s => String.eqb (trim s) ""
  end.

(** [data.filter(r => isMissing(r[col])).length] *)
Definition missingCount (col : string) (data : list RawDataRow) : nat :=
  List.length (filter (fun r => isMissing (column col r)) data).

(** [handleProceed], once a file has been parsed and checked: the rows
    handed to the application, or the message of the exception
    caught. *)
Definition handleProceed (data : list RawDataRow) (validation : DataValidation)
  : string + (list ProcessedDataRow * DataValidation) :=
  match processFinancialData data with
  | Normal processed => inr (processed, validation)
  | Throw message => inl message
  end.

(** ** Filters of the application ([App], in [src/components/FileUpload.tsx]) *)

Record Filters : Type := {
  years : list number;
  regions : list string;
  products : list string;
  focusedQuarter : option string
}.

(** The years of the rows, once each, latest first. *)
Definition availableYears (data : list ProcessedDataRow) : list number :=
  sort (fun a b => sub b a) (numberSet (map Year data)).

(** The filters [handleDataProcessed] sets for a new batch: the latest
    year only. *)
Definition initialFilters (processedData : list ProcessedDataRow) : Filters :=
  let years := availableYears processedData in
  {| years := match years with y :: _ => [y] | [] => [] end;
     regions := [];
     products := [];
     focusedQuarter := None |}.

(** The predicate of [filteredData]. *)
Definition matchesFilters (filters : Filters) (d : ProcessedDataRow) : bool :=
  let yearMatch :=
    Nat.eqb (List.length (years filters)) 0
    || includes sameValueZero (years filters) (Year d) in
  let regionMatch :=
    Nat.eqb (List.length (regions filters)) 0
    || includes String.eqb (regions filters) "All"
    || includes String.eqb (regions filters) (Region d) in
  let productMatch :=
    Nat.eqb (List.length (products filters)) 0
    || includes String.eqb (products filters) "All"
    || includes String.eqb (products filters) (Product d) in
  yearMatch && regionMatch && productMatch.

Definition filteredData (filters : Filters) (data : list ProcessedDataRow)
  : list ProcessedDataRow :=
  filter (matchesFilters filters) data.

(** ** The filter menus ([MultiSelect] of [src/components/Header.tsx]) *)

(** An option of a menu: [string | number]. *)
Inductive menuOption : Type :=
| Str (s : string)
| Num (n : number).

(** [a === b] *)
Definition strictEquals (a b : menuOption) : bool :=
  match a, b with
  | Str s, Str t => String.eqb s t
  | Num x, Num y => strict_eq x y
  | _, _ => false
  end.

(** SameValueZero, the equality of [includes]. *)
Definition sameOption (a b : menuOption) : bool :=
  match a, b with
  | Str s, Str t => String.eqb s t
  | Num x, Num y => sameValueZero x y
  | _, _ => false
  end.

(** The selection [handleSelect] passes to [onChange]. *)
Definition handleSelect (selected : list menuOption) (option : menuOption)
  : list menuOption :=
  if strictEquals option (Str "All") then []
  else if includes sameOption selected option
       then filter (fun item => negb (strictEquals item option)) selected
       else (selected ++ [option])%list.

(** ** Aggregations of the dashboard ([src/components/Dashboard.tsx]) *)

Record AggregatedMetrics : Type := {
  totalRevenue : number;
  totalNetIncome : number;
  totalEBITDA : number;
  yoyRevenue : option number;
  yoyNetIncome : option number;
  weightedGrossMargin : number;
  weightedEbitdaMargin : number;
  weightedNetMargin : number;
  weightedOpexMargin : number;
  latestQuarter : ProcessedDataRow
}.

(** [(latest, current) => current.sortKey > latest.sortKey ? current : latest] *)
Definition laterRow (latest current : ProcessedDataRow) : ProcessedDataRow :=
  if lt (sortKey latest) (sortKey current) then current else latest.

(** [data.reduce(laterRow)] on a non-empty array: the first element is
    the initial value. *)
Definition latestQuarterData (first : ProcessedDataRow)
           (rest : list ProcessedDataRow) : ProcessedDataRow :=
  fold_left laterRow rest first.

(** [data.reduce((sum, d) => sum + field(d), 0)] *)
Definition total (field : ProcessedDataRow -> number)
           (data : list ProcessedDataRow) : number :=
  fold_left (fun sum d => add sum (field d)) data zero.

(** [totalRevenue > 0 ? (x / totalRevenue) * 100 : 0] *)
Definition weighted (x totalRevenue : number) : number :=
  if lt zero totalRevenue then mul (div x totalRevenue) hundred else zero.

Definition aggregatedMetrics (data : list ProcessedDataRow)
  : option AggregatedMetrics :=
  match data with
  | [] => None
  | first :: rest =>
      let latestQuarterData := latestQuarterData first rest in
      let totalRevenue := total Revenue data in
      let totalNetIncome := total Net_Income data in
      let totalEBITDA := total EBITDA data in
      Some {| totalRevenue := totalRevenue;
              totalNetIncome := totalNetIncome;
              totalEBITDA := totalEBITDA;
              yoyRevenue := yoyRevenueGrowth latestQuarterData;
              yoyNetIncome := yoyNetIncomeGrowth latestQuarterData;
              weightedGrossMargin :=
                weighted (total grossProfit data) totalRevenue;
              weightedEbitdaMargin := weighted totalEBITDA totalRevenue;
              weightedNetMargin := weighted totalNetIncome totalRevenue;
              weightedOpexMargin := weighted (total OPEX data) totalRevenue;
              latestQuarter := latestQuarterData |}
  end.

(** The effect that focuses the latest quarter when none is focused:
    the filters it leaves. *)
Definition focusLatest (data : list ProcessedDataRow) (filters : Filters)
  : Filters :=
  match data, focusedQuarter filters with
  | first :: rest, None
  | first :: rest, Some EmptyString =>
      {| years := years filters;
         regions := regions filters;
         products := products filters;
         focusedQuarter := Some (Quarter (latestQuarterData first rest)) |}
  | _, _ => filters
  end.

(** [quarterMap.get(q)] for [new Map(data.map(d => [d.Quarter, d]))]: the
    last row set under the key. *)
Definition quarterMapGet (data : list ProcessedDataRow) (q : string)
  : option ProcessedDataRow :=
  find (fun d => String.eqb (Quarter d) q) (rev data).

(** The comparator of [sortedQuarters]. *)
Definition byQuarterDescending (data : list ProcessedDataRow) (a b : string)
  : number :=
  match quarterMapGet data a, quarterMapGet data b with
  | Some itemA, Some itemB => sub (sortKey itemB) (sortKey itemA)
  | _, _ => zero
  end.

Definition sortedQuarters (data : list ProcessedDataRow) : list string :=
  sort (byQuarterDescending data) (stringSet (map Quarter data)).

(** The rows of the detail table: latest first. *)
Definition detailRows (data : list ProcessedDataRow) : list ProcessedDataRow :=
  sort (fun a b => sub (sortKey b) (sortKey a)) data.

(** ** Vocabulary of the specification *)

(** The string [Q c - d1 d2 d3 d4]. *)
Definition quarterLabel (c d1 d2 d3 d4 : ascii) : string :=
  String "Q" (String c (String "-"
    (String d1 (String d2 (String d3 (String d4 EmptyString)))))).

(** [s] has the form [Q<1-4>-<4-digit year>], for the quarter [q] and the
    year [y]. *)
Definition QuarterLabel (s : string) (q y : Z) : Prop :=
  exists c d1 d2 d3 d4,
    s = quarterLabel c d1 d2 d3 d4
    /\ isDigit c = true /\ isDigit d1 = true /\ isDigit d2 = true
    /\ isDigit d3 = true /\ isDigit d4 = true
    /\ q = digitValue c /\ 1 <= q <= 4
    /\ y = 1000 * digitValue d1 + 100 * digitValue d2
           + 10 * digitValue d3 + digitValue d4.

Definition yearOf (d1 d2 d3 d4 : ascii) : Z :=
  1000 * digitValue d1 + 100 * digitValue d2 + 10 * digitValue d3
  + digitValue d4.

Definition ValidQuarterLabel (s : string) : Prop :=
  exists q y, QuarterLabel s q y.

(** [t] occurs inside [s]. *)
Definition Includes (s t : string) : Prop :=
  exists pre post, s = pre ++ t ++ post.

(** A row as the first pass left it: the growth fields still null. *)
Definition metricsOf (r : ProcessedDataRow) : ProcessedDataRow :=
  withGrowth r None None None None.

(** A raw field that leaves its default in place: absent, blank or
    without a parseable number. *)
Definition defaulted (val : option string) : bool :=
  match val with
  | None => true
  | Some v => String.eqb (trim v) "" || isNaN (parseFloat v)
  end.

(** The trimmed string begins with a decimal literal: after an optional
    sign, [Infinity], a digit, or a dot and a digit. *)
Definition startsNumeric (s : string) : bool :=
  let '(_, r) := spanSign (trimStart s) in
  String.prefix "Infinity" r
  || match r with
     | String c r' =>
         isDigit c
         || (Ascii.eqb c "."
             && match r' with String c' _ => isDigit c' | EmptyString => false end)
     | EmptyString => false
     end.

(** Every character of [s] is a decimal digit. *)
Fixpoint allDigits (s : string) : bool :=
  match s with
  | String c r => isDigit c && allDigits r
  | EmptyString => true
  end.

(** [s] does not start with a character that would extend a literal
    whose digits end just before it. *)
Definition endsLiteral (s : string) : bool :=
  match s with
  | String c _ =>
      negb (isDigit c || Ascii.eqb c "e" || Ascii.eqb c "E")
  | EmptyString => true
  end.

(** [s] does not start with a character that would extend a literal
    of digits only. *)
Definition endsInteger (s : string) : bool :=
  match s with
  | String c _ =>
      negb (isDigit c || Ascii.eqb c "." || Ascii.eqb c "e" || Ascii.eqb c "E")
  | EmptyString => true
  end.

Definition finiteOrNull (x : option number) : bool :=
  match x with Some n => isFinite n | None => true end.

Definition notNaNOrNull (x : option number) : bool :=
  match x with Some n => negb (isNaN n) | None => true end.

(** Every numeric field of the row is a finite number or null. *)
Definition allFieldsFinite (r : ProcessedDataRow) : bool :=
  isFinite (Year r) && isFinite (quarterIndex r) && isFinite (sortKey r)
  && isFinite (Revenue r) && isFinite (COGS r) && isFinite (OPEX r)
  && isFinite (Non_Cash_Adjustments r) && isFinite (Net_Income r)
  && finiteOrNull (plan_Revenue r) && finiteOrNull (plan_COGS r)
  && finiteOrNull (plan_OPEX r) && finiteOrNull (plan_Non_Cash_Adjustments r)
  && finiteOrNull (plan_NetIncome r)
  && isFinite (grossProfit r) && isFinite (grossMargin r)
  && isFinite (opexMargin r) && isFinite (EBITDA r)
  && isFinite (EBITDA_Margin r) && isFinite (netMargin r)
  && finiteOrNull (qoqRevenueGrowth r) && finiteOrNull (qoqNetIncomeGrowth r)
  && finiteOrNull (yoyRevenueGrowth r) && finiteOrNull (yoyNetIncomeGrowth r)
  && finiteOrNull (revVarAbs r) && finiteOrNull (revVarPerc r)
  && finiteOrNull (cogsVarAbs r) && finiteOrNull (cogsVarPerc r)
  && finiteOrNull (opexVarAbs r) && finiteOrNull (opexVarPerc r)
  && finiteOrNull (ebitdaPlan r) && finiteOrNull (ebitdaVarAbs r)
  && finiteOrNull (ebitdaVarPerc r)
  && finiteOrNull (netIncomeVarAbs r) && finiteOrNull (netIncomeVarPerc r).

(** The number a raw field supplies, if it supplies one. *)
Definition parsedField (val : option string) : option number :=
  match val with
  | Some v => if defaulted val then None else Some (parseFloat v)
  | None => None
  end.

(** The variance of an actual value against its plan: both figures are
    null without a plan; with one the absolute variance is actual minus
    plan, and the percentage is that over the plan times 100, or null
    when the plan is zero. *)
Definition VarianceRule (actual : number) (plan abs perc : option number)
  : Prop :=
  match plan with
  | None => abs = None /\ perc = None
  | Some p =>
      abs = Some (sub actual p)
      /\ (strict_eq p zero = true -> perc = None)
      /\ (strict_eq p zero = false ->
          perc = Some (mul (div (sub actual p) p) hundred))
  end.

(** Percentage growth of [current] over [previous], null over zero. *)
Definition GrowthRule (current previous : number) (g : option number) : Prop :=
  (strict_eq previous zero = true -> g = None)
  /\ (strict_eq previous zero = false ->
      g = Some (mul (div (sub current previous) previous) hundred)).

(** [d] is the peer of [r] one year before: same quarter index, region
    and product. *)
Definition Peer (r d : ProcessedDataRow) : Prop :=
  strict_eq (Year d) (sub (Year r) one) = true
  /\ strict_eq (quarterIndex d) (quarterIndex r) = true
  /\ Region d = Region r
  /\ Product d = Product r.

(** *** Decimal literals at the head of a string

    The words of the specification about the coercion, written without
    the functions of the program: white space by code unit, signs and
    exponents by their characters. *)

(** A white-space code unit: TAB, LF, VT, FF, CR, SP or NBSP. *)
Definition blankChar (c : ascii) : Prop :=
  In (nat_of_ascii c) [9; 10; 11; 12; 13; 32; 160]%nat.

(** A string of white space only. *)
Fixpoint Blank (ws : string) : Prop :=
  match ws with
  | EmptyString => True
  | String c r => blankChar c /\ Blank r
  end.

(** A decimal digit, by code unit: [0] to [9]. *)
Definition digitChar (c : ascii) : Prop :=
  (48 <= nat_of_ascii c <= 57)%nat.

(** A string of decimal digits only. *)
Fixpoint Digits (ds : string) : Prop :=
  match ds with
  | EmptyString => True
  | String c r => digitChar c /\ Digits r
  end.

(** The integer a string of decimal digits spells, read after the
    digits of [acc]. *)
Fixpoint decimalFrom (acc : Z) (ds : string) : Z :=
  match ds with
  | EmptyString => acc
  | String c r => decimalFrom (10 * acc + (Z.of_nat (nat_of_ascii c) - 48)) r
  end.

Definition decimalValue (ds : string) : Z := decimalFrom 0 ds.

(** An optional sign, and whether it negates. *)
Definition signString (sg : string) (neg : bool) : Prop :=
  (sg = "" /\ neg = false) \/ (sg = "+" /\ neg = false)
  \/ (sg = "-" /\ neg = true).

Definition startsDigit (s : string) : Prop :=
  exists c r, s = String c r /\ digitChar c.

Definition startsDot (s : string) : Prop :=
  exists r, s = String "." r.

(** [s] starts with an exponent part: [e] or [E], an optional sign and
    a digit. *)
Definition startsExponent (s : string) : Prop :=
  exists c esg eneg d r,
    s = String c (esg ++ String d r)
    /\ (c = "e"%char \/ c = "E"%char)
    /\ signString esg eneg /\ digitChar d.

(** [t] starts an unsigned decimal literal: [Infinity], a digit, or a
    dot and a digit. *)
Definition StartsLiteral (t : string) : Prop :=
  (exists r, t = "Infinity" ++ r)
  \/ startsDigit t
  \/ (exists r, t = String "." r /\ startsDigit r).

(** The trimmed form of [s] begins with a decimal number. *)
Definition LeadingNumber (s : string) : Prop :=
  exists ws sg neg t,
    s = ws ++ sg ++ t /\ Blank ws /\ signString sg neg /\ StartsLiteral t.

(** [ex] is an exponent part of value [e]: nothing, or [e] or [E], an
    optional sign and digits. *)
Definition ExponentString (ex : string) (e : Z) : Prop :=
  (ex = "" /\ e = 0)
  \/ exists c esg eneg ed,
       ex = String c (esg ++ ed)
       /\ (c = "e"%char \/ c = "E"%char)
       /\ signString esg eneg
       /\ Digits ed /\ ed <> ""
       /\ e = if eneg then - decimalValue ed else decimalValue ed.

(** [s] reads as the number [v]: after white space and an optional
    sign comes the longest decimal literal, [Infinity], digits with an
    optional exponent, or digits around a dot with an optional
    exponent, and [v] is the Number nearest to its value. *)
Definition ReadsAs (s : string) (v : number) : Prop :=
  exists ws sg neg body,
    s = ws ++ sg ++ body /\ Blank ws /\ signString sg neg
    /\ ((exists rest, body = "Infinity" ++ rest /\ v = S754_infinity neg)
        \/ (exists ip ex e rest,
               body = ip ++ ex ++ rest
               /\ Digits ip /\ ip <> ""
               /\ ExponentString ex e
               /\ ~ startsDigit rest
               /\ (ex = "" -> ~ startsDot rest /\ ~ startsExponent rest)
               /\ v = of_decimal neg (decimalValue ip) e)
        \/ (exists ip fp ex e rest,
               body = ip ++ String "." (fp ++ ex ++ rest)
               /\ Digits ip /\ Digits fp
               /\ ip ++ fp <> ""
               /\ ExponentString ex e
               /\ ~ startsDigit rest
               /\ (ex = "" -> ~ startsExponent rest)
               /\ v = of_decimal neg (decimalValue (ip ++ fp))
                                 (e - Z.of_nat (String.length fp)))).

(** *** The order of sort keys

    A positive normal Number [m * 2^e] is ranked by the integer
    [m * 2^(e + 1074)]. *)
Definition ord (x : number) : Z :=
  match x with
  | S754_finite _ m e => Zpos m * 2 ^ (e + 1074)
  | _ => 0
  end.

Definition posNormal (x : number) : bool :=
  match x with
  | S754_finite false m e => (Zpos (digits2_pos m) =? 53) && (-1074 <=? e)
  | _ => false
  end.

(** [N * 2^k] as a positive, for [0 <= k]. *)
Definition shiftPos (N : positive) (k : Z) : positive :=
  match k with
  | Zpos d => Pos.iter xO N d
  | _ => N
  end.

(** The Number [N * 2^e] in canonical form, for [N] of at most 53 bits
    in the normal range. *)
Definition canon (s : bool) (N : positive) (e : Z) : number :=
  let k := 53 - Zpos (digits2_pos N) in
  S754_finite s (shiftPos N k) (e - k).

(** A rounding result that is not zero and has sign [s]. *)
Definition signed_nonzero (s : bool) (x : number) : Prop :=
  (exists m e, x = S754_finite s m e) \/ x = S754_infinity s.

(** What the first pass leaves: rows with positive normal sort keys and
    null growth fields. *)
Definition firstPassRow (r : ProcessedDataRow) : Prop :=
  posNormal (sortKey r) = true /\ metricsOf r = r.

(** *** Signed Numbers, identifiers and menu options *)

(** The rank of a finite Number [(-1)^s * m * 2^e] among the finite
    Numbers: the integer [(-1)^s * m * 2^(e + 1074)]; 0 for the zeros. *)
Definition signedOrd (x : number) : Z :=
  match x with
  | S754_finite s m e => cond_Zopp s (Zpos m * 2 ^ (e + 1074))
  | _ => 0
  end.

(** A zero or a finite Number above the least exponent. *)
Definition finiteValid (x : number) : bool :=
  match x with
  | S754_zero _ => true
  | S754_finite _ _ e => -1074 <=? e
  | _ => false
  end.

(** A zero or a normal Number in canonical form. *)
Definition canonical (x : number) : bool :=
  match x with
  | S754_zero _ => true
  | S754_finite _ m e => (Zpos (digits2_pos m) =? 53) && (-1074 <=? e)
  | _ => false
  end.

(** The segment of [s] after its last [-]. *)
Definition lastSegment (s : string) : string :=
  last (split "-" s) EmptyString.

(** A menu option as the menus hold them: a string, or a Number that is
    neither NaN, infinite nor [-0]. *)
Definition plainOption (o : menuOption) : Prop :=
  match o with
  | Str _ => True
  | Num x => canonical x = true /\ plusZero x = x
  end.

(** *** Sample batches *)

(** The rows of a batch that parses. *)
Definition rowsOf (rawData : list RawDataRow) : list ProcessedDataRow :=
  match processFinancialData rawData with
  | Normal out => out
  | Throw _ => []
  end.

Definition rawRow (quarter : string) (region product : option string)
           (revenue cogs opex netIncome : option string) : RawDataRow :=
  {| raw_Quarter := quarter;
     raw_Year := EmptyString;
     raw_Region := region;
     raw_Product := product;
     raw_Revenue := revenue;
     raw_COGS := cogs;
     raw_OPEX := opex;
     raw_Non_Cash_Adjustments := None;
     raw_Net_Income := netIncome;
     raw_Plan_Revenue := None;
     raw_Plan_COGS := None;
     raw_Plan_OPEX := None;
     raw_Plan_Non_Cash_Adjustments := None;
     raw_Plan_NetIncome := None |}.

Definition withPlan (row : RawDataRow)
           (planRevenue planCogs planOpex planNetIncome : option string)
  : RawDataRow :=
  {| raw_Quarter := raw_Quarter row;
     raw_Year := raw_Year row;
     raw_Region := raw_Region row;
     raw_Product := raw_Product row;
     raw_Revenue := raw_Revenue row;
     raw_COGS := raw_COGS row;
     raw_OPEX := raw_OPEX row;
     raw_Non_Cash_Adjustments := raw_Non_Cash_Adjustments row;
     raw_Net_Income := raw_Net_Income row;
     raw_Plan_Revenue := planRevenue;
     raw_Plan_COGS := planCogs;
     raw_Plan_OPEX := planOpex;
     raw_Plan_Non_Cash_Adjustments := raw_Plan_Non_Cash_Adjustments row;
     raw_Plan_NetIncome := planNetIncome |}.

(** Three quarters of one segment, revenues 100, 110 and 90. *)
Definition threeQuarters : list RawDataRow :=
  [ rawRow "Q1-2023" None None (Some "100") None None None;
    rawRow "Q2-2023" None None (Some "110") None None None;
    rawRow "Q3-2023" None None (Some "90") None None None ].

(** The same quarter of two years for East/Soap, and a West row without a
    peer, given out of order. *)
Definition twoYears : list RawDataRow :=
  [ rawRow "Q1-2024" (Some "East") (Some "Soap") (Some "120") None None None;
    rawRow "Q1-2024" (Some "West") (Some "Soap") (Some "90") None None None;
    rawRow "Q1-2023" (Some "East") (Some "Soap") (Some "100") None None None ].

(** Revenue 100, cost of goods 40, operating expense 20, no net income. *)
Definition derivedNetIncome : list RawDataRow :=
  [ rawRow "Q1-2023" None None (Some "100") (Some "40") (Some "20") None ].

(** A plan for revenue only, of zero. *)
Definition zeroPlan : list RawDataRow :=
  [ withPlan (rawRow "Q1-2023" None None (Some "100") (Some "40") (Some "20") None)
             (Some "0") None None None ].

(** A complete plan without a plan net income. *)
Definition fullPlan : list RawDataRow :=
  [ withPlan (rawRow "Q1-2023" None None (Some "100") (Some "40") (Some "20") None)
             (Some "80") (Some "30") (Some "10") None ].

(** No revenue at all. *)
Definition zeroRevenue : list RawDataRow :=
  [ rawRow "Q4-2022" None None (Some "0") (Some "5") (Some "2") None ].

(** A revenue field that reads [Infinity]. *)
Definition infiniteRevenue : list RawDataRow :=
  [ rawRow "Q1-2023" None None (Some "Infinity") (Some "40") (Some "20") None ].

(** Finite fields whose difference overflows. *)
Definition overflowing : list RawDataRow :=
  [ rawRow "Q1-2023" None None (Some "1e308") (Some "-1e308") None None ].

(** A label in the wrong order after a valid one. *)
Definition wrongOrder : list RawDataRow :=
  [ rawRow "Q1-2023" None None (Some "100") None None None;
    rawRow "2023-Q1" None None (Some "110") None None None ].

(** * Facts about the embedding *)

Local Open Scope list_scope.

(** ** Rounding and comparison of Numbers *)

Section NumberFacts.

Lemma iter_pos_nat {A : Type} (f : A -> A) (p : positive) (x : A) :
  iter_pos f p x = Nat.iter (Pos.to_nat p) f x.
Proof.
  revert x; induction p as [p IH | p IH |]; intro x; cbn [iter_pos].
  - rewrite !IH, Pos2Nat.inj_xI.
    replace (S (2 * Pos.to_nat p)) with (Pos.to_nat p + S (Pos.to_nat p))%nat by lia.
    rewrite Nat.iter_add, Nat.iter_succ_r. reflexivity.
  - rewrite !IH, Pos2Nat.inj_xO.
    replace (2 * Pos.to_nat p)%nat with (Pos.to_nat p + Pos.to_nat p)%nat by lia.
    rewrite Nat.iter_add. reflexivity.
  - reflexivity.
Qed.

Lemma digits2_size_nat (m : positive) :
  Pos.to_nat (digits2_pos m) = Pos.size_nat m.
Proof.
  induction m; simpl; rewrite ?Pos2Nat.inj_succ, ?IHm; reflexivity.
Qed.

Lemma shr_1_iter_positive (k : nat) :
  forall m r s, (k < Pos.size_nat m)%nat ->
  exists m', shr_m (Nat.iter k shr_1 (Build_shr_record (Zpos m) r s)) = Zpos m'.
Proof.
  induction k as [| k IH]; intros m r s Hk.
  - exists m. reflexivity.
  - rewrite Nat.iter_succ_r.
    destruct m as [q | q |]; simpl in Hk; try lia; simpl shr_1;
      apply IH; lia.
Qed.

Lemma shr_fexp_positive (m : positive) (e : Z) (l : location) :
  -1074 <= e ->
  exists mrs e' m', shr_fexp prec emax (Zpos m) e l = (mrs, e')
                    /\ shr_m mrs = Zpos m' /\ -1074 <= e'.
Proof.
  intro He. unfold shr_fexp, shr.
  assert (Hrec : forall l0, exists r s,
             shr_record_of_loc (Zpos m) l0 = Build_shr_record (Zpos m) r s).
  { intros [| []]; simpl; eauto. }
  destruct (Hrec l) as (r & s & ->).
  destruct (fexp prec emax (Zdigits2 (Zpos m) + e) - e) as [| p | p] eqn:Hn.
  - exists (Build_shr_record (Zpos m) r s), e, m. auto.
  - assert (Hp : (Pos.to_nat p < Pos.size_nat m)%nat).
    { rewrite <- digits2_size_nat.
      unfold fexp, SpecFloat.emin, prec, emax in Hn. simpl Zdigits2 in Hn. lia. }
    rewrite iter_pos_nat.
    destruct (shr_1_iter_positive _ m r s Hp) as (m' & Hm').
    do 3 eexists. split; [reflexivity | split; [exact Hm' | lia]].
  - exists (Build_shr_record (Zpos m) r s), e, m. auto.
Qed.

Lemma binary_round_aux_nonzero (s : bool) (m : positive) (e : Z) (l : location) :
  -1074 <= e -> signed_nonzero s (binary_round_aux prec emax s (Zpos m) e l).
Proof.
  intro He. unfold binary_round_aux.
  destruct (shr_fexp_positive m e l He) as (mrs & e1 & m1 & -> & Hm1 & He1).
  rewrite Hm1.
  assert (Hr : exists m2, round_nearest_even (Zpos m1) (loc_of_shr_record mrs) = Zpos m2).
  { unfold round_nearest_even.
    destruct (loc_of_shr_record mrs) as [| []]; eauto.
    - destruct (Z.even (Zpos m1)); simpl; eauto.
    - simpl; eauto. }
  destruct Hr as (m2 & ->).
  destruct (shr_fexp_positive m2 e1 loc_Exact He1) as (mrs2 & e2 & m3 & -> & -> & He2).
  destruct (e2 <=? emax - prec); [left; eauto | right; reflexivity].
Qed.

Lemma binary_round_nonzero (s : bool) (m : positive) (e : Z) :
  -1074 <= e -> signed_nonzero s (binary_round prec emax s m e).
Proof.
  intro He. unfold binary_round, shl_align.
  destruct (fexp prec emax (Zpos (digits2_pos m) + e) - e) eqn:Hn;
    apply binary_round_aux_nonzero; try assumption.
  unfold fexp, SpecFloat.emin, prec, emax. lia.
Qed.

Lemma iter_xO_value (m d : positive) :
  Zpos (Pos.iter xO m d) = Zpos m * 2 ^ Zpos d.
Proof.
  induction d as [| d IH] using Pos.peano_ind.
  - simpl. lia.
  - rewrite Pos.iter_succ, Pos2Z.inj_xO, IH, Pos2Z.inj_succ, Z.pow_succ_r by lia.
    ring.
Qed.

Lemma shl_align_value (mx : positive) (ex ez : Z) :
  ez <= ex -> Zpos (fst (shl_align mx ex ez)) = Zpos mx * 2 ^ (ex - ez).
Proof.
  intro H. unfold shl_align.
  destruct (ez - ex) as [| d | d] eqn:Hd; simpl fst.
  - replace (ex - ez) with 0 by lia. simpl. lia.
  - lia.
  - rewrite iter_xO_value. f_equal. f_equal. lia.
Qed.

Lemma lt_zero_signed_nonzero (s : bool) (x : number) :
  signed_nonzero s x -> lt zero x = negb s.
Proof.
  intros [(m & e & ->) | ->]; destruct s; reflexivity.
Qed.

Lemma posNormal_inv (x : number) :
  posNormal x = true ->
  exists m e, x = S754_finite false m e
              /\ Zpos (digits2_pos m) = 53 /\ -1074 <= e.
Proof.
  destruct x as [| | | [] m e]; cbn [posNormal]; try discriminate.
  intro H. apply andb_true_iff in H. destruct H as [H1 H2].
  apply Z.eqb_eq in H1. apply Z.leb_le in H2.
  exists m, e. auto.
Qed.

Lemma sub_posNormal (x y : number) :
  posNormal x = true -> posNormal y = true ->
  lt zero (sub x y) = (ord y <? ord x).
Proof.
  intros Hx Hy.
  destruct (posNormal_inv x Hx) as (mx & ex & -> & _ & Hex).
  destruct (posNormal_inv y Hy) as (my & ey & -> & _ & Hey).
  unfold sub, SFsub, cond_Zopp. cbv zeta.
  set (ez := Z.min ex ey).
  assert (Hez : -1074 <= ez) by (unfold ez; lia).
  rewrite !shl_align_value by (unfold ez; lia).
  assert (Hox : ord (S754_finite false mx ex)
                = Zpos mx * 2 ^ (ex - ez) * 2 ^ (ez + 1074)).
  { cbn [ord]. rewrite <- Z.mul_assoc, <- Z.pow_add_r by (unfold ez; lia).
    do 2 f_equal. lia. }
  assert (Hoy : ord (S754_finite false my ey)
                = Zpos my * 2 ^ (ey - ez) * 2 ^ (ez + 1074)).
  { cbn [ord]. rewrite <- Z.mul_assoc, <- Z.pow_add_r by (unfold ez; lia).
    do 2 f_equal. lia. }
  rewrite Hox, Hoy.
  assert (HP : 0 < 2 ^ (ez + 1074)) by (apply Z.pow_pos_nonneg; lia).
  set (a := Zpos mx * 2 ^ (ex - ez)) in *.
  set (b := Zpos my * 2 ^ (ey - ez)) in *.
  set (P := 2 ^ (ez + 1074)) in *.
  destruct (a - b) as [| p | p] eqn:Hd; unfold binary_normalize.
  - replace a with b by lia. rewrite Z.ltb_irrefl. reflexivity.
  - rewrite (lt_zero_signed_nonzero false) by (apply binary_round_nonzero; exact Hez).
    symmetry. apply Z.ltb_lt. nia.
  - rewrite (lt_zero_signed_nonzero true) by (apply binary_round_nonzero; exact Hez).
    symmetry. apply Z.ltb_ge. nia.
Qed.

Lemma digits2_bounds (m : positive) :
  2 ^ (Zpos (digits2_pos m) - 1) <= Zpos m < 2 ^ Zpos (digits2_pos m).
Proof.
  induction m as [m IH | m IH |]; cbn [digits2_pos].
  - rewrite Pos2Z.inj_succ, Z.pow_succ_r by lia.
    replace (Z.succ (Zpos (digits2_pos m)) - 1)
      with (Z.succ (Zpos (digits2_pos m) - 1)) by lia.
    rewrite Z.pow_succ_r by lia. lia.
  - rewrite Pos2Z.inj_succ, Z.pow_succ_r by lia.
    replace (Z.succ (Zpos (digits2_pos m)) - 1)
      with (Z.succ (Zpos (digits2_pos m) - 1)) by lia.
    rewrite Z.pow_succ_r by lia. lia.
  - simpl. lia.
Qed.

Lemma compare_posNormal (x y : number) :
  posNormal x = true -> posNormal y = true ->
  SFcompare x y = Some (ord x ?= ord y).
Proof.
  intros Hx Hy.
  destruct (posNormal_inv x Hx) as (mx & ex & -> & Hdx & Hex).
  destruct (posNormal_inv y Hy) as (my & ey & -> & Hdy & Hey).
  pose proof (digits2_bounds mx) as Bx. rewrite Hdx in Bx.
  pose proof (digits2_bounds my) as By. rewrite Hdy in By.
  change (53 - 1) with 52 in Bx, By.
  assert (H53 : 2 ^ 53 = 2 * 2 ^ 52) by reflexivity.
  cbn [SFcompare ord]. f_equal.
  destruct (Z.compare_spec ex ey) as [Heq | Hlt | Hgt].
  - subst ey.
    assert (0 < 2 ^ (ex + 1074)) by (apply Z.pow_pos_nonneg; lia).
    change (Pos.compare_cont Eq mx my) with (Zpos mx ?= Zpos my).
    destruct (Z.compare_spec (Zpos mx) (Zpos my)); symmetry;
      [apply Z.compare_eq_iff | apply Z.compare_lt_iff | apply Z.compare_gt_iff];
      nia.
  - symmetry. apply Z.compare_lt_iff.
    replace (ey + 1074) with ((ey - ex - 1) + 1 + (ex + 1074)) by lia.
    rewrite (Z.pow_add_r 2 (ey - ex - 1 + 1)), (Z.pow_add_r 2 (ey - ex - 1)) by lia.
    assert (0 < 2 ^ (ex + 1074)) by (apply Z.pow_pos_nonneg; lia).
    assert (0 < 2 ^ (ey - ex - 1)) by (apply Z.pow_pos_nonneg; lia).
    change (2 ^ 1) with 2.
    assert (Zpos mx < Zpos my * (2 ^ (ey - ex - 1) * 2)) by nia.
    rewrite Z.mul_assoc. apply Z.mul_lt_mono_pos_r; assumption.
  - symmetry. apply Z.compare_gt_iff.
    replace (ex + 1074) with ((ex - ey - 1) + 1 + (ey + 1074)) by lia.
    rewrite (Z.pow_add_r 2 (ex - ey - 1 + 1)), (Z.pow_add_r 2 (ex - ey - 1)) by lia.
    assert (0 < 2 ^ (ey + 1074)) by (apply Z.pow_pos_nonneg; lia).
    assert (0 < 2 ^ (ex - ey - 1)) by (apply Z.pow_pos_nonneg; lia).
    change (2 ^ 1) with 2.
    assert (Zpos my < Zpos mx * (2 ^ (ex - ey - 1) * 2)) by nia.
    rewrite Z.mul_assoc. apply Z.mul_lt_mono_pos_r; assumption.
Qed.

Lemma le_posNormal (x y : number) :
  posNormal x = true -> posNormal y = true -> le x y = (ord x <=? ord y).
Proof.
  intros Hx Hy. unfold le, SFleb. rewrite compare_posNormal by assumption.
  unfold Z.leb. destruct (ord x ?= ord y); reflexivity.
Qed.

Lemma strict_eq_posNormal (x y : number) :
  posNormal x = true -> posNormal y = true -> strict_eq x y = (ord x =? ord y).
Proof.
  intros Hx Hy. unfold strict_eq, SFeqb. rewrite compare_posNormal by assumption.
  rewrite <- Z.eqb_compare. reflexivity.
Qed.

Lemma strict_eq_posNormal_inv (x k : number) :
  posNormal x = true -> strict_eq x k = true -> k = x.
Proof.
  intros Hx Hk.
  destruct (posNormal_inv x Hx) as (m & e & -> & _ & _).
  unfold strict_eq, SFeqb in Hk.
  destruct k as [s | s | | s m' e']; cbn [SFcompare] in Hk;
    try discriminate; try (destruct s; discriminate).
  destruct s; [discriminate |].
  destruct (Z.compare_spec e e') as [He | _ | _]; try discriminate.
  destruct (Pos.compare_cont Eq m m') eqn:Hm; try discriminate.
  apply Pos.compare_eq in Hm. congruence.
Qed.

Lemma shiftPos_value (N : positive) (k : Z) :
  0 <= k -> Zpos (shiftPos N k) = Zpos N * 2 ^ k.
Proof.
  intro H. destruct k as [| d | d]; cbn [shiftPos]; try lia.
  apply iter_xO_value.
Qed.

Lemma shiftPos_unique (a N : positive) (k : Z) :
  0 <= k -> Zpos a = Zpos N * 2 ^ k -> a = shiftPos N k.
Proof.
  intros Hk H. rewrite <- (shiftPos_value N k Hk) in H. congruence.
Qed.

Lemma digits2_iter_xO (N d : positive) :
  digits2_pos (Pos.iter xO N d) = (digits2_pos N + d)%positive.
Proof.
  induction d as [| d IH] using Pos.peano_ind.
  - cbn. lia.
  - rewrite Pos.iter_succ. cbn [digits2_pos]. rewrite IH. lia.
Qed.

Lemma digits2_shiftPos (N : positive) (k : Z) :
  0 <= k -> Zpos (digits2_pos (shiftPos N k)) = Zpos (digits2_pos N) + k.
Proof.
  intro H. destruct k as [| d | d]; cbn [shiftPos]; try lia.
  rewrite digits2_iter_xO. lia.
Qed.

Lemma shiftPos_shiftPos (N : positive) (a b : Z) :
  0 <= a -> 0 <= b -> shiftPos (shiftPos N a) b = shiftPos N (a + b).
Proof.
  intros Ha Hb. apply shiftPos_unique; [lia |].
  rewrite !shiftPos_value, Z.pow_add_r by lia. ring.
Qed.

Lemma shl_align_shiftPos (N : positive) (e e' : Z) :
  e' <= e -> shl_align N e e' = (shiftPos N (e - e'), e').
Proof.
  intro H. unfold shl_align.
  destruct (e' - e) as [| d | d] eqn:Hd.
  - replace (e - e') with 0 by lia. replace e' with e by lia. reflexivity.
  - lia.
  - replace (e - e') with (Zpos d) by lia. reflexivity.
Qed.

Lemma shr_1_iter_exact (k : nat) (N : positive) :
  Nat.iter k shr_1 (Build_shr_record (Zpos (Nat.iter k xO N)) false false)
  = Build_shr_record (Zpos N) false false.
Proof.
  induction k as [| k IH]; [reflexivity |].
  rewrite Nat.iter_succ_r. cbn [Nat.iter shr_1 orb]. exact IH.
Qed.

Lemma shiftPos_nat (N : positive) (p : positive) :
  shiftPos N (Zpos p) = Nat.iter (Pos.to_nat p) xO N.
Proof. cbn [shiftPos]. apply Pos2Nat.inj_iter. Qed.

Lemma round_aux_exact (s : bool) (N : positive) (j e : Z) :
  0 <= j ->
  Zpos (digits2_pos N) <= 53 <= Zpos (digits2_pos N) + j ->
  -1074 <= e + j + Zpos (digits2_pos N) - 53 <= 971 ->
  binary_round_aux prec emax s (Zpos (shiftPos N j)) e loc_Exact
  = S754_finite s (shiftPos N (53 - Zpos (digits2_pos N)))
                (e + j + Zpos (digits2_pos N) - 53).
Proof.
  intros Hj HL He.
  set (L := Zpos (digits2_pos N)) in *.
  set (p := L + j - 53).
  assert (Hsplit : shiftPos N j = shiftPos (shiftPos N (53 - L)) p).
  { rewrite shiftPos_shiftPos by (unfold p; lia). f_equal. unfold p. lia. }
  assert (Hd : Zpos (digits2_pos (shiftPos N (53 - L))) = 53).
  { rewrite digits2_shiftPos by lia. fold L. lia. }
  set (M := shiftPos N (53 - L)) in *.
  assert (Hfinal : forall e', -1074 <= e' <= 971 ->
             shr_fexp prec emax (Zpos M) e' loc_Exact
             = (Build_shr_record (Zpos M) false false, e')).
  { intros e' He'. unfold shr_fexp, shr. cbn [Zdigits2]. rewrite Hd.
    replace (fexp prec emax (53 + e') - e') with 0
      by (unfold fexp, SpecFloat.emin, prec, emax; lia).
    reflexivity. }
  unfold binary_round_aux.
  assert (Hfirst : shr_fexp prec emax (Zpos (shiftPos N j)) e loc_Exact
                   = (Build_shr_record (Zpos M) false false, e + p)).
  { unfold shr_fexp, shr. cbn [Zdigits2 shr_record_of_loc].
    rewrite digits2_shiftPos by lia. fold L.
    replace (fexp prec emax (L + j + e) - e) with p
      by (unfold fexp, SpecFloat.emin, prec, emax, p; lia).
    rewrite Hsplit.
    destruct p as [| q | q] eqn:Hp; try lia.
    - cbn [shiftPos]. f_equal. lia.
    - rewrite iter_pos_nat, shiftPos_nat, shr_1_iter_exact. reflexivity. }
  rewrite Hfirst. cbn [shr_m loc_of_shr_record round_nearest_even].
  rewrite Hfinal by (unfold p; lia). cbn [shr_m].
  replace (e + p <=? emax - prec) with true
    by (symmetry; apply Z.leb_le; unfold emax, prec, p; lia).
  f_equal. unfold p. lia.
Qed.

Lemma round_exact (s : bool) (N : positive) (j e : Z) :
  0 <= j ->
  Zpos (digits2_pos N) <= 53 ->
  -1074 <= e + j + Zpos (digits2_pos N) - 53 <= 971 ->
  binary_round prec emax s (shiftPos N j) e = canon s N (e + j).
Proof.
  intros Hj HL He. unfold binary_round, canon. cbv zeta.
  set (L := Zpos (digits2_pos N)) in *.
  rewrite digits2_shiftPos by lia. fold L.
  replace (fexp prec emax (L + j + e)) with (L + j + e - 53)
    by (unfold fexp, SpecFloat.emin, prec, emax; lia).
  destruct (Z_le_gt_dec (L + j) 53) as [Hle | Hgt].
  - rewrite shl_align_shiftPos by lia.
    rewrite shiftPos_shiftPos by lia.
    replace (j + (e - (L + j + e - 53))) with (53 - L) by lia.
    rewrite (round_aux_exact s N (53 - L) (L + j + e - 53)); fold L; try lia.
    f_equal. lia.
  - unfold shl_align.
    destruct (L + j + e - 53 - e) as [| d | d] eqn:Hd; try lia.
    rewrite (round_aux_exact s N j e); fold L; try lia.
    f_equal. lia.
Qed.

Lemma digits2_le (N : positive) (k : Z) :
  0 <= k -> Zpos N < 2 ^ k -> Zpos (digits2_pos N) <= k.
Proof.
  intros Hk H. pose proof (digits2_bounds N) as [B _].
  destruct (Z_le_gt_dec (Zpos (digits2_pos N)) k) as [Hle | Hgt]; [exact Hle |].
  exfalso.
  assert (2 ^ k <= 2 ^ (Zpos (digits2_pos N) - 1))
    by (apply Z.pow_le_mono_r; lia).
  lia.
Qed.

Lemma of_Z_canon (p : positive) :
  Zpos (digits2_pos p) <= 53 -> of_Z (Zpos p) = canon false p 0.
Proof.
  intro H. unfold of_Z, binary_normalize.
  change p with (shiftPos p 0) at 1.
  rewrite round_exact by lia. reflexivity.
Qed.

Lemma canon_posNormal (N : positive) (e : Z) :
  Zpos (digits2_pos N) <= 53 ->
  -1074 <= e + Zpos (digits2_pos N) - 53 ->
  posNormal (canon false N e) = true.
Proof.
  intros HL He. unfold canon, posNormal. cbv zeta.
  rewrite digits2_shiftPos by lia.
  apply andb_true_iff. split; [apply Z.eqb_eq | apply Z.leb_le]; lia.
Qed.

Lemma canon_ord (s : bool) (N : positive) (e : Z) :
  Zpos (digits2_pos N) <= 53 ->
  -1074 <= e + Zpos (digits2_pos N) - 53 ->
  ord (canon s N e) = Zpos N * 2 ^ (e + 1074).
Proof.
  intros HL He. unfold canon, ord. cbv zeta.
  rewrite shiftPos_value by lia.
  rewrite <- Z.mul_assoc, <- Z.pow_add_r by lia.
  do 2 f_equal. lia.
Qed.

Lemma canon_toQ (s : bool) (N : positive) (e : Z) :
  Zpos (digits2_pos N) <= 53 ->
  exists v, toQ (canon s N e) = Some v
            /\ (v == inject_Z (cond_Zopp s (Zpos N)) * Qpower 2 e)%Q.
Proof.
  intro HL. unfold canon, toQ. cbv zeta.
  set (k := 53 - Zpos (digits2_pos N)).
  eexists. split; [reflexivity |].
  assert (Hk : 0 <= k) by (unfold k; lia).
  assert (Hv : (inject_Z (cond_Zopp s (Zpos (shiftPos N k)))
                == inject_Z (cond_Zopp s (Zpos N)) * Qpower 2 k)%Q).
  { rewrite <- (Zpower_Qpower 2 k Hk). rewrite <- inject_Z_mult.
    destruct s; cbn [cond_Zopp]; rewrite shiftPos_value by lia;
      apply inject_Z_injective; lia. }
  rewrite Hv.
  replace e with ((e - k) + k) at 2 by lia.
  rewrite (Qpower_plus 2 (e - k) k) by discriminate.
  ring.
Qed.

Lemma add_exact (mx my N : positive) (ex ey j : Z) :
  0 <= j ->
  Zpos mx * 2 ^ (ex - Z.min ex ey) + Zpos my * 2 ^ (ey - Z.min ex ey)
  = Zpos N * 2 ^ j ->
  Zpos (digits2_pos N) <= 53 ->
  -1074 <= Z.min ex ey + j + Zpos (digits2_pos N) - 53 <= 971 ->
  add (S754_finite false mx ex) (S754_finite false my ey)
  = canon false N (Z.min ex ey + j).
Proof.
  intros Hj Hsum HL He. unfold add, SFadd, cond_Zopp. cbv zeta.
  rewrite !shl_align_value by lia. rewrite Hsum.
  rewrite <- shiftPos_value by lia. cbn [binary_normalize].
  apply round_exact; assumption.
Qed.

Lemma sub_exact (mx my N : positive) (ex ey j : Z) :
  0 <= j ->
  Zpos mx * 2 ^ (ex - Z.min ex ey) - Zpos my * 2 ^ (ey - Z.min ex ey)
  = Zpos N * 2 ^ j ->
  Zpos (digits2_pos N) <= 53 ->
  -1074 <= Z.min ex ey + j + Zpos (digits2_pos N) - 53 <= 971 ->
  sub (S754_finite false mx ex) (S754_finite false my ey)
  = canon false N (Z.min ex ey + j).
Proof.
  intros Hj Hsum HL He. unfold sub, SFsub, cond_Zopp. cbv zeta.
  rewrite !shl_align_value by lia. rewrite Hsum.
  rewrite <- shiftPos_value by lia. cbn [binary_normalize].
  apply round_exact; assumption.
Qed.

(** The Number of a year plus a fraction [q / 4] given in canonical
    form. *)
Lemma add_fraction (p mq : positive) (q eq : Z) :
  Zpos p <= 9999 -> 1 <= q <= 4 -> -54 <= eq <= -52 ->
  Zpos mq = q * 2 ^ (- eq - 2) ->
  add (of_Z (Zpos p)) (S754_finite false mq eq)
  = canon false (Z.to_pos (4 * Zpos p + q)) (-2).
Proof.
  intros Hp Hq He Hmq.
  assert (Lp : Zpos (digits2_pos p) <= 14)
    by (apply digits2_le; [lia | change (2 ^ 14) with 16384; lia]).
  set (n := Z.to_pos (4 * Zpos p + q)).
  assert (Hn : Zpos n = 4 * Zpos p + q) by (unfold n; lia).
  assert (Ln : Zpos (digits2_pos n) <= 16)
    by (apply digits2_le; [lia | change (2 ^ 16) with 65536; lia]).
  rewrite of_Z_canon by lia. unfold canon at 1. cbv zeta.
  set (L := Zpos (digits2_pos p)) in *.
  assert (L1 : 1 <= L) by (unfold L; lia).
  assert (Hmin : Z.min (0 - (53 - L)) eq = eq) by lia.
  rewrite (add_exact _ _ n _ _ (- eq - 2)); rewrite ?Hmin; try lia.
  - f_equal. lia.
  - rewrite shiftPos_value, Hmq, Hn by lia.
    replace (eq - eq) with 0 by lia. rewrite Z.pow_0_r, Z.mul_1_r.
    rewrite <- Z.mul_assoc, <- Z.pow_add_r by lia.
    replace (53 - L + (0 - (53 - L) - eq)) with (2 + (- eq - 2)) by lia.
    rewrite Z.pow_add_r by lia. change (2 ^ 2) with 4. ring.
Qed.

Lemma add_quarter (y q : Z) :
  0 <= y <= 9999 -> 1 <= q <= 4 ->
  add (of_Z y) (div (of_Z q) four) = canon false (Z.to_pos (4 * y + q)) (-2).
Proof.
  intros Hy Hq.
  assert (C : q = 1 \/ q = 2 \/ q = 3 \/ q = 4) by lia.
  destruct y as [| p | p]; [| | lia].
  - destruct C as [-> | [-> | [-> | ->]]]; vm_compute; reflexivity.
  - destruct C as [-> | [-> | [-> | ->]]].
    + change (div (of_Z 1) four) with (S754_finite false 4503599627370496 (-54)).
      apply add_fraction; lia.
    + change (div (of_Z 2) four) with (S754_finite false 4503599627370496 (-53)).
      apply add_fraction; lia.
    + change (div (of_Z 3) four) with (S754_finite false 6755399441055744 (-53)).
      apply add_fraction; lia.
    + change (div (of_Z 4) four) with (S754_finite false 4503599627370496 (-52)).
      apply add_fraction; lia.
Qed.

Lemma quarter_key_facts (y q : Z) :
  0 <= y <= 9999 -> 1 <= q <= 4 ->
  posNormal (add (of_Z y) (div (of_Z q) four)) = true
  /\ exists v, toQ (add (of_Z y) (div (of_Z q) four)) = Some v
               /\ (v == inject_Z y + inject_Z q / 4)%Q.
Proof.
  intros Hy Hq. rewrite add_quarter by assumption.
  set (n := Z.to_pos (4 * y + q)).
  assert (Hn : Zpos n = 4 * y + q) by (unfold n; lia).
  assert (Ln : Zpos (digits2_pos n) <= 16)
    by (apply digits2_le; [lia | change (2 ^ 16) with 65536; lia]).
  pose proof (digits2_bounds n) as Bn.
  split.
  - apply canon_posNormal; lia.
  - destruct (canon_toQ false n (-2)) as (v & Hv & Hveq); [lia |].
    exists v. split; [exact Hv |].
    rewrite Hveq. cbn [cond_Zopp]. rewrite Hn.
    rewrite inject_Z_plus, inject_Z_mult.
    change (Qpower 2 (-2)) with (/ 4)%Q. field.
Qed.

Lemma year_finite (y : Z) : 0 <= y <= 9999 -> isFinite (of_Z y) = true.
Proof.
  intro Hy. destruct y as [| p | p]; [reflexivity | | lia].
  rewrite of_Z_canon; [reflexivity |].
  apply Z.le_trans with 14; [| lia].
  apply digits2_le; [lia | change (2 ^ 14) with 16384; lia].
Qed.

Lemma small_digits (p : positive) : Zpos p <= 9999 -> Zpos (digits2_pos p) <= 14.
Proof.
  intro H. apply digits2_le; [lia | change (2 ^ 14) with 16384; lia].
Qed.

Lemma sub_one (y : Z) : 0 <= y <= 9999 -> sub (of_Z y) one = of_Z (y - 1).
Proof.
  intro Hy. destruct y as [| p | p]; [reflexivity | | lia].
  destruct (Pos.eq_dec p 1) as [-> | Hp1]; [reflexivity |].
  pose proof (small_digits p ltac:(lia)) as Lp.
  set (n := Z.to_pos (Zpos p - 1)).
  assert (Hn : Zpos n = Zpos p - 1) by (unfold n; lia).
  pose proof (small_digits n ltac:(lia)) as Ln.
  rewrite <- Hn.
  rewrite !of_Z_canon by lia. unfold canon at 1. cbv zeta.
  set (L := Zpos (digits2_pos p)) in *.
  assert (L1 : 1 <= L) by (unfold L; lia).
  change one with (S754_finite false 4503599627370496 (-52)).
  assert (Hmin : Z.min (0 - (53 - L)) (-52) = -52) by lia.
  rewrite (sub_exact _ _ n _ _ 52); rewrite ?Hmin; try lia.
  - reflexivity.
  - rewrite shiftPos_value, Hn by lia.
    replace (-52 - -52) with 0 by lia. rewrite Z.pow_0_r, Z.mul_1_r.
    rewrite <- Z.mul_assoc, <- Z.pow_add_r by lia.
    replace (53 - L + (0 - (53 - L) - -52)) with 52 by lia.
    change 4503599627370496 with (2 ^ 52). ring.
Qed.

Lemma of_Z_strict_eq (a b : Z) :
  0 <= a <= 9999 -> -1 <= b <= 9999 ->
  strict_eq (of_Z a) (of_Z b) = (a =? b).
Proof.
  intros Ha Hb.
  assert (Hc : forall p, Zpos p <= 9999 ->
               of_Z (Zpos p) = canon false p 0
               /\ posNormal (of_Z (Zpos p)) = true
               /\ ord (of_Z (Zpos p)) = Zpos p * 2 ^ 1074).
  { intros p Hp. pose proof (small_digits p Hp) as Lp.
    pose proof (digits2_bounds p) as Bp.
    rewrite of_Z_canon by lia.
    split; [reflexivity |]. split.
    - apply canon_posNormal; lia.
    - rewrite canon_ord by lia. reflexivity. }
  destruct a as [| p | p]; [| | lia].
  - destruct b as [| p' | p'].
    + reflexivity.
    + destruct (Hc p') as (-> & _ & _); [lia | reflexivity].
    + replace p' with 1%positive by lia. reflexivity.
  - destruct (Hc p) as (Ep & Np & Op); [lia |].
    destruct b as [| p' | p'].
    + rewrite Ep. reflexivity.
    + destruct (Hc p') as (Ep' & Np' & Op'); [lia |].
      rewrite strict_eq_posNormal by assumption. rewrite Op, Op'.
      assert (0 < 2 ^ 1074) by (apply Z.pow_pos_nonneg; lia).
      destruct (Z.eqb_spec (Zpos p) (Zpos p')) as [E | E].
      * rewrite E. apply Z.eqb_refl.
      * apply Z.eqb_neq. nia.
    + replace p' with 1%positive by lia. rewrite Ep. reflexivity.
Qed.

End NumberFacts.

(** ** Strings of digits and white space *)

Section StringFacts.

Ltac ascii_cases c := destruct c as [[] [] [] [] [] [] [] []].

Lemma digit_head (c : ascii) :
  isDigit c = true ->
  isWhiteSpace c = false /\ Ascii.eqb c "+" = false /\ Ascii.eqb c "-" = false
  /\ Ascii.eqb c "." = false /\ Ascii.eqb c "I" = false
  /\ 0 <= digitValue c.
Proof.
  ascii_cases c; intro H; try discriminate H; clear H;
    repeat split; try reflexivity; discriminate.
Qed.

Lemma prefix_Infinity (c : ascii) (r : string) :
  Ascii.eqb c "I" = false -> String.prefix "Infinity" (String c r) = false.
Proof.
  intro H. cbn [String.prefix].
  destruct (ascii_dec "I" c) as [<- | _]; [discriminate H | reflexivity].
Qed.

Lemma spanDigits_allDigits (s : string) : allDigits (fst (spanDigits s)) = true.
Proof.
  induction s as [| c r IH]; cbn [spanDigits]; [reflexivity |].
  destruct (isDigit c) eqn:E; [| reflexivity].
  destruct (spanDigits r) as [d r']. cbn [fst allDigits] in *.
  rewrite E, IH. reflexivity.
Qed.

Lemma spanDigits_app (ds rest : string) :
  allDigits ds = true ->
  match rest with String c _ => isDigit c = false | EmptyString => True end ->
  spanDigits (ds ++ rest) = (ds, rest).
Proof.
  intros Hds Hrest. induction ds as [| c ds IH]; cbn [append].
  - destruct rest as [| c r]; cbn [spanDigits]; [reflexivity |].
    rewrite Hrest. reflexivity.
  - cbn [allDigits] in Hds. apply andb_true_iff in Hds. destruct Hds as [Hc Hds].
    cbn [spanDigits]. rewrite Hc, (IH Hds). reflexivity.
Qed.

Lemma digitsValueFrom_nonneg (s : string) :
  allDigits s = true -> forall acc, 0 <= acc -> 0 <= digitsValueFrom acc s.
Proof.
  induction s as [| c r IH]; cbn [allDigits digitsValueFrom]; intros H acc Hacc;
    [exact Hacc |].
  apply andb_true_iff in H. destruct H as [Hc Hr].
  apply IH; [exact Hr |]. apply digit_head in Hc. lia.
Qed.

Lemma allDigits_app (a b : string) :
  allDigits a = true -> allDigits b = true -> allDigits (a ++ b) = true.
Proof.
  intros Ha Hb. induction a as [| c a IH]; cbn [append allDigits] in *;
    [exact Hb |].
  apply andb_true_iff in Ha. destruct Ha as [Hc Ha].
  rewrite Hc, (IH Ha). reflexivity.
Qed.

Lemma append_empty_r (s : string) : (s ++ "")%string = s.
Proof. induction s as [| c s IH]; cbn [append]; congruence. Qed.

Lemma trimStart_head (s : string) :
  match trimStart s with
  | String c _ => isWhiteSpace c = false
  | EmptyString => True
  end.
Proof.
  induction s as [| c r IH]; cbn [trimStart]; [exact I |].
  destruct (isWhiteSpace c) eqn:E; [exact IH | exact E].
Qed.

Lemma trimStart_empty (s : string) :
  trimStart s = EmptyString ->
  Forall (fun c => isWhiteSpace c = true) (list_ascii_of_string s).
Proof.
  induction s as [| c r IH]; cbn [trimStart list_ascii_of_string]; intro H.
  - constructor.
  - destruct (isWhiteSpace c) eqn:E; [| discriminate H].
    constructor; [exact E | exact (IH H)].
Qed.

Lemma trim_blank (v : string) :
  trim v = EmptyString -> trimStart v = EmptyString.
Proof.
  unfold trim, trimEnd, reverse. intro H.
  pose proof (trimStart_head v) as Hh.
  destruct (trimStart v) as [| c t]; [reflexivity |]. exfalso.
  set (u := string_of_list_ascii (rev (list_ascii_of_string (String c t)))) in H.
  assert (Hu : trimStart u = EmptyString).
  { apply (f_equal list_ascii_of_string) in H.
    rewrite list_ascii_of_string_of_list_ascii in H.
    apply (f_equal (@rev ascii)) in H. rewrite rev_involutive in H.
    apply (f_equal string_of_list_ascii) in H.
    rewrite string_of_list_ascii_of_string in H. exact H. }
  apply trimStart_empty in Hu. unfold u in Hu.
  rewrite list_ascii_of_string_of_list_ascii in Hu.
  apply Forall_rev in Hu. rewrite rev_involutive in Hu.
  cbn [list_ascii_of_string] in Hu. inversion Hu; congruence.
Qed.

Lemma spanDigits_all (ds : string) :
  allDigits ds = true -> spanDigits ds = (ds, EmptyString).
Proof.
  intro H. rewrite <- (append_empty_r ds) at 1.
  apply spanDigits_app; [exact H | exact I].
Qed.

Lemma parseIntDigits_digits (ds : string) :
  allDigits ds = true -> ds <> EmptyString ->
  parseIntDigits ds = Some (false, digitsValue ds).
Proof.
  intros H Hne. destruct ds as [| c ds']; [contradiction Hne; reflexivity |].
  pose proof (spanDigits_all _ H) as S.
  cbn [allDigits] in H. apply andb_true_iff in H. destruct H as [Hc _].
  destruct (digit_head c Hc) as (Hw & Hplus & Hminus & _).
  unfold parseIntDigits. cbn [trimStart]. rewrite Hw.
  cbn [spanSign]. rewrite Hplus, Hminus, S. reflexivity.
Qed.

Lemma isDigit_value (d : ascii) : isDigit d = true -> 0 <= digitValue d <= 9.
Proof.
  unfold isDigit, digitValue. intro H.
  apply andb_true_iff in H. destruct H as [H1 H2].
  apply N.leb_le in H1, H2. lia.
Qed.

End StringFacts.

(** ** Period labels *)

Section LabelFacts.

Lemma range_quarter (c : ascii) :
  classMatches (Range "1" "4") c = true ->
  isDigit c = true /\ 1 <= digitValue c <= 4.
Proof.
  unfold classMatches, isDigit, digitValue.
  change (code "1") with 49%N. change (code "4") with 52%N.
  intro H. apply andb_true_iff in H. destruct H as [H1 H2].
  apply N.leb_le in H1, H2.
  split; [| lia].
  apply andb_true_iff. split; apply N.leb_le; lia.
Qed.

Lemma matchAnchored_cons (cls : charClass) (p : list charClass) (s : string) :
  matchAnchored (cls :: p) s = true ->
  exists c s', s = String c s' /\ classMatches cls c = true
               /\ matchAnchored p s' = true.
Proof.
  destruct s as [| c s']; cbn [matchAnchored]; [discriminate |].
  intro H. apply andb_true_iff in H. destruct H. eauto.
Qed.

Lemma matchAnchored_nil (s : string) :
  matchAnchored [] s = true -> s = EmptyString.
Proof. destruct s; [reflexivity | discriminate]. Qed.

Lemma matchAnchored_quarterPattern (s : string) :
  matchAnchored quarterPattern s = true ->
  exists c d1 d2 d3 d4,
    s = quarterLabel c d1 d2 d3 d4
    /\ isDigit c = true /\ 1 <= digitValue c <= 4
    /\ isDigit d1 = true /\ isDigit d2 = true
    /\ isDigit d3 = true /\ isDigit d4 = true.
Proof.
  unfold quarterPattern. intro H.
  apply matchAnchored_cons in H. destruct H as (cq & s1 & -> & Hq & H).
  apply matchAnchored_cons in H. destruct H as (c & s2 & -> & Hc & H).
  apply matchAnchored_cons in H. destruct H as (cm & s3 & -> & Hm & H).
  apply matchAnchored_cons in H. destruct H as (d1 & s4 & -> & H1 & H).
  apply matchAnchored_cons in H. destruct H as (d2 & s5 & -> & H2 & H).
  apply matchAnchored_cons in H. destruct H as (d3 & s6 & -> & H3 & H).
  apply matchAnchored_cons in H. destruct H as (d4 & s7 & -> & H4 & H).
  apply matchAnchored_nil in H. subst s7.
  cbn [classMatches] in Hq, Hm, H1, H2, H3, H4.
  apply Ascii.eqb_eq in Hq, Hm. subst cq cm.
  apply range_quarter in Hc. destruct Hc as [Hc Hr].
  exists c, d1, d2, d3, d4. auto 10.
Qed.

Lemma quarterLabel_matches (c d1 d2 d3 d4 : ascii) :
  isDigit c = true -> 1 <= digitValue c <= 4 ->
  isDigit d1 = true -> isDigit d2 = true ->
  isDigit d3 = true -> isDigit d4 = true ->
  matchAnchored quarterPattern (quarterLabel c d1 d2 d3 d4) = true.
Proof.
  intros Hc Hq H1 H2 H3 H4.
  unfold quarterPattern, quarterLabel. cbn [matchAnchored classMatches].
  rewrite H1, H2, H3, H4.
  change (code "1") with 49%N. change (code "4") with 52%N.
  unfold digitValue in Hq.
  replace (49 <=? code c)%N with true by (symmetry; apply N.leb_le; lia).
  replace (code c <=? 52)%N with true by (symmetry; apply N.leb_le; lia).
  reflexivity.
Qed.

Lemma matchAnchored_valid (s : string) :
  matchAnchored quarterPattern s = true <-> ValidQuarterLabel s.
Proof.
  split.
  - intro H. apply matchAnchored_quarterPattern in H.
    destruct H as (c & d1 & d2 & d3 & d4 & -> & Hc & Hq & H1 & H2 & H3 & H4).
    exists (digitValue c), (yearOf d1 d2 d3 d4), c, d1, d2, d3, d4.
    unfold yearOf. auto 12.
  - intros (q & y & c & d1 & d2 & d3 & d4 & -> & Hc & H1 & H2 & H3 & H4 & -> & Hq & _).
    apply quarterLabel_matches; assumption.
Qed.

Lemma split_quarterLabel (c d1 d2 d3 d4 : ascii) :
  isDigit c = true -> isDigit d1 = true -> isDigit d2 = true ->
  isDigit d3 = true -> isDigit d4 = true ->
  split "-" (quarterLabel c d1 d2 d3 d4)
  = [String "Q" (String c EmptyString);
     String d1 (String d2 (String d3 (String d4 EmptyString)))].
Proof.
  intros Hc H1 H2 H3 H4.
  destruct (digit_head c Hc) as (_ & _ & Ec & _).
  destruct (digit_head d1 H1) as (_ & _ & E1 & _).
  destruct (digit_head d2 H2) as (_ & _ & E2 & _).
  destruct (digit_head d3 H3) as (_ & _ & E3 & _).
  destruct (digit_head d4 H4) as (_ & _ & E4 & _).
  unfold quarterLabel. cbn [split].
  rewrite Ec, E1, E2, E3, E4. reflexivity.
Qed.

Lemma parseQuarter_label (c d1 d2 d3 d4 : ascii) :
  isDigit c = true -> 1 <= digitValue c <= 4 ->
  isDigit d1 = true -> isDigit d2 = true ->
  isDigit d3 = true -> isDigit d4 = true ->
  parseQuarter (quarterLabel c d1 d2 d3 d4)
  = Normal {| pk_year := of_Z (yearOf d1 d2 d3 d4);
              pk_quarterIndex := of_Z (digitValue c);
              pk_sortKey := add (of_Z (yearOf d1 d2 d3 d4))
                                (div (of_Z (digitValue c)) four) |}.
Proof.
  intros Hc Hq H1 H2 H3 H4.
  unfold parseQuarter.
  rewrite quarterLabel_matches by assumption.
  change (String.eqb (quarterLabel c d1 d2 d3 d4) "") with false.
  cbv beta iota zeta delta [orb negb parseInt10].
  rewrite split_quarterLabel by assumption.
  cbn [stringAt nth substring1].
  rewrite !parseIntDigits_digits;
    try discriminate;
    try (cbn [allDigits]; rewrite ?Hc, ?H1, ?H2, ?H3, ?H4; reflexivity).
  replace (digitsValue (String c EmptyString)) with (digitValue c)
    by (unfold digitsValue; cbn [digitsValueFrom]; lia).
  replace (digitsValue (String d1 (String d2 (String d3 (String d4 EmptyString)))))
    with (yearOf d1 d2 d3 d4)
    by (unfold digitsValue, yearOf; cbn [digitsValueFrom]; lia).
  reflexivity.
Qed.

Lemma parseQuarter_Throw (s m : string) :
  parseQuarter s = Throw m ->
  ~ ValidQuarterLabel s /\ m = invalidQuarterMessage s.
Proof.
  unfold parseQuarter.
  destruct (String.eqb s "") eqn:He; cbn [orb].
  - apply String.eqb_eq in He. subst s. intro H. split; [| congruence].
    intro V. apply matchAnchored_valid in V. discriminate V.
  - destruct (matchAnchored quarterPattern s) eqn:Hm; cbn [negb];
      [discriminate |].
    intro H. split; [| congruence].
    intro V. apply matchAnchored_valid in V. congruence.
Qed.

Lemma parseQuarter_Normal (s : string) (pk : PeriodKey) :
  parseQuarter s = Normal pk ->
  exists q y,
    QuarterLabel s q y /\ 0 <= y <= 9999
    /\ pk_year pk = of_Z y /\ pk_quarterIndex pk = of_Z q
    /\ pk_sortKey pk = add (of_Z y) (div (of_Z q) four)
    /\ posNormal (pk_sortKey pk) = true
    /\ exists v, toQ (pk_sortKey pk) = Some v
                 /\ (v == inject_Z y + inject_Z q / 4)%Q.
Proof.
  intro H.
  assert (Hm : matchAnchored quarterPattern s = true).
  { unfold parseQuarter in H.
    destruct (matchAnchored quarterPattern s); [reflexivity |].
    rewrite orb_true_r in H. discriminate H. }
  apply matchAnchored_quarterPattern in Hm.
  destruct Hm as (c & d1 & d2 & d3 & d4 & -> & Hc & Hq & H1 & H2 & H3 & H4).
  rewrite parseQuarter_label in H by assumption. injection H as <-.
  assert (Hy : 0 <= yearOf d1 d2 d3 d4 <= 9999).
  { apply isDigit_value in H1, H2, H3, H4. unfold yearOf. lia. }
  destruct (quarter_key_facts _ _ Hy Hq) as (Hn & v & Hv & Hveq).
  exists (digitValue c), (yearOf d1 d2 d3 d4).
  cbn [pk_year pk_quarterIndex pk_sortKey].
  split; [exists c, d1, d2, d3, d4; unfold yearOf; auto 12 |].
  eauto 10.
Qed.

Lemma parseQuarter_valid (s : string) :
  ValidQuarterLabel s -> exists pk, parseQuarter s = Normal pk.
Proof.
  intro V. apply matchAnchored_valid in V.
  unfold parseQuarter. rewrite V.
  destruct (String.eqb s "") eqn:He.
  - apply String.eqb_eq in He. subst s. discriminate V.
  - cbn [orb negb]. eauto.
Qed.

End LabelFacts.

(** ** [Array.prototype.sort] with a comparator that follows a rank *)

Section SortFacts.

Context {A : Type}.
Variable comparefn : A -> A -> number.
Variable rank : A -> Z.
Variable good : A -> Prop.

Hypothesis comparefn_rank :
  forall x y, good x -> good y ->
              lt zero (comparefn x y) = (rank y <? rank x).

Lemma insert_length (x : A) (l : list A) :
  List.length (insert comparefn x l) = S (List.length l).
Proof.
  induction l as [| y l IH]; cbn [insert]; [reflexivity |].
  destruct (lt zero (comparefn x y)); cbn [List.length]; congruence.
Qed.

Lemma sort_length (l : list A) :
  List.length (sort comparefn l) = List.length l.
Proof.
  induction l as [| x l IH]; [reflexivity |].
  cbn [sort fold_right]. fold (sort comparefn l).
  rewrite insert_length, IH. reflexivity.
Qed.

Lemma insert_In (x y : A) (l : list A) :
  In y (insert comparefn x l) <-> x = y \/ In y l.
Proof.
  induction l as [| z l IH]; cbn [insert].
  - reflexivity.
  - destruct (lt zero (comparefn x z)); cbn [In]; [rewrite IH |]; tauto.
Qed.

Lemma sort_In (y : A) (l : list A) : In y (sort comparefn l) <-> In y l.
Proof.
  induction l as [| x l IH]; [reflexivity |].
  cbn [sort fold_right]. fold (sort comparefn l).
  rewrite insert_In, IH. reflexivity.
Qed.

Lemma sort_Forall (P : A -> Prop) (l : list A) :
  Forall P l -> Forall P (sort comparefn l).
Proof.
  rewrite !Forall_forall. intros H y Hy. apply H, sort_In, Hy.
Qed.

Lemma insert_HdRel (x y : A) (l : list A) :
  rank y <= rank x ->
  HdRel (fun a b => rank a <= rank b) y l ->
  HdRel (fun a b => rank a <= rank b) y (insert comparefn x l).
Proof.
  intros Hyx Hl. destruct l as [| z l]; cbn [insert].
  - constructor. exact Hyx.
  - destruct (lt zero (comparefn x z)); constructor.
    + inversion Hl; assumption.
    + exact Hyx.
Qed.

Lemma insert_Sorted (x : A) (l : list A) :
  good x -> Forall good l ->
  Sorted (fun a b => rank a <= rank b) l ->
  Sorted (fun a b => rank a <= rank b) (insert comparefn x l).
Proof.
  intros Gx Gl Sl. induction l as [| y l IH]; cbn [insert].
  - repeat constructor.
  - inversion Gl as [| ? ? Gy Gl']; subst.
    inversion Sl as [| ? ? Sl' Hd]; subst.
    rewrite (comparefn_rank x y Gx Gy).
    destruct (Z.ltb_spec (rank y) (rank x)) as [Hlt | Hge].
    + constructor; [apply IH; assumption |].
      apply insert_HdRel; [lia | assumption].
    + constructor; [assumption |]. constructor. exact Hge.
Qed.

Lemma sort_Sorted (l : list A) :
  Forall good l -> Sorted (fun a b => rank a <= rank b) (sort comparefn l).
Proof.
  induction l as [| x l IH]; intro G.
  - constructor.
  - inversion G; subst. cbn [sort fold_right]. fold (sort comparefn l).
    apply insert_Sorted; auto using sort_Forall.
Qed.

(** Stability: a class of rows of one rank keeps its order. *)
Lemma insert_filter (p : A -> bool) (x : A) (l : list A) :
  (forall a b, good a -> good b -> p a = true -> p b = true ->
               rank a = rank b) ->
  good x -> Forall good l ->
  filter p (insert comparefn x l) = filter p (x :: l).
Proof.
  intros Hp Gx Gl. induction l as [| y l IH]; cbn [insert]; [reflexivity |].
  inversion Gl as [| ? ? Gy Gl']; subst.
  rewrite (comparefn_rank x y Gx Gy).
  destruct (Z.ltb_spec (rank y) (rank x)) as [Hlt | Hge]; [| reflexivity].
  cbn [filter] in *. rewrite (IH Gl').
  destruct (p x) eqn:Px, (p y) eqn:Py; try reflexivity.
  pose proof (Hp x y Gx Gy Px Py). lia.
Qed.

Lemma sort_filter (p : A -> bool) (l : list A) :
  (forall a b, good a -> good b -> p a = true -> p b = true ->
               rank a = rank b) ->
  Forall good l ->
  filter p (sort comparefn l) = filter p l.
Proof.
  intros Hp G. induction l as [| x l IH]; [reflexivity |].
  inversion G; subst. cbn [sort fold_right]. fold (sort comparefn l).
  rewrite insert_filter by auto using sort_Forall.
  cbn [filter]. rewrite IH by assumption. reflexivity.
Qed.

End SortFacts.

Lemma Sorted_adjacent {A : Type} (R : A -> A -> Prop) (l : list A) :
  Sorted R l ->
  forall i a b, nth_error l i = Some a -> nth_error l (S i) = Some b -> R a b.
Proof.
  induction 1 as [| x l Sl IH Hd]; intros i a b Ha Hb.
  - destruct i; discriminate.
  - destruct i as [| i].
    + cbn in Ha, Hb. injection Ha as <-.
      destruct l as [| y l]; [discriminate |].
      cbn in Hb. injection Hb as <-. inversion Hd; assumption.
    + cbn [nth_error] in Ha, Hb. eapply IH; eassumption.
Qed.

(** ** The two passes of [processFinancialData] *)

Section PipelineFacts.

Lemma mapFrom_nth {A B : Type} (f : A -> nat -> completion B) (l : list A) :
  forall i ys, mapFrom f i l = Normal ys ->
  forall j, match nth_error l j, nth_error ys j with
            | Some x, Some y => f x (i + j)%nat = Normal y
            | None, None => True
            | _, _ => False
            end.
Proof.
  induction l as [| x l IH]; intros i ys H j; cbn [mapFrom] in H.
  - injection H as <-. destruct j; exact I.
  - destruct (f x i) as [y | m] eqn:Hx; [| discriminate].
    destruct (mapFrom f (S i) l) as [ys' | m] eqn:Hl; [| discriminate].
    injection H as <-. destruct j as [| j]; cbn [nth_error].
    + rewrite Nat.add_0_r. exact Hx.
    + specialize (IH _ _ Hl j). rewrite Nat.add_succ_r. exact IH.
Qed.

Lemma mapFrom_length {A B : Type} (f : A -> nat -> completion B) (l : list A) :
  forall i ys, mapFrom f i l = Normal ys -> List.length ys = List.length l.
Proof.
  induction l as [| x l IH]; intros i ys H; cbn [mapFrom] in H.
  - injection H as <-. reflexivity.
  - destruct (f x i) as [y | m]; [| discriminate].
    destruct (mapFrom f (S i) l) as [ys' | m] eqn:Hl; [| discriminate].
    injection H as <-. cbn [List.length]. f_equal. eapply IH, Hl.
Qed.

Lemma mapFrom_Throw {A B : Type} (f : A -> nat -> completion B) (l : list A) :
  forall i m, mapFrom f i l = Throw m ->
  exists l1 x l2, l = l1 ++ x :: l2
                  /\ f x (i + List.length l1)%nat = Throw m
                  /\ exists ys, mapFrom f i l1 = Normal ys.
Proof.
  induction l as [| x l IH]; intros i m H; cbn [mapFrom] in H; [discriminate |].
  destruct (f x i) as [y | m'] eqn:Hx.
  - destruct (mapFrom f (S i) l) as [ys' | m''] eqn:Hl; [discriminate |].
    injection H as ->.
    destruct (IH _ _ Hl) as (l1 & x' & l2 & -> & Hx' & ys & Hys).
    exists (x :: l1), x', l2. split; [reflexivity |].
    cbn [List.length mapFrom]. rewrite Nat.add_succ_r, Hx, Hys. eauto.
  - injection H as ->. exists [], x, l. cbn [List.length mapFrom].
    rewrite Nat.add_0_r. eauto.
Qed.

Lemma mapiFrom_nth {A B : Type} (f : A -> nat -> B) (l : list A) :
  forall i j, nth_error (mapiFrom f i l) j
              = option_map (fun x => f x (i + j)%nat) (nth_error l j).
Proof.
  induction l as [| x l IH]; intros i j; cbn [mapiFrom].
  - destruct j; reflexivity.
  - destruct j as [| j]; cbn [nth_error option_map].
    + rewrite Nat.add_0_r. reflexivity.
    + rewrite IH, Nat.add_succ_r. reflexivity.
Qed.

Lemma mapiFrom_map {A B C : Type} (f : A -> nat -> B) (g : B -> C) (h : A -> C)
      (l : list A) :
  (forall x i, g (f x i) = h x) ->
  forall i, map g (mapiFrom f i l) = map h l.
Proof.
  intros Hg. induction l as [| x l IH]; intro i; cbn [mapiFrom map];
    [reflexivity |].
  rewrite Hg, IH. reflexivity.
Qed.

Lemma map_fixed {A : Type} (g : A -> A) (l : list A) :
  Forall (fun x => g x = x) l -> map g l = l.
Proof.
  induction 1 as [| x l Hx _ IH]; cbn [map]; congruence.
Qed.

Lemma find_map {A B : Type} (p : B -> bool) (g : A -> B) (l : list A) :
  find p (map g l) = option_map g (find (fun x => p (g x)) l).
Proof.
  induction l as [| x l IH]; cbn [map find]; [reflexivity |].
  destruct (p (g x)); [reflexivity | exact IH].
Qed.

Lemma find_first {A : Type} (p : A -> bool) (l1 l2 : list A) (x : A) :
  (forall d, In d l1 -> p d = false) -> p x = true ->
  find p (l1 ++ x :: l2) = Some x.
Proof.
  intros H1 Hx. induction l1 as [| a l1 IH]; cbn [app find].
  - rewrite Hx. reflexivity.
  - rewrite (H1 a) by (left; reflexivity). apply IH.
    intros d Hd. apply H1. right. exact Hd.
Qed.

Lemma normalizeRow_Normal (row : RawDataRow) (index : nat) (r : ProcessedDataRow) :
  normalizeRow row index = Normal r ->
  exists pk, parseQuarter (raw_Quarter row) = Normal pk
             /\ r = rowMetrics row index pk.
Proof.
  unfold normalizeRow.
  destruct (parseQuarter (raw_Quarter row)) as [pk | m]; [| discriminate].
  intro H. injection H as <-. eauto.
Qed.

Lemma normalizeRow_Throw (row : RawDataRow) (index : nat) (m : string) :
  normalizeRow row index = Throw m ->
  ~ ValidQuarterLabel (raw_Quarter row)
  /\ m = invalidQuarterMessage (raw_Quarter row).
Proof.
  unfold normalizeRow.
  destruct (parseQuarter (raw_Quarter row)) as [pk | m'] eqn:Hp; [discriminate |].
  intro H. injection H as ->. apply parseQuarter_Throw. exact Hp.
Qed.

Lemma normalizeRow_valid (row : RawDataRow) (index : nat) :
  ValidQuarterLabel (raw_Quarter row) ->
  exists r, normalizeRow row index = Normal r.
Proof.
  intro V. destruct (parseQuarter_valid _ V) as (pk & Hpk).
  unfold normalizeRow. rewrite Hpk. eauto.
Qed.

Lemma mapFrom_normalizeRow_valid (l : list RawDataRow) :
  Forall (fun row => ValidQuarterLabel (raw_Quarter row)) l ->
  forall i, exists rows, mapFrom normalizeRow i l = Normal rows.
Proof.
  induction 1 as [| row l V _ IH]; intro i; cbn [mapFrom].
  - eauto.
  - destruct (normalizeRow_valid row i V) as (r & ->).
    destruct (IH (S i)) as (rows & ->). eauto.
Qed.

Lemma mapFrom_normalizeRow_all_valid (l : list RawDataRow) :
  forall i rows, mapFrom normalizeRow i l = Normal rows ->
  Forall (fun row => ValidQuarterLabel (raw_Quarter row)) l.
Proof.
  induction l as [| row l IH]; intros i rows H; cbn [mapFrom] in H.
  - constructor.
  - destruct (normalizeRow row i) as [r | m] eqn:Hr; [| discriminate].
    destruct (mapFrom normalizeRow (S i) l) as [rows' | m] eqn:Hl; [| discriminate].
    constructor; [| eapply IH, Hl].
    apply normalizeRow_Normal in Hr. destruct Hr as (pk & Hpk & _).
    apply parseQuarter_Normal in Hpk. destruct Hpk as (q & y & HL & _).
    exists q, y. exact HL.
Qed.

Lemma rowMetrics_firstPassRow (row : RawDataRow) (index : nat) (pk : PeriodKey) :
  parseQuarter (raw_Quarter row) = Normal pk ->
  firstPassRow (rowMetrics row index pk).
Proof.
  intro Hpk. split; [| reflexivity].
  apply parseQuarter_Normal in Hpk.
  destruct Hpk as (q & y & _ & _ & _ & _ & _ & Hn & _). exact Hn.
Qed.

Lemma mapFrom_normalizeRow_firstPass (l : list RawDataRow) :
  forall i rows, mapFrom normalizeRow i l = Normal rows ->
                 Forall firstPassRow rows.
Proof.
  induction l as [| row l IH]; intros i rows H; cbn [mapFrom] in H.
  - injection H as <-. constructor.
  - destruct (normalizeRow row i) as [r | m] eqn:Hr; [| discriminate].
    destruct (mapFrom normalizeRow (S i) l) as [rows' | m] eqn:Hl; [| discriminate].
    injection H as <-. constructor; [| eapply IH, Hl].
    apply normalizeRow_Normal in Hr. destruct Hr as (pk & Hpk & ->).
    apply rowMetrics_firstPassRow. exact Hpk.
Qed.

Lemma bySortKey_rank (x y : ProcessedDataRow) :
  firstPassRow x -> firstPassRow y ->
  lt zero (bySortKey x y) = (ord (sortKey y) <? ord (sortKey x)).
Proof.
  intros [Hx _] [Hy _]. apply sub_posNormal; assumption.
Qed.

Lemma metricsOf_enrichRow (arr : list ProcessedDataRow) (r : ProcessedDataRow)
      (i : nat) :
  metricsOf (enrichRow arr r i) = metricsOf r.
Proof. reflexivity. Qed.

Lemma process_Normal (rawData : list RawDataRow) (out : list ProcessedDataRow) :
  processFinancialData rawData = Normal out ->
  exists rows,
    mapThrowing normalizeRow rawData = Normal rows
    /\ Forall firstPassRow rows
    /\ out = mapi (enrichRow (sort bySortKey rows)) (sort bySortKey rows)
    /\ map metricsOf out = sort bySortKey rows.
Proof.
  unfold processFinancialData.
  destruct (mapThrowing normalizeRow rawData) as [rows | m] eqn:Hrows;
    [| discriminate].
  intro H. injection H as <-.
  assert (F : Forall firstPassRow rows)
    by (eapply mapFrom_normalizeRow_firstPass, Hrows).
  exists rows. repeat split; try assumption.
  unfold mapi.
  rewrite (mapiFrom_map _ metricsOf metricsOf)
    by (intros; apply metricsOf_enrichRow).
  apply map_fixed. apply sort_Forall.
  eapply Forall_impl; [| exact F]. intros r [_ Hr]. exact Hr.
Qed.

Lemma process_valid (rawData : list RawDataRow) :
  Forall (fun row => ValidQuarterLabel (raw_Quarter row)) rawData ->
  exists out, processFinancialData rawData = Normal out.
Proof.
  intro V. unfold processFinancialData, mapThrowing.
  destruct (mapFrom_normalizeRow_valid rawData V 0%nat) as (rows & ->). eauto.
Qed.

Lemma out_source (rawData : list RawDataRow) (out : list ProcessedDataRow)
      (r : ProcessedDataRow) :
  processFinancialData rawData = Normal out -> In r out ->
  exists index row pk,
    nth_error rawData index = Some row
    /\ parseQuarter (raw_Quarter row) = Normal pk
    /\ metricsOf r = rowMetrics row index pk.
Proof.
  intros H Hr.
  destruct (process_Normal _ _ H) as (rows & Hrows & _ & _ & Hm).
  assert (Hin : In (metricsOf r) rows).
  { apply (sort_In bySortKey). rewrite <- Hm. apply in_map. exact Hr. }
  apply In_nth_error in Hin. destruct Hin as (j & Hj).
  pose proof (mapFrom_nth _ _ _ _ Hrows j) as Hn. rewrite Hj in Hn.
  destruct (nth_error rawData j) as [row |] eqn:Hrow; [| contradiction].
  cbn [Nat.add] in Hn.
  apply normalizeRow_Normal in Hn. destruct Hn as (pk & Hpk & Heq).
  exists j, row, pk. auto.
Qed.

Lemma source_out (rawData : list RawDataRow) (out : list ProcessedDataRow)
      (index : nat) (row : RawDataRow) :
  processFinancialData rawData = Normal out ->
  nth_error rawData index = Some row ->
  exists r pk,
    In r out
    /\ parseQuarter (raw_Quarter row) = Normal pk
    /\ metricsOf r = rowMetrics row index pk.
Proof.
  intros H Hrow.
  destruct (process_Normal _ _ H) as (rows & Hrows & _ & _ & Hm).
  pose proof (mapFrom_nth _ _ _ _ Hrows index) as Hn. rewrite Hrow in Hn.
  destruct (nth_error rows index) as [y |] eqn:Hy; [| contradiction].
  cbn [Nat.add] in Hn.
  apply normalizeRow_Normal in Hn. destruct Hn as (pk & Hpk & Heq).
  assert (Hin : In y (map metricsOf out)).
  { rewrite Hm. apply sort_In. eapply nth_error_In, Hy. }
  apply in_map_iff in Hin. destruct Hin as (r & Hr & Hin).
  exists r, pk. subst y. auto.
Qed.

Lemma out_enriched (rawData : list RawDataRow) (out : list ProcessedDataRow)
      (i : nat) (r : ProcessedDataRow) :
  processFinancialData rawData = Normal out ->
  nth_error out i = Some r ->
  r = enrichRow (map metricsOf out) (metricsOf r) i.
Proof.
  intros H Hr.
  destruct (process_Normal _ _ H) as (rows & _ & F & Hout & Hm).
  rewrite Hm. rewrite Hout in Hr. unfold mapi in Hr.
  rewrite mapiFrom_nth in Hr. cbn [Nat.add] in Hr.
  destruct (nth_error (sort bySortKey rows) i) as [r' |] eqn:Hr';
    [| discriminate].
  cbn [option_map] in Hr. injection Hr as <-.
  rewrite metricsOf_enrichRow.
  assert (Hfix : metricsOf r' = r').
  { apply nth_error_In in Hr'. apply sort_In in Hr'.
    rewrite Forall_forall in F. apply F. exact Hr'. }
  rewrite Hfix. reflexivity.
Qed.

Lemma previousRow_map (f : ProcessedDataRow -> ProcessedDataRow)
      (l : list ProcessedDataRow) (i : nat) :
  previousRow (map f l) i = option_map f (previousRow l i).
Proof.
  destruct i as [| i]; cbn [previousRow]; [reflexivity |].
  apply nth_error_map.
Qed.

Lemma out_qoq (rawData : list RawDataRow) (out : list ProcessedDataRow)
      (i : nat) (r : ProcessedDataRow) :
  processFinancialData rawData = Normal out ->
  nth_error out i = Some r ->
  qoqRevenueGrowth r
  = match previousRow out i with
    | Some p => growth (Revenue r) (Revenue p)
    | None => None
    end
  /\ qoqNetIncomeGrowth r
     = match previousRow out i with
       | Some p => growth (Net_Income r) (Net_Income p)
       | None => None
       end.
Proof.
  intros H Hr. pose proof (out_enriched _ _ _ _ H Hr) as E.
  split.
  - rewrite E at 1. cbn [enrichRow withGrowth qoqRevenueGrowth].
    rewrite previousRow_map. destruct (previousRow out i); reflexivity.
  - rewrite E at 1. cbn [enrichRow withGrowth qoqNetIncomeGrowth].
    rewrite previousRow_map. destruct (previousRow out i); reflexivity.
Qed.

Lemma out_yoy (rawData : list RawDataRow) (out : list ProcessedDataRow)
      (i : nat) (r : ProcessedDataRow) :
  processFinancialData rawData = Normal out ->
  nth_error out i = Some r ->
  yoyRevenueGrowth r
  = match find (isPrevYearQuarter r) out with
    | Some p => growth (Revenue r) (Revenue p)
    | None => None
    end
  /\ yoyNetIncomeGrowth r
     = match find (isPrevYearQuarter r) out with
       | Some p => growth (Net_Income r) (Net_Income p)
       | None => None
       end.
Proof.
  intros H Hr. pose proof (out_enriched _ _ _ _ H Hr) as E.
  assert (Hf : find (isPrevYearQuarter (metricsOf r)) (map metricsOf out)
               = option_map metricsOf (find (isPrevYearQuarter r) out))
    by (rewrite find_map; reflexivity).
  split.
  - rewrite E at 1. cbn [enrichRow withGrowth yoyRevenueGrowth].
    rewrite Hf. destruct (find (isPrevYearQuarter r) out); reflexivity.
  - rewrite E at 1. cbn [enrichRow withGrowth yoyNetIncomeGrowth].
    rewrite Hf. destruct (find (isPrevYearQuarter r) out); reflexivity.
Qed.

Lemma QuarterLabel_unique (s : string) (q y q' y' : Z) :
  QuarterLabel s q y -> QuarterLabel s q' y' -> q = q' /\ y = y'.
Proof.
  intros (c & d1 & d2 & d3 & d4 & -> & _ & _ & _ & _ & _ & -> & _ & ->)
         (c' & e1 & e2 & e3 & e4 & E & _ & _ & _ & _ & _ & -> & _ & ->).
  unfold quarterLabel in E. injection E as -> -> -> -> ->. auto.
Qed.

Lemma out_period (rawData : list RawDataRow) (out : list ProcessedDataRow)
      (r : ProcessedDataRow) (q y : Z) :
  processFinancialData rawData = Normal out -> In r out ->
  QuarterLabel (Quarter r) q y ->
  Year r = of_Z y /\ quarterIndex r = of_Z q
  /\ 0 <= y <= 9999 /\ 1 <= q <= 4.
Proof.
  intros H Hin HL.
  destruct (out_source _ _ _ H Hin) as (index & row & pk & _ & Hpk & Hm).
  apply parseQuarter_Normal in Hpk.
  destruct Hpk as (q0 & y0 & HL0 & Hy & Ey & Eq & _).
  assert (EQ : Quarter r = raw_Quarter row).
  { change (Quarter r) with (Quarter (metricsOf r)). rewrite Hm. reflexivity. }
  rewrite EQ in HL.
  destruct (QuarterLabel_unique _ _ _ _ _ HL HL0) as [-> ->].
  assert (Hq : 1 <= q0 <= 4).
  { destruct HL0 as (c & d1 & d2 & d3 & d4 & _ & _ & _ & _ & _ & _ & _ & Hq & _).
    exact Hq. }
  change (Year r) with (Year (metricsOf r)).
  change (quarterIndex r) with (quarterIndex (metricsOf r)).
  rewrite Hm. cbn [rowMetrics Year quarterIndex]. auto.
Qed.

End PipelineFacts.

(** * The claims *)

(** ** C1: malformed period labels *)

(** C1. [processFinancialData] fails if and only if some input row's
    quarter label is not of the form [Q<1-4>-<4-digit year>].  The failure
    is an exception, which carries no rows, raised for the first such row;
    its message includes that row's raw label.  When the batch parses,
    every input row has its output row, and every output row has the year
    of the four digits, the quarter index of the digit after [Q], and the
    sort key [year + quarterIndex / 4], which is exact.  ["Q1-2023"] gives
    2023, 1 and 2023.25; ["2023-Q1"] fails. *)
Theorem processFinancialData_quarter_labels :
  (forall rawData,
      (exists m, processFinancialData rawData = Throw m)
      <-> (exists row, In row rawData
                       /\ ~ ValidQuarterLabel (raw_Quarter row)))
  /\ (forall rawData m,
         processFinancialData rawData = Throw m ->
         exists l1 row l2,
           rawData = l1 ++ row :: l2
           /\ Forall (fun row' => ValidQuarterLabel (raw_Quarter row')) l1
           /\ ~ ValidQuarterLabel (raw_Quarter row)
           /\ m = invalidQuarterMessage (raw_Quarter row)
           /\ Includes m (raw_Quarter row))
  /\ (forall rawData out,
         processFinancialData rawData = Normal out ->
         (forall index row,
             nth_error rawData index = Some row ->
             exists r, In r out /\ Quarter r = raw_Quarter row)
         /\ (forall r,
                In r out ->
                exists q y,
                  QuarterLabel (Quarter r) q y
                  /\ Year r = of_Z y
                  /\ quarterIndex r = of_Z q
                  /\ sortKey r = add (Year r) (div (quarterIndex r) four)
                  /\ exists v, toQ (sortKey r) = Some v
                               /\ (v == inject_Z y + inject_Z q / 4)%Q))
  /\ parseQuarter "Q1-2023"
     = Normal {| pk_year := of_Z 2023;
                 pk_quarterIndex := of_Z 1;
                 pk_sortKey := parseFloat "2023.25" |}
  /\ (exists v, toQ (parseFloat "2023.25") = Some v /\ (v == 2023.25)%Q)
  /\ parseQuarter "2023-Q1" = Throw (invalidQuarterMessage "2023-Q1")
  /\ processFinancialData wrongOrder = Throw (invalidQuarterMessage "2023-Q1").
Proof.
  assert (Hthrow : forall rawData m,
             processFinancialData rawData = Throw m ->
             exists l1 row l2,
               rawData = l1 ++ row :: l2
               /\ Forall (fun row' => ValidQuarterLabel (raw_Quarter row')) l1
               /\ ~ ValidQuarterLabel (raw_Quarter row)
               /\ m = invalidQuarterMessage (raw_Quarter row)
               /\ Includes m (raw_Quarter row)).
  { intros rawData m H. unfold processFinancialData in H.
    destruct (mapThrowing normalizeRow rawData) as [rows | m'] eqn:Hm;
      [discriminate |].
    injection H as ->.
    apply mapFrom_Throw in Hm.
    destruct Hm as (l1 & row & l2 & -> & Hrow & ys & Hys).
    apply normalizeRow_Throw in Hrow. destruct Hrow as [Hinv ->].
    exists l1, row, l2. repeat split; try assumption.
    - eapply mapFrom_normalizeRow_all_valid, Hys.
    - exists ("Invalid Quarter format: " ++ dquote)%string,
        (dquote ++ ". Expected format is " ++ dquote ++ "Q1-2023"
                ++ dquote ++ ".")%string.
      reflexivity. }
  split; [| split; [exact Hthrow | split; [| split; [| split; [| split]]]]].
  - intro rawData. split.
    + intros (m & H). destruct (Hthrow _ _ H) as (l1 & row & l2 & -> & _ & Hinv & _).
      exists row. split; [| exact Hinv]. apply in_or_app. right. left. reflexivity.
    + intros (row & Hin & Hinv).
      destruct (processFinancialData rawData) as [out | m] eqn:H; [| eauto].
      exfalso. apply Hinv.
      destruct (process_Normal _ _ H) as (rows & Hrows & _).
      pose proof (mapFrom_normalizeRow_all_valid _ _ _ Hrows) as V.
      rewrite Forall_forall in V. apply V. exact Hin.
  - intros rawData out H. split.
    + intros index row Hrow.
      destruct (source_out _ _ _ _ H Hrow) as (r & pk & Hin & _ & Hm).
      exists r. split; [exact Hin |].
      change (Quarter r) with (Quarter (metricsOf r)). rewrite Hm. reflexivity.
    + intros r Hin.
      destruct (out_source _ _ _ H Hin) as (index & row & pk & _ & Hpk & Hm).
      apply parseQuarter_Normal in Hpk.
      destruct Hpk as (q & y & HL & _ & Hy & Hq & Hk & _ & v & Hv & Hveq).
      exists q, y.
      change (Quarter r) with (Quarter (metricsOf r)).
      change (Year r) with (Year (metricsOf r)).
      change (quarterIndex r) with (quarterIndex (metricsOf r)).
      change (sortKey r) with (sortKey (metricsOf r)).
      rewrite Hm. cbn [rowMetrics Quarter Year quarterIndex sortKey].
      rewrite Hy, Hq. eauto 8.
  - vm_compute. reflexivity.
  - eexists. split; [vm_compute; reflexivity |]. vm_compute. reflexivity.
  - vm_compute. reflexivity.
  - vm_compute. reflexivity.
Qed.

Lemma processFinancialData_quarter_labels_witness :
  exists l1 row l2,
    wrongOrder = l1 ++ row :: l2
    /\ Forall (fun row' => ValidQuarterLabel (raw_Quarter row')) l1
    /\ ~ ValidQuarterLabel (raw_Quarter row)
    /\ invalidQuarterMessage "2023-Q1" = invalidQuarterMessage (raw_Quarter row)
    /\ Includes (invalidQuarterMessage "2023-Q1") (raw_Quarter row).
Proof.
  apply (proj1 (proj2 processFinancialData_quarter_labels)
               wrongOrder (invalidQuarterMessage "2023-Q1")).
  vm_compute. reflexivity.
Defined.

(** ** Rows of the output *)

Section RowFacts.

Lemma growth_rule (current previous : number) :
  GrowthRule current previous (growth current previous).
Proof.
  unfold GrowthRule, growth, strict_neq, strict_eq.
  destruct (SFeqb previous zero); cbn [negb]; split; intro; congruence.
Qed.

Lemma variance_rule (actual : number) (plan : option number) :
  VarianceRule actual plan (varAbs actual plan) (varPerc (varAbs actual plan) plan).
Proof.
  unfold VarianceRule, varAbs, varPerc, strict_neq, strict_eq, nonNull.
  destruct plan as [p |]; [| split; reflexivity].
  destruct (SFeqb p zero); cbn [negb]; repeat split; intro; congruence.
Qed.

Lemma isPrevYearQuarter_Peer (r d : ProcessedDataRow) :
  isPrevYearQuarter r d = true <-> Peer r d.
Proof.
  unfold isPrevYearQuarter, Peer.
  rewrite !andb_true_iff, !String.eqb_eq. tauto.
Qed.

Lemma safeParseFloat_parsedField (val : option string) (d : option number) :
  safeParseFloat val d
  = match parsedField val with Some n => Some n | None => d end.
Proof.
  unfold safeParseFloat, parsedField, defaulted.
  destruct val as [v |]; [| reflexivity].
  destruct (String.eqb (trim v) ""); cbn [orb]; [reflexivity |].
  destruct (isNaN (parseFloat v)); reflexivity.
Qed.

Lemma parsedField_defaulted (val : option string) :
  defaulted val = true -> parsedField val = None.
Proof.
  intro H. unfold parsedField. destruct val; [rewrite H |]; reflexivity.
Qed.

Lemma parsedField_supplied (v : string) :
  defaulted (Some v) = false -> parsedField (Some v) = Some (parseFloat v).
Proof. intro H. unfold parsedField. rewrite H. reflexivity. Qed.

Lemma margin_rule (x revenue : number) :
  (strict_eq revenue zero = true -> margin x revenue = zero)
  /\ (strict_eq revenue zero = false ->
      margin x revenue = mul (div x revenue) hundred).
Proof.
  unfold margin, strict_neq, strict_eq.
  destruct (SFeqb revenue zero); cbn [negb]; split; intro; congruence.
Qed.

End RowFacts.

(** Rewrites the fields of the output row [r] into those of the object
    the first pass built, given [Hm : metricsOf r = rowMetrics _ _ _]. *)
Ltac fields_of r Hm :=
  repeat match goal with
         | |- context [?f r] =>
             lazymatch f with
             | metricsOf => fail
             | _ => change (f r) with (f (metricsOf r))
             end
         end;
  rewrite Hm.

(** ** C2: quarter-over-quarter growth *)

(** C2. For the row at position [i] of the output, quarter-over-quarter
    revenue growth is null when [i = 0]; otherwise it is taken against
    the row at position [i - 1] of the whole output, whatever its region
    and product: null when that row's revenue is zero, and
    [(current - previous) / previous * 100] when it is not.  Net income
    growth follows the same rule on net income.  For revenues 100, 110
    and 90 in three successive quarters the growths are null, 10 and a
    Number within 0.005 of -18.18; a West row that sorts after an East
    row is compared with it. *)
Theorem qoq_growth_against_previous_row :
  (forall rawData out,
      processFinancialData rawData = Normal out ->
      forall i r,
        nth_error out i = Some r ->
        (i = 0%nat ->
         qoqRevenueGrowth r = None /\ qoqNetIncomeGrowth r = None)
        /\ (forall j p,
               i = S j -> nth_error out j = Some p ->
               GrowthRule (Revenue r) (Revenue p) (qoqRevenueGrowth r)
               /\ GrowthRule (Net_Income r) (Net_Income p)
                             (qoqNetIncomeGrowth r)))
  /\ (exists r1 r2 r3 g v,
         processFinancialData threeQuarters = Normal [r1; r2; r3]
         /\ qoqRevenueGrowth r1 = None
         /\ qoqRevenueGrowth r2 = Some (of_Z 10)
         /\ qoqRevenueGrowth r3 = Some g
         /\ toQ g = Some v
         /\ (-18.185 < v)%Q /\ (v < -18.175)%Q)
  /\ (exists r1 r2 r3,
         processFinancialData twoYears = Normal [r1; r2; r3]
         /\ Region r2 = "East"%string /\ Region r3 = "West"%string
         /\ Revenue r2 = of_Z 120 /\ Revenue r3 = of_Z 90
         /\ qoqRevenueGrowth r3 = Some (of_Z (-25))).
Proof.
  split; [| split].
  - intros rawData out H i r Hr.
    destruct (out_qoq _ _ _ _ H Hr) as [Hrev Hnet]. split.
    + intros ->. cbn [previousRow] in Hrev, Hnet. auto.
    + intros j p -> Hp. cbn [previousRow] in Hrev, Hnet.
      rewrite Hp in Hrev, Hnet. rewrite Hrev, Hnet.
      split; apply growth_rule.
  - do 5 eexists. split; [vm_compute; reflexivity |].
    repeat (split; [vm_compute; reflexivity |]).
    split; vm_compute; reflexivity.
  - do 3 eexists. split; [vm_compute; reflexivity |].
    repeat (split; [vm_compute; reflexivity |]). vm_compute; reflexivity.
Qed.

Lemma qoq_growth_against_previous_row_witness :
  exists r,
    nth_error (rowsOf threeQuarters) 0 = Some r
    /\ qoqRevenueGrowth r = None /\ qoqNetIncomeGrowth r = None.
Proof.
  eexists. split; [vm_compute; reflexivity |].
  apply (proj1 (proj1 qoq_growth_against_previous_row
                      threeQuarters (rowsOf threeQuarters)
                      ltac:(vm_compute; reflexivity)
                      0%nat _ ltac:(vm_compute; reflexivity))).
  reflexivity.
Defined.

(** ** C3: year-over-year growth *)

(** C3. Year-over-year growth of an output row is taken against the
    first row of the output, in sequence order, whose year is the row's
    year minus 1 and whose quarter index, region and product are the
    row's: null when that peer's revenue (net income) is zero,
    [(current - peer) / peer * 100] when it is not, and null when the
    output has no such row.  On the Numbers of two output rows the
    year test holds exactly when the peer's label names the year before,
    and the quarter test when the labels name the same quarter.
    East/Soap with revenue 100 in Q1-2023 and 120 in Q1-2024 gives the
    2024 row a growth of 20; the West row of Q1-2024, without a West
    peer in 2023, gets null. *)
Theorem yoy_growth_against_first_peer :
  (forall rawData out,
      processFinancialData rawData = Normal out ->
      forall i r,
        nth_error out i = Some r ->
        (forall l1 p l2,
            out = l1 ++ p :: l2 ->
            (forall d, In d l1 -> ~ Peer r d) ->
            Peer r p ->
            GrowthRule (Revenue r) (Revenue p) (yoyRevenueGrowth r)
            /\ GrowthRule (Net_Income r) (Net_Income p) (yoyNetIncomeGrowth r))
        /\ ((forall d, In d out -> ~ Peer r d) ->
            yoyRevenueGrowth r = None /\ yoyNetIncomeGrowth r = None))
  /\ (forall rawData out,
         processFinancialData rawData = Normal out ->
         forall r d q y q' y',
           In r out -> In d out ->
           QuarterLabel (Quarter r) q y -> QuarterLabel (Quarter d) q' y' ->
           (Peer r d
            <-> y' = y - 1 /\ q' = q
                /\ Region d = Region r /\ Product d = Product r))
  /\ (exists r1 r2 r3,
         processFinancialData twoYears = Normal [r1; r2; r3]
         /\ Quarter r1 = "Q1-2023"%string /\ Region r1 = "East"%string
         /\ Revenue r1 = of_Z 100
         /\ Quarter r2 = "Q1-2024"%string /\ Region r2 = "East"%string
         /\ Revenue r2 = of_Z 120
         /\ yoyRevenueGrowth r2 = Some (of_Z 20)
         /\ Quarter r3 = "Q1-2024"%string /\ Region r3 = "West"%string
         /\ yoyRevenueGrowth r3 = None /\ yoyNetIncomeGrowth r3 = None).
Proof.
  split; [| split].
  - intros rawData out H i r Hr.
    destruct (out_yoy _ _ _ _ H Hr) as [Hrev Hnet]. split.
    + intros l1 p l2 -> Hl1 Hp.
      rewrite (find_first (isPrevYearQuarter r) l1 l2 p) in Hrev, Hnet.
      * rewrite Hrev, Hnet. split; apply growth_rule.
      * intros d Hd. destruct (isPrevYearQuarter r d) eqn:E; [| reflexivity].
        exfalso. apply (Hl1 d Hd). apply isPrevYearQuarter_Peer. exact E.
      * apply isPrevYearQuarter_Peer. exact Hp.
      * intros d Hd. destruct (isPrevYearQuarter r d) eqn:E; [| reflexivity].
        exfalso. apply (Hl1 d Hd). apply isPrevYearQuarter_Peer. exact E.
      * apply isPrevYearQuarter_Peer. exact Hp.
    + intro Hnone.
      destruct (find (isPrevYearQuarter r) out) as [p |] eqn:F; [| auto].
      apply find_some in F. destruct F as [Hin Hp].
      exfalso. apply (Hnone p Hin). apply isPrevYearQuarter_Peer. exact Hp.
  - intros rawData out H r d q y q' y' Hr Hd HLr HLd.
    destruct (out_period _ _ _ _ _ H Hr HLr) as (Yr & Qr & By & Bq).
    destruct (out_period _ _ _ _ _ H Hd HLd) as (Yd & Qd & By' & Bq').
    unfold Peer. rewrite Yr, Qr, Yd, Qd.
    rewrite sub_one by assumption.
    rewrite !of_Z_strict_eq by lia.
    rewrite !Z.eqb_eq. tauto.
  - do 3 eexists. split; [vm_compute; reflexivity |].
    repeat (split; [vm_compute; reflexivity |]). vm_compute; reflexivity.
Qed.

Lemma yoy_growth_against_first_peer_witness :
  exists r,
    nth_error (rowsOf twoYears) 2 = Some r
    /\ yoyRevenueGrowth r = None /\ yoyNetIncomeGrowth r = None.
Proof.
  eexists. split; [vm_compute; reflexivity |].
  apply (proj2 (proj1 yoy_growth_against_first_peer
                      twoYears (rowsOf twoYears)
                      ltac:(vm_compute; reflexivity)
                      2%nat _ ltac:(vm_compute; reflexivity))).
  intros d Hd [Hy [_ [Hreg _]]].
  vm_compute in Hd.
  destruct Hd as [<- | [<- | [<- | []]]]; vm_compute in Hy, Hreg; discriminate.
Defined.

(** ** C4: plan variance *)

(** C4. For every output row and each of revenue, cost of goods,
    operating expense, EBITDA and net income: without a plan value both
    variances are null; with one the absolute variance is actual minus
    plan, and the percentage variance is that over the plan times 100,
    or null when the plan is exactly zero.  The plan value of EBITDA is
    the plan-side EBITDA, that of net income the resolved plan net
    income. *)
Theorem variance_follows_plan :
  (forall rawData out,
      processFinancialData rawData = Normal out ->
      forall r,
        In r out ->
        VarianceRule (Revenue r) (plan_Revenue r) (revVarAbs r) (revVarPerc r)
        /\ VarianceRule (COGS r) (plan_COGS r) (cogsVarAbs r) (cogsVarPerc r)
        /\ VarianceRule (OPEX r) (plan_OPEX r) (opexVarAbs r) (opexVarPerc r)
        /\ VarianceRule (EBITDA r) (ebitdaPlan r)
                        (ebitdaVarAbs r) (ebitdaVarPerc r)
        /\ VarianceRule (Net_Income r) (plan_NetIncome r)
                        (netIncomeVarAbs r) (netIncomeVarPerc r))
  /\ (exists r,
         processFinancialData zeroPlan = Normal [r]
         /\ plan_Revenue r = Some zero
         /\ revVarAbs r = Some (of_Z 100) /\ revVarPerc r = None
         /\ plan_COGS r = None
         /\ cogsVarAbs r = None /\ cogsVarPerc r = None)
  /\ (exists r,
         processFinancialData fullPlan = Normal [r]
         /\ plan_Revenue r = Some (of_Z 80)
         /\ revVarAbs r = Some (of_Z 20) /\ revVarPerc r = Some (of_Z 25)).
Proof.
  split; [| split].
  - intros rawData out H r Hin.
    destruct (out_source _ _ _ H Hin) as (index & row & pk & _ & _ & Hm).
    fields_of r Hm. cbn -[VarianceRule varAbs varPerc].
    repeat split; apply variance_rule.
  - eexists. split; [vm_compute; reflexivity |].
    repeat (split; [vm_compute; reflexivity |]). vm_compute; reflexivity.
  - eexists. split; [vm_compute; reflexivity |].
    repeat (split; [vm_compute; reflexivity |]). vm_compute; reflexivity.
Qed.

Lemma variance_follows_plan_witness :
  exists r,
    In r (rowsOf zeroPlan)
    /\ VarianceRule (Revenue r) (plan_Revenue r) (revVarAbs r) (revVarPerc r).
Proof.
  eexists. split; [vm_compute; left; reflexivity |].
  apply (proj1 variance_follows_plan zeroPlan (rowsOf zeroPlan)
               ltac:(vm_compute; reflexivity) _
               ltac:(vm_compute; left; reflexivity)).
Defined.

(** ** C5: net income *)

(** C5. Every input row has its output row, and every output row its
    input row, such that: revenue, cost of goods and operating expense
    are the coerced raw fields (default 0); when the raw net income is
    absent, blank or unparseable the output net income is
    [revenue - cost of goods - operating expense]; otherwise it is the
    parsed raw value.  Revenue 100, cost of goods 40, operating expense
    20 and no net income column give net income 40 and net margin 40. *)
Theorem net_income_resolution :
  (forall rawData out,
      processFinancialData rawData = Normal out ->
      let resolved row r :=
        Quarter r = raw_Quarter row
        /\ Revenue r = match parsedField (raw_Revenue row) with
                       | Some n => n
                       | None => zero
                       end
        /\ COGS r = match parsedField (raw_COGS row) with
                    | Some n => n
                    | None => zero
                    end
        /\ OPEX r = match parsedField (raw_OPEX row) with
                    | Some n => n
                    | None => zero
                    end
        /\ (defaulted (raw_Net_Income row) = true ->
            Net_Income r = sub (sub (Revenue r) (COGS r)) (OPEX r))
        /\ (forall v,
               raw_Net_Income row = Some v ->
               defaulted (Some v) = false ->
               Net_Income r = parseFloat v) in
      (forall index row,
          nth_error rawData index = Some row ->
          exists r, In r out /\ resolved row r)
      /\ (forall r,
             In r out ->
             exists index row,
               nth_error rawData index = Some row /\ resolved row r))
  /\ (exists r,
         processFinancialData derivedNetIncome = Normal [r]
         /\ Revenue r = of_Z 100 /\ COGS r = of_Z 40 /\ OPEX r = of_Z 20
         /\ Net_Income r = of_Z 40 /\ netMargin r = of_Z 40).
Proof.
  assert (R : forall row index pk r,
             metricsOf r = rowMetrics row index pk ->
             Quarter r = raw_Quarter row
             /\ Revenue r = match parsedField (raw_Revenue row) with
                            | Some n => n
                            | None => zero
                            end
             /\ COGS r = match parsedField (raw_COGS row) with
                         | Some n => n
                         | None => zero
                         end
             /\ OPEX r = match parsedField (raw_OPEX row) with
                         | Some n => n
                         | None => zero
                         end
             /\ (defaulted (raw_Net_Income row) = true ->
                 Net_Income r = sub (sub (Revenue r) (COGS r)) (OPEX r))
             /\ (forall v,
                    raw_Net_Income row = Some v ->
                    defaulted (Some v) = false ->
                    Net_Income r = parseFloat v)).
  { intros row index pk r Hm. fields_of r Hm.
    cbn [rowMetrics Quarter Revenue COGS OPEX Net_Income].
    rewrite !safeParseFloat_parsedField.
    split; [reflexivity |].
    split; [destruct (parsedField (raw_Revenue row)); reflexivity |].
    split; [destruct (parsedField (raw_COGS row)); reflexivity |].
    split; [destruct (parsedField (raw_OPEX row)); reflexivity |].
    split.
    - intro Hd. rewrite (parsedField_defaulted _ Hd).
      destruct (parsedField (raw_Revenue row)),
        (parsedField (raw_COGS row)), (parsedField (raw_OPEX row));
        reflexivity.
    - intros v E Hd. rewrite E, (parsedField_supplied _ Hd). reflexivity. }
  split.
  - intros rawData out H resolved. split.
    + intros index row Hrow.
      destruct (source_out _ _ _ _ H Hrow) as (r & pk & Hin & _ & Hm).
      exists r. split; [exact Hin | exact (R _ _ _ _ Hm)].
    + intros r Hin.
      destruct (out_source _ _ _ H Hin) as (index & row & pk & Hrow & _ & Hm).
      exists index, row. split; [exact Hrow | exact (R _ _ _ _ Hm)].
  - eexists. split; [vm_compute; reflexivity |].
    repeat (split; [vm_compute; reflexivity |]). vm_compute; reflexivity.
Qed.

Lemma net_income_resolution_witness :
  exists r,
    In r (rowsOf derivedNetIncome)
    /\ Net_Income r = sub (sub (Revenue r) (COGS r)) (OPEX r).
Proof.
  destruct (proj1 (proj1 net_income_resolution
                         derivedNetIncome (rowsOf derivedNetIncome)
                         ltac:(vm_compute; reflexivity))
                  0%nat _ ltac:(vm_compute; reflexivity))
    as (r & Hin & _ & _ & _ & _ & Hd & _).
  exists r. split; [exact Hin | apply Hd; vm_compute; reflexivity].
Defined.

(** ** C6: plan fields *)

(** C6. Every input row has its output row, and every output row its
    input row, such that: plan revenue, plan cost of goods and plan
    operating expense are the numbers the raw plan fields supply, null
    when a field is absent, blank or unparseable; plan non-cash
    adjustments default to the row's actual non-cash adjustments; plan
    net income is [plan revenue - plan cost of goods - plan operating
    expense] exactly when no plan net income is supplied and the three
    plan components are present, and otherwise the supplied value or
    null; plan-side EBITDA is [plan revenue - plan cost of goods - plan
    operating expense + plan non-cash adjustments] when the three are
    present, and null otherwise. *)
Theorem plan_field_resolution :
  (forall rawData out,
      processFinancialData rawData = Normal out ->
      let resolved row r :=
        Quarter r = raw_Quarter row
        /\ plan_Revenue r = parsedField (raw_Plan_Revenue row)
        /\ plan_COGS r = parsedField (raw_Plan_COGS row)
        /\ plan_OPEX r = parsedField (raw_Plan_OPEX row)
        /\ plan_Non_Cash_Adjustments r
           = Some match parsedField (raw_Plan_Non_Cash_Adjustments row) with
                  | Some n => n
                  | None => Non_Cash_Adjustments r
                  end
        /\ plan_NetIncome r
           = match parsedField (raw_Plan_NetIncome row),
                   plan_Revenue r, plan_COGS r, plan_OPEX r with
             | None, Some pr, Some pc, Some po => Some (sub (sub pr pc) po)
             | explicit, _, _, _ => explicit
             end
        /\ ebitdaPlan r
           = match plan_Revenue r, plan_COGS r, plan_OPEX r,
                   plan_Non_Cash_Adjustments r with
             | Some pr, Some pc, Some po, Some pn =>
                 Some (add (sub (sub pr pc) po) pn)
             | _, _, _, _ => None
             end in
      (forall index row,
          nth_error rawData index = Some row ->
          exists r, In r out /\ resolved row r)
      /\ (forall r,
             In r out ->
             exists index row,
               nth_error rawData index = Some row /\ resolved row r))
  /\ (forall val,
         parsedField val
         = match val with
           | None => None
           | Some v =>
               if String.eqb (trim v) "" then None
               else if isNaN (parseFloat v) then None
                    else Some (parseFloat v)
           end)
  /\ (exists r,
         processFinancialData fullPlan = Normal [r]
         /\ plan_Revenue r = Some (of_Z 80) /\ plan_COGS r = Some (of_Z 30)
         /\ plan_OPEX r = Some (of_Z 10)
         /\ plan_Non_Cash_Adjustments r = Some zero
         /\ plan_NetIncome r = Some (of_Z 40)
         /\ ebitdaPlan r = Some (of_Z 40))
  /\ (exists r,
         processFinancialData zeroPlan = Normal [r]
         /\ plan_Revenue r = Some zero /\ plan_COGS r = None
         /\ plan_NetIncome r = None /\ ebitdaPlan r = None).
Proof.
  assert (R : forall row index pk r,
             metricsOf r = rowMetrics row index pk ->
             Quarter r = raw_Quarter row
             /\ plan_Revenue r = parsedField (raw_Plan_Revenue row)
             /\ plan_COGS r = parsedField (raw_Plan_COGS row)
             /\ plan_OPEX r = parsedField (raw_Plan_OPEX row)
             /\ plan_Non_Cash_Adjustments r
                = Some match parsedField (raw_Plan_Non_Cash_Adjustments row) with
                       | Some n => n
                       | None => Non_Cash_Adjustments r
                       end
             /\ plan_NetIncome r
                = match parsedField (raw_Plan_NetIncome row),
                        plan_Revenue r, plan_COGS r, plan_OPEX r with
                  | None, Some pr, Some pc, Some po => Some (sub (sub pr pc) po)
                  | explicit, _, _, _ => explicit
                  end
             /\ ebitdaPlan r
                = match plan_Revenue r, plan_COGS r, plan_OPEX r,
                        plan_Non_Cash_Adjustments r with
                  | Some pr, Some pc, Some po, Some pn =>
                      Some (add (sub (sub pr pc) po) pn)
                  | _, _, _, _ => None
                  end).
  { intros row index pk r Hm. fields_of r Hm.
    cbn [rowMetrics Quarter plan_Revenue plan_COGS plan_OPEX
         plan_Non_Cash_Adjustments plan_NetIncome ebitdaPlan
         Non_Cash_Adjustments].
    rewrite !safeParseFloat_parsedField.
    destruct (parsedField (raw_Plan_Revenue row)),
      (parsedField (raw_Plan_COGS row)),
      (parsedField (raw_Plan_OPEX row)),
      (parsedField (raw_Plan_NetIncome row)),
      (parsedField (raw_Plan_Non_Cash_Adjustments row));
      cbn [nonNull]; repeat split; reflexivity. }
  split; [| split; [| split]].
  - intros rawData out H resolved. split.
    + intros index row Hrow.
      destruct (source_out _ _ _ _ H Hrow) as (r & pk & Hin & _ & Hm).
      exists r. split; [exact Hin | exact (R _ _ _ _ Hm)].
    + intros r Hin.
      destruct (out_source _ _ _ H Hin) as (index & row & pk & Hrow & _ & Hm).
      exists index, row. split; [exact Hrow | exact (R _ _ _ _ Hm)].
  - intros [v |]; [| reflexivity]. unfold parsedField, defaulted.
    destruct (String.eqb (trim v) ""); cbn [orb]; reflexivity.
  - eexists. split; [vm_compute; reflexivity |].
    repeat (split; [vm_compute; reflexivity |]). vm_compute; reflexivity.
  - eexists. split; [vm_compute; reflexivity |].
    repeat (split; [vm_compute; reflexivity |]). vm_compute; reflexivity.
Qed.

Lemma plan_field_resolution_witness :
  exists r,
    In r (rowsOf fullPlan)
    /\ plan_Revenue r = parsedField (Some "80"%string).
Proof.
  destruct (proj1 (proj1 plan_field_resolution
                         fullPlan (rowsOf fullPlan)
                         ltac:(vm_compute; reflexivity))
                  0%nat _ ltac:(vm_compute; reflexivity))
    as (r & Hin & _ & Hp & _).
  exists r. split; [exact Hin | exact Hp].
Defined.

(** ** C7: margins *)

(** C7. For every output row whose revenue equals 0 the gross,
    operating-expense, EBITDA and net margins are all exactly 0, a
    finite Number; for every row whose revenue is not 0 each margin is
    its numerator (gross profit, operating expense, EBITDA, net income)
    divided by revenue, times 100.  A batch with a zero-revenue row
    parses without error. *)
Theorem margins_zero_safe :
  (forall rawData out,
      processFinancialData rawData = Normal out ->
      forall r,
        In r out ->
        (strict_eq (Revenue r) zero = true ->
         grossMargin r = zero /\ opexMargin r = zero
         /\ EBITDA_Margin r = zero /\ netMargin r = zero
         /\ isFinite (grossMargin r) = true /\ isFinite (opexMargin r) = true
         /\ isFinite (EBITDA_Margin r) = true /\ isFinite (netMargin r) = true)
        /\ (strict_eq (Revenue r) zero = false ->
            grossMargin r = mul (div (grossProfit r) (Revenue r)) hundred
            /\ opexMargin r = mul (div (OPEX r) (Revenue r)) hundred
            /\ EBITDA_Margin r = mul (div (EBITDA r) (Revenue r)) hundred
            /\ netMargin r = mul (div (Net_Income r) (Revenue r)) hundred))
  /\ (exists r,
         processFinancialData zeroRevenue = Normal [r]
         /\ Revenue r = zero
         /\ grossMargin r = zero /\ opexMargin r = zero
         /\ EBITDA_Margin r = zero /\ netMargin r = zero).
Proof.
  split.
  - intros rawData out H r Hin.
    destruct (out_source _ _ _ H Hin) as (index & row & pk & _ & _ & Hm).
    fields_of r Hm.
    cbn [rowMetrics Revenue grossMargin opexMargin EBITDA_Margin netMargin
         grossProfit OPEX EBITDA Net_Income].
    split; intro Hz.
    + rewrite !(proj1 (margin_rule _ _) Hz). repeat split; reflexivity.
    + rewrite !(proj2 (margin_rule _ _) Hz). repeat split; reflexivity.
  - eexists. split; [vm_compute; reflexivity |].
    repeat (split; [vm_compute; reflexivity |]). vm_compute; reflexivity.
Qed.

Lemma margins_zero_safe_witness :
  exists r,
    In r (rowsOf zeroRevenue)
    /\ grossMargin r = zero /\ opexMargin r = zero
    /\ EBITDA_Margin r = zero /\ netMargin r = zero.
Proof.
  eexists. split; [vm_compute; left; reflexivity |].
  destruct (proj1 (proj1 margins_zero_safe zeroRevenue (rowsOf zeroRevenue)
                         ltac:(vm_compute; reflexivity) _
                         ltac:(vm_compute; left; reflexivity))
                  ltac:(vm_compute; reflexivity))
    as (Hg & Ho & He & Hn & _).
  auto.
Defined.

(** ** C8: length, order and stability of the output *)

Lemma filter_map_comm {A B : Type} (p : B -> bool) (g : A -> B) (l : list A) :
  filter p (map g l) = map g (filter (fun x => p (g x)) l).
Proof.
  induction l as [| x l IH]; cbn [map filter]; [reflexivity |].
  destruct (p (g x)); cbn [map]; congruence.
Qed.

(** C8. When every quarter label of the input is valid the batch
    parses; the first pass builds one row per input row, in input
    order; the output has the length of the input; every adjacent pair
    [a], [b] of output rows has [a.sortKey <= b.sortKey]; and for every
    sort key the output rows with that key are, growth fields apart, the
    rows the first pass built with that key, in input order.  A 2023 row
    given after two rows of Q1-2024 comes out first, and the two keep
    their order. *)
Theorem output_sorted_and_stable :
  (forall rawData,
      Forall (fun row => ValidQuarterLabel (raw_Quarter row)) rawData ->
      exists rows out,
        mapThrowing normalizeRow rawData = Normal rows
        /\ processFinancialData rawData = Normal out
        /\ List.length rows = List.length rawData
        /\ (forall index row,
               nth_error rawData index = Some row ->
               exists r, nth_error rows index = Some r
                         /\ normalizeRow row index = Normal r)
        /\ List.length out = List.length rawData
        /\ (forall i a b,
               nth_error out i = Some a -> nth_error out (S i) = Some b ->
               le (sortKey a) (sortKey b) = true)
        /\ (forall k,
               map metricsOf (filter (fun r => strict_eq (sortKey r) k) out)
               = filter (fun r => strict_eq (sortKey r) k) rows))
  /\ (exists r1 r2 r3,
         processFinancialData twoYears = Normal [r1; r2; r3]
         /\ id r1 = "Q1-2023-East-Soap-2"%string
         /\ id r2 = "Q1-2024-East-Soap-0"%string
         /\ id r3 = "Q1-2024-West-Soap-1"%string
         /\ sortKey r2 = sortKey r3).
Proof.
  split.
  - intros rawData V.
    destruct (process_valid _ V) as (out & H).
    destruct (process_Normal _ _ H) as (rows & Hrows & F & _ & Hm).
    assert (Hlen : List.length rows = List.length rawData)
      by (eapply mapFrom_length, Hrows).
    assert (Fs : Forall firstPassRow (sort bySortKey rows))
      by (apply sort_Forall; exact F).
    exists rows, out.
    split; [exact Hrows |]. split; [exact H |]. split; [exact Hlen |].
    split; [| split; [| split]].
    + intros index row Hrow.
      pose proof (mapFrom_nth _ _ _ _ Hrows index) as Hn. rewrite Hrow in Hn.
      destruct (nth_error rows index) as [r |]; [| contradiction].
      exists r. split; [reflexivity | exact Hn].
    + rewrite <- Hlen, <- (sort_length bySortKey rows), <- Hm, length_map.
      reflexivity.
    + intros i a b Ha Hb.
      pose proof (sort_Sorted bySortKey (fun r => ord (sortKey r))
                              firstPassRow bySortKey_rank rows F) as S.
      rewrite <- Hm in S, Fs.
      apply (map_nth_error metricsOf) in Ha, Hb.
      pose proof (Sorted_adjacent _ _ S _ _ _ Ha Hb) as Hle.
      cbn beta in Hle.
      rewrite Forall_forall in Fs.
      destruct (Fs _ (nth_error_In _ _ Ha)) as [Na _].
      destruct (Fs _ (nth_error_In _ _ Hb)) as [Nb _].
      change (sortKey (metricsOf a)) with (sortKey a) in *.
      change (sortKey (metricsOf b)) with (sortKey b) in *.
      rewrite le_posNormal by assumption. apply Z.leb_le. exact Hle.
    + intro k.
      rewrite <- (filter_map_comm (fun r => strict_eq (sortKey r) k) metricsOf).
      rewrite Hm.
      apply (sort_filter bySortKey (fun r => ord (sortKey r))
                         firstPassRow bySortKey_rank); [| exact F].
      intros a b [Na _] [Nb _] Pa Pb.
      apply strict_eq_posNormal_inv in Pa, Pb; try assumption.
      congruence.
  - do 3 eexists. split; [vm_compute; reflexivity |].
    repeat (split; [vm_compute; reflexivity |]). vm_compute; reflexivity.
Qed.

Lemma output_sorted_and_stable_witness :
  exists rows out,
    mapThrowing normalizeRow twoYears = Normal rows
    /\ processFinancialData twoYears = Normal out
    /\ List.length rows = List.length twoYears
    /\ (forall index row,
           nth_error twoYears index = Some row ->
           exists r, nth_error rows index = Some r
                     /\ normalizeRow row index = Normal r)
    /\ List.length out = List.length twoYears
    /\ (forall i a b,
           nth_error out i = Some a -> nth_error out (S i) = Some b ->
           le (sortKey a) (sortKey b) = true)
    /\ (forall k,
           map metricsOf (filter (fun r => strict_eq (sortKey r) k) out)
           = filter (fun r => strict_eq (sortKey r) k) rows).
Proof.
  apply (proj1 output_sorted_and_stable twoYears).
  repeat constructor; apply matchAnchored_valid; vm_compute; reflexivity.
Defined.

(** ** C9: which fields are numbers *)

Section NotNaN.

Lemma safeParseFloat_notNaN (val : option string) (d : option number) :
  notNaNOrNull d = true -> notNaNOrNull (safeParseFloat val d) = true.
Proof.
  intro Hd. unfold safeParseFloat.
  destruct val as [v |]; [| exact Hd].
  destruct (String.eqb (trim v) ""); [exact Hd |].
  destruct (isNaN (parseFloat v)) eqn:E; [exact Hd |].
  cbn [notNaNOrNull]. rewrite E. reflexivity.
Qed.

Lemma nonNull_notNaN (x : option number) :
  notNaNOrNull x = true -> isNaN (nonNull x) = false.
Proof.
  destruct x as [n |]; cbn [notNaNOrNull nonNull]; [| reflexivity].
  destruct (isNaN n); [discriminate | reflexivity].
Qed.

Lemma posNormal_isFinite (x : number) : posNormal x = true -> isFinite x = true.
Proof. destruct x as [| | | [] m e]; cbn; congruence. Qed.

End NotNaN.

(** C9, as the code has it.  The coercion rejects NaN only, so a raw
    field that reads [Infinity] is kept and finiteness is not
    guaranteed.  What holds for every batch that parses: the period
    fields (year, quarter index, sort key) of every output row are
    finite; the coerced actual fields (revenue, cost of goods, operating
    expense, non-cash adjustments) are Numbers other than NaN, and the
    coerced plan fields are Numbers other than NaN or null; the
    coercion never returns NaN unless its default is NaN; and the four
    margins of a row whose revenue is 0 are finite. *)
Theorem coerced_fields_not_NaN :
  (forall rawData out,
      processFinancialData rawData = Normal out ->
      forall r,
        In r out ->
        isFinite (Year r) = true /\ isFinite (quarterIndex r) = true
        /\ isFinite (sortKey r) = true
        /\ isNaN (Revenue r) = false /\ isNaN (COGS r) = false
        /\ isNaN (OPEX r) = false /\ isNaN (Non_Cash_Adjustments r) = false
        /\ notNaNOrNull (plan_Revenue r) = true
        /\ notNaNOrNull (plan_COGS r) = true
        /\ notNaNOrNull (plan_OPEX r) = true
        /\ notNaNOrNull (plan_Non_Cash_Adjustments r) = true
        /\ (strict_eq (Revenue r) zero = true ->
            isFinite (grossMargin r) = true /\ isFinite (opexMargin r) = true
            /\ isFinite (EBITDA_Margin r) = true
            /\ isFinite (netMargin r) = true))
  /\ (forall val d,
         notNaNOrNull d = true -> notNaNOrNull (safeParseFloat val d) = true).
Proof.
  split; [| exact safeParseFloat_notNaN].
  intros rawData out H r Hin.
  destruct (out_source _ _ _ H Hin) as (index & row & pk & _ & Hpk & Hm).
  apply parseQuarter_Normal in Hpk.
  destruct Hpk as (q & y & HL & Hy & Ey & Eq & _ & Hn & _).
  assert (Hq : 1 <= q <= 4).
  { destruct HL as (c & d1 & d2 & d3 & d4 & _ & _ & _ & _ & _ & _ & _ & Hq & _).
    exact Hq. }
  fields_of r Hm.
  cbn [rowMetrics Year quarterIndex sortKey Revenue COGS OPEX
       Non_Cash_Adjustments plan_Revenue plan_COGS plan_OPEX
       plan_Non_Cash_Adjustments grossMargin opexMargin EBITDA_Margin
       netMargin].
  split; [| split; [| split]].
  - rewrite Ey. apply year_finite. exact Hy.
  - rewrite Eq. apply year_finite. lia.
  - apply posNormal_isFinite. exact Hn.
  - assert (Z0 : notNaNOrNull (Some zero) = true) by reflexivity.
    assert (N : forall val, isNaN (nonNull (safeParseFloat val (Some zero))) = false)
      by (intro val; apply nonNull_notNaN, safeParseFloat_notNaN, Z0).
    repeat (split; [apply N |]).
    repeat (split; [apply safeParseFloat_notNaN; reflexivity |]).
    split.
    + cbn [notNaNOrNull]. rewrite nonNull_notNaN; [reflexivity |].
      apply safeParseFloat_notNaN. cbn [notNaNOrNull]. rewrite N. reflexivity.
    + intro Hz. rewrite !(proj1 (margin_rule _ _) Hz). repeat split; reflexivity.
Qed.

Lemma coerced_fields_not_NaN_witness :
  exists r,
    In r (rowsOf infiniteRevenue)
    /\ isNaN (Revenue r) = false /\ isFinite (sortKey r) = true.
Proof.
  eexists. split; [vm_compute; left; reflexivity |].
  destruct (proj1 coerced_fields_not_NaN infiniteRevenue (rowsOf infiniteRevenue)
                  ltac:(vm_compute; reflexivity) _
                  ltac:(vm_compute; left; reflexivity))
    as (_ & _ & Hk & Hr & _).
  auto.
Defined.

(** C9 as the specification states it (every numeric field finite or
    null) does not hold: the row of a revenue field [Infinity] has an
    infinite revenue and gross profit and NaN margins, and a finite
    revenue of 1e308 against a cost of goods of -1e308 has an infinite
    gross profit. *)
Lemma infinite_fields_reach_the_output :
  (exists r,
      processFinancialData infiniteRevenue = Normal [r]
      /\ Revenue r = Infinity
      /\ grossProfit r = Infinity
      /\ grossMargin r = NaN
      /\ netMargin r = NaN
      /\ allFieldsFinite r = false)
  /\ (exists r,
         processFinancialData overflowing = Normal [r]
         /\ isFinite (Revenue r) = true /\ isFinite (COGS r) = true
         /\ grossProfit r = Infinity
         /\ allFieldsFinite r = false)
  /\ ~ (forall rawData out,
           processFinancialData rawData = Normal out ->
           forall r, In r out -> allFieldsFinite r = true).
Proof.
  split; [| split].
  - eexists. split; [vm_compute; reflexivity |].
    repeat (split; [vm_compute; reflexivity |]). vm_compute; reflexivity.
  - eexists. split; [vm_compute; reflexivity |].
    repeat (split; [vm_compute; reflexivity |]). vm_compute; reflexivity.
  - intro All.
    assert (H : processFinancialData infiniteRevenue
                = Normal (rowsOf infiniteRevenue)) by (vm_compute; reflexivity).
    assert (F : forallb allFieldsFinite (rowsOf infiniteRevenue) = true).
    { apply forallb_forall. intros r Hr. exact (All _ _ H r Hr). }
    vm_compute in F. discriminate F.
Qed.

(** ** C10: the coercion reads a leading number *)

Section CoercionFacts.

Lemma shr_1_nonneg (mrs : shr_record) : 0 <= shr_m mrs -> 0 <= shr_m (shr_1 mrs).
Proof.
  destruct mrs as [m r s]. cbn [shr_m]. intro H.
  destruct m as [| [p | p |] | p]; cbn; lia.
Qed.

Lemma shr_fexp_nonneg (m e : Z) (l : location) :
  0 <= m -> 0 <= shr_m (fst (shr_fexp prec emax m e l)).
Proof.
  intro H. unfold shr_fexp, shr.
  assert (H0 : 0 <= shr_m (shr_record_of_loc m l))
    by (destruct l as [| []]; exact H).
  destruct (fexp prec emax (Zdigits2 m + e) - e) as [| p | p]; cbn [fst];
    try exact H0.
  rewrite iter_pos_nat.
  induction (Pos.to_nat p) as [| k IH]; cbn [Nat.iter];
    [exact H0 | apply shr_1_nonneg, IH].
Qed.

Lemma binary_round_aux_not_NaN (s : bool) (m e : Z) (l : location) :
  0 <= m -> isNaN (binary_round_aux prec emax s m e l) = false.
Proof.
  intro H. unfold binary_round_aux.
  pose proof (shr_fexp_nonneg m e l H) as H1.
  destruct (shr_fexp prec emax m e l) as [mrs1 e1]. cbn [fst] in H1.
  assert (H2 : 0 <= round_nearest_even (shr_m mrs1) (loc_of_shr_record mrs1)).
  { unfold round_nearest_even.
    destruct (loc_of_shr_record mrs1) as [| []]; try lia.
    destruct (Z.even (shr_m mrs1)); lia. }
  pose proof (shr_fexp_nonneg _ e1 loc_Exact H2) as H3.
  destruct (shr_fexp prec emax _ e1 loc_Exact) as [mrs2 e2]. cbn [fst] in H3.
  destruct (shr_m mrs2) as [| p | p]; [reflexivity | | lia].
  destruct (e2 <=? emax - prec); reflexivity.
Qed.

Lemma binary_round_not_NaN (s : bool) (m : positive) (e : Z) :
  isNaN (binary_round prec emax s m e) = false.
Proof.
  unfold binary_round.
  destruct (shl_align m e (fexp prec emax (Zpos (digits2_pos m) + e))) as [mz ez].
  apply binary_round_aux_not_NaN. lia.
Qed.

Lemma of_decimal_not_NaN (neg : bool) (m e10 : Z) :
  0 <= m -> isNaN (of_decimal neg m e10) = false.
Proof.
  intro H. unfold of_decimal.
  destruct m as [| p | p]; [reflexivity | | lia].
  destruct e10 as [| k | k].
  - rewrite Z.pow_0_r, Z.mul_1_r. apply binary_round_not_NaN.
  - assert (P : 0 < Zpos p * 10 ^ Zpos k)
      by (apply Z.mul_pos_pos; [lia | apply Z.pow_pos_nonneg; lia]).
    destruct (Zpos p * 10 ^ Zpos k) as [| p' | p']; try lia.
    apply binary_round_not_NaN.
  - unfold SFdiv_core_binary.
    set (m' := match _ - _ with Zpos _ => Z.shiftl _ _ | Z0 => _ | Zneg _ => 0 end).
    assert (Hm' : 0 <= m').
    { unfold m'. destruct (_ - _); try lia. apply Z.shiftl_nonneg. lia. }
    pose proof (Z.div_pos m' (Z.pow_pos 10 k) Hm') as Hq.
    unfold Z.div in Hq.
    destruct (Z.div_eucl m' (Z.pow_pos 10 k)) as [q r].
    apply binary_round_aux_not_NaN. apply Hq.
    rewrite Z.pow_pos_fold. apply Z.pow_pos_nonneg; lia.
Qed.

Lemma parseFloat_isNaN (s : string) :
  isNaN (parseFloat s) = negb (startsNumeric s).
Proof.
  unfold parseFloat, startsNumeric.
  destruct (spanSign (trimStart s)) as [neg r].
  destruct (String.prefix "Infinity" r); [reflexivity |].
  cbn [orb]. destruct r as [| c r']; [reflexivity |].
  cbn [spanDigits]. destruct (isDigit c) eqn:Ec.
  - pose proof (spanDigits_allDigits r') as Hd.
    destruct (spanDigits r') as [d r1]. cbn [fst] in Hd. cbn [orb negb].
    assert (Hf : forall r0, allDigits (fst (spanDigits r0)) = true)
      by apply spanDigits_allDigits.
    assert (N : forall fp r2,
               allDigits fp = true ->
               isNaN match (String c d ++ fp)%string with
                     | EmptyString => NaN
                     | String _ _ as ds =>
                         of_decimal neg (digitsValue ds)
                                    (exponentPart r2 - Z.of_nat (String.length fp))
                     end = false).
    { intros fp r2 Hfp. cbn [append]. apply of_decimal_not_NaN.
      apply digitsValueFrom_nonneg; [| lia].
      change (allDigits (String c d ++ fp)%string = true).
      apply allDigits_app; [| exact Hfp]. cbn [allDigits]. rewrite Ec, Hd.
      reflexivity. }
    destruct r1 as [| c1 r1']; [apply (N EmptyString); reflexivity |].
    destruct (Ascii.eqb c1 ".").
    + specialize (Hf r1'). destruct (spanDigits r1') as [fp r2]. apply N, Hf.
    + apply (N EmptyString). reflexivity.
  - cbn [orb]. destruct (Ascii.eqb c ".") eqn:Edot; cbn [andb].
    + destruct r' as [| c' r'']; [reflexivity |].
      cbn [spanDigits]. destruct (isDigit c') eqn:Ec'; [| reflexivity].
      pose proof (spanDigits_allDigits r'') as Hd.
      destruct (spanDigits r'') as [d r2]. cbn [fst] in Hd.
      cbn [append negb]. apply of_decimal_not_NaN.
      apply digitsValueFrom_nonneg; [| lia].
      cbn [allDigits]. rewrite Ec', Hd. reflexivity.
    + reflexivity.
Qed.

Lemma safeParseFloat_startsNumeric (s : string) (d : option number) :
  safeParseFloat (Some s) d
  = if startsNumeric s then Some (parseFloat s) else d.
Proof.
  unfold safeParseFloat.
  destruct (String.eqb (trim s) "") eqn:E.
  - apply String.eqb_eq in E. apply trim_blank in E.
    unfold startsNumeric. rewrite E. reflexivity.
  - rewrite parseFloat_isNaN. destruct (startsNumeric s); reflexivity.
Qed.

Lemma of_decimal_integer (v : Z) : 0 <= v -> of_decimal false v 0 = of_Z v.
Proof.
  intro H. unfold of_decimal, of_Z.
  destruct v as [| p | p]; [reflexivity | | lia].
  rewrite Z.pow_0_r, Z.mul_1_r. reflexivity.
Qed.

Lemma exponentPart_none (rest : string) :
  endsLiteral rest = true -> exponentPart rest = 0.
Proof.
  destruct rest as [| c r]; [reflexivity |]. cbn [endsLiteral exponentPart].
  intro H. apply negb_true_iff in H.
  rewrite <- orb_assoc in H. apply orb_false_iff in H. destruct H as [_ H].
  rewrite H. reflexivity.
Qed.

Lemma endsLiteral_not_digit (rest : string) :
  endsLiteral rest = true ->
  match rest with String c _ => isDigit c = false | EmptyString => True end.
Proof.
  destruct rest as [| c r]; [exact (fun _ => I) |]. cbn [endsLiteral].
  intro H. apply negb_true_iff in H.
  rewrite <- orb_assoc in H. apply orb_false_iff in H. tauto.
Qed.

Lemma parseFloat_fraction (ip fp rest : string) :
  allDigits ip = true -> allDigits fp = true ->
  (ip ++ fp)%string <> EmptyString ->
  endsLiteral rest = true ->
  startsNumeric (ip ++ String "." (fp ++ rest)) = true
  /\ parseFloat (ip ++ String "." (fp ++ rest))
     = of_decimal false (digitsValue (ip ++ fp))
                  (- Z.of_nat (String.length fp)).
Proof.
  intros Hip Hfp Hne Hrest.
  assert (Sfp : spanDigits (fp ++ rest) = (fp, rest))
    by (apply spanDigits_app; [exact Hfp | apply endsLiteral_not_digit, Hrest]).
  assert (Sip : spanDigits (ip ++ String "." (fp ++ rest))
                = (ip, String "." (fp ++ rest)))
    by (apply spanDigits_app; [exact Hip | reflexivity]).
  destruct ip as [| c ip'].
  - cbn [append] in *. destruct fp as [| c' fp']; [contradiction Hne; reflexivity |].
    cbn [allDigits] in Hfp. apply andb_true_iff in Hfp. destruct Hfp as [Hc' _].
    split.
    + unfold startsNumeric. cbn. rewrite Hc'. reflexivity.
    + unfold parseFloat.
      change (trimStart (String "." (String c' fp' ++ rest)))
        with (String "." (String c' fp' ++ rest)).
      change (spanSign (String "." (String c' fp' ++ rest)))
        with (false, String "." (String c' fp' ++ rest)).
      cbv beta iota.
      change (String.prefix "Infinity" (String "." (String c' fp' ++ rest)))
        with false.
      cbv beta iota. rewrite Sip.
      change (Ascii.eqb "." ".") with true. cbv beta iota.
      rewrite Sfp. cbn [append]. rewrite (exponentPart_none _ Hrest).
      reflexivity.
  - cbn [allDigits] in Hip. apply andb_true_iff in Hip. destruct Hip as [Hc Hip].
    destruct (digit_head c Hc) as (Hw & Hplus & Hminus & Hdot & HI & _).
    assert (T : forall r, trimStart (String c r) = String c r)
      by (intro r; cbn [trimStart]; rewrite Hw; reflexivity).
    assert (G : forall r, spanSign (String c r) = (false, String c r))
      by (intro r; cbn [spanSign]; rewrite Hplus, Hminus; reflexivity).
    split.
    + unfold startsNumeric. cbn [append]. rewrite T, G.
      cbn [orb]. rewrite Hc. apply orb_true_r.
    + unfold parseFloat. cbn [append] in *. rewrite T, G.
      rewrite (prefix_Infinity _ _ HI). rewrite Sip.
      change (Ascii.eqb "." ".") with true. cbv beta iota.
      rewrite Sfp. cbn [append]. rewrite (exponentPart_none _ Hrest).
      reflexivity.
Qed.

Lemma parseFloat_integer (ds rest : string) :
  allDigits ds = true -> ds <> EmptyString -> endsInteger rest = true ->
  startsNumeric (ds ++ rest) = true
  /\ parseFloat (ds ++ rest) = of_Z (digitsValue ds).
Proof.
  intros Hds Hne Hrest.
  assert (Hnd : match rest with
                | String c _ => isDigit c = false | EmptyString => True
                end).
  { destruct rest as [| c r]; [exact I |]. cbn [endsInteger] in Hrest.
    apply negb_true_iff in Hrest.
    destruct (isDigit c); [discriminate Hrest | reflexivity]. }
  assert (Sds : spanDigits (ds ++ rest) = (ds, rest))
    by (apply spanDigits_app; assumption).
  assert (Hv : 0 <= digitsValue ds)
    by (apply digitsValueFrom_nonneg; [exact Hds | lia]).
  destruct ds as [| c ds']; [contradiction Hne; reflexivity |].
  cbn [allDigits] in Hds. apply andb_true_iff in Hds. destruct Hds as [Hc Hds].
  destruct (digit_head c Hc) as (Hw & Hplus & Hminus & Hdot & HI & _).
  assert (T : forall r, trimStart (String c r) = String c r)
    by (intro r; cbn [trimStart]; rewrite Hw; reflexivity).
  assert (G : forall r, spanSign (String c r) = (false, String c r))
    by (intro r; cbn [spanSign]; rewrite Hplus, Hminus; reflexivity).
  split.
  - unfold startsNumeric. cbn [append]. rewrite T, G.
    cbn [orb]. rewrite Hc. apply orb_true_r.
  - unfold parseFloat. cbn [append] in *. rewrite T, G.
    rewrite (prefix_Infinity _ _ HI). rewrite Sds.
    assert (E : (match rest with
                 | String c0 r =>
                     if Ascii.eqb c0 "." then spanDigits r else (EmptyString, rest)
                 | EmptyString => (EmptyString, rest)
                 end) = (EmptyString, rest)).
    { destruct rest as [| c0 r]; [reflexivity |]. cbn [endsInteger] in Hrest.
      apply negb_true_iff in Hrest.
      destruct (Ascii.eqb c0 "."); [| reflexivity].
      rewrite orb_true_r in Hrest. discriminate Hrest. }
    rewrite E. rewrite append_empty_r.
    assert (X : exponentPart rest = 0).
    { destruct rest as [| c0 r]; [reflexivity |].
      cbn [endsInteger exponentPart] in *.
      apply negb_true_iff in Hrest.
      rewrite <- !orb_assoc in Hrest.
      apply orb_false_iff in Hrest. destruct Hrest as [_ Hrest].
      apply orb_false_iff in Hrest. destruct Hrest as [_ Hrest].
      rewrite Hrest. reflexivity. }
    rewrite X. cbn [String.length Z.of_nat Z.sub Z.opp].
    apply of_decimal_integer. exact Hv.
Qed.

End CoercionFacts.

(** ** Decimal literals and what the coercion reads *)

Section LiteralFacts.

Ltac ascii_cases c := destruct c as [[] [] [] [] [] [] [] []].

Lemma digitChar_isDigit (c : ascii) : digitChar c <-> isDigit c = true.
Proof.
  unfold digitChar, isDigit, code, nat_of_ascii.
  rewrite andb_true_iff, !N.leb_le. lia.
Qed.

Lemma Digits_allDigits (ds : string) : Digits ds <-> allDigits ds = true.
Proof.
  induction ds as [| c r IH]; cbn [Digits allDigits]; [tauto |].
  rewrite andb_true_iff, digitChar_isDigit, IH. tauto.
Qed.

Lemma decimalFrom_digitsValueFrom (ds : string) :
  forall acc, decimalFrom acc ds = digitsValueFrom acc ds.
Proof.
  induction ds as [| c r IH]; intro acc; cbn [decimalFrom digitsValueFrom];
    [reflexivity |].
  rewrite IH. unfold digitValue, code, nat_of_ascii. rewrite N_nat_Z.
  reflexivity.
Qed.

Lemma decimalValue_digitsValue (ds : string) : decimalValue ds = digitsValue ds.
Proof. apply decimalFrom_digitsValueFrom. Qed.

Lemma blankChar_isWhiteSpace (c : ascii) :
  blankChar c <-> isWhiteSpace c = true.
Proof.
  split.
  - unfold blankChar. cbn [In]. intro H.
    assert (E : forall n, n = nat_of_ascii c -> c = ascii_of_nat n).
    { intros n ->. symmetry. apply ascii_nat_embedding. }
    destruct H as [H | [H | [H | [H | [H | [H | [H | []]]]]]]];
      apply E in H; subst c; reflexivity.
  - ascii_cases c; intro H; try discriminate H; clear H;
      unfold blankChar; cbn; tauto.
Qed.

Lemma trimStart_Blank (ws s : string) :
  Blank ws -> trimStart (ws ++ s)%string = trimStart s.
Proof.
  induction ws as [| c ws IH]; cbn [Blank append]; [reflexivity |].
  intros [Hc Hws]. apply blankChar_isWhiteSpace in Hc.
  cbn [trimStart]. rewrite Hc. exact (IH Hws).
Qed.

Lemma trimStart_split (s : string) :
  exists ws, Blank ws /\ s = (ws ++ trimStart s)%string.
Proof.
  induction s as [| c r (ws & Hws & E)].
  - exists EmptyString. split; [exact I | reflexivity].
  - cbn [trimStart]. destruct (isWhiteSpace c) eqn:Ec.
    + exists (String c ws). split.
      * split; [apply blankChar_isWhiteSpace, Ec | exact Hws].
      * cbn [append]. f_equal. exact E.
    + exists EmptyString. split; [exact I | reflexivity].
Qed.

Lemma trimStart_fixed (c : ascii) (r : string) :
  isWhiteSpace c = false -> trimStart (String c r) = String c r.
Proof. intro H. cbn [trimStart]. rewrite H. reflexivity. Qed.

Lemma spanSign_split (r r1 : string) (neg : bool) :
  spanSign r = (neg, r1) ->
  exists sg, signString sg neg /\ r = (sg ++ r1)%string.
Proof.
  destruct r as [| c r']; cbn [spanSign].
  - intro H. injection H as <- <-. exists EmptyString.
    split; [left; auto | reflexivity].
  - destruct (Ascii.eqb c "+") eqn:Ep.
    + apply Ascii.eqb_eq in Ep. subst c. intro H. injection H as <- <-.
      exists "+"%string. split; [right; left; auto | reflexivity].
    + destruct (Ascii.eqb c "-") eqn:Em.
      * apply Ascii.eqb_eq in Em. subst c. intro H. injection H as <- <-.
        exists "-"%string. split; [right; right; auto | reflexivity].
      * intro H. injection H as <- <-. exists EmptyString.
        split; [left; auto | reflexivity].
Qed.

(** Leading white space and a sign before a body that starts with
    neither. *)
Lemma spanSign_lead (ws sg body : string) (neg : bool) (c : ascii) (r : string) :
  Blank ws -> signString sg neg ->
  body = String c r ->
  isWhiteSpace c = false -> Ascii.eqb c "+" = false -> Ascii.eqb c "-" = false ->
  spanSign (trimStart (ws ++ sg ++ body)%string) = (neg, body).
Proof.
  intros Hws Hsg -> Hw Hp Hm. rewrite (trimStart_Blank _ _ Hws).
  destruct Hsg as [[-> ->] | [[-> ->] | [-> ->]]]; cbn [append].
  - rewrite (trimStart_fixed _ _ Hw). cbn [spanSign]. rewrite Hp, Hm. reflexivity.
  - reflexivity.
  - reflexivity.
Qed.

Lemma not_startsDigit (rest : string) :
  ~ startsDigit rest ->
  match rest with String c _ => isDigit c = false | EmptyString => True end.
Proof.
  intro H. destruct rest as [| c r]; [exact I |].
  destruct (isDigit c) eqn:E; [| reflexivity].
  exfalso. apply H. exists c, r. split; [reflexivity |].
  apply digitChar_isDigit, E.
Qed.

Lemma spanDigits_split (s d r : string) :
  spanDigits s = (d, r) ->
  s = (d ++ r)%string /\ allDigits d = true /\ ~ startsDigit r.
Proof.
  revert d r. induction s as [| c s IH]; intros d r; cbn [spanDigits].
  - intro H. injection H as <- <-. split; [reflexivity |].
    split; [reflexivity |]. intros (c & r & E & _). discriminate E.
  - destruct (isDigit c) eqn:Ec.
    + destruct (spanDigits s) as [d' r'] eqn:Es. intro H. injection H as <- <-.
      destruct (IH _ _ eq_refl) as (E & Hd & Hr).
      split; [cbn [append]; f_equal; exact E |].
      split; [cbn [allDigits]; rewrite Ec, Hd; reflexivity | exact Hr].
    + intro H. injection H as <- <-. split; [reflexivity |].
      split; [reflexivity |].
      intros (c' & r' & E & Hc'). injection E as <- <-.
      apply digitChar_isDigit in Hc'. congruence.
Qed.

Lemma append_assoc (a b c : string) :
  ((a ++ b) ++ c)%string = (a ++ b ++ c)%string.
Proof. induction a as [| x a IH]; cbn [append]; congruence. Qed.

Lemma exponent_letter (c : ascii) :
  (Ascii.eqb c "e" || Ascii.eqb c "E") = true <-> c = "e"%char \/ c = "E"%char.
Proof.
  rewrite orb_true_iff, !Ascii.eqb_eq. tauto.
Qed.

Lemma exponentPart_spec (ex rest : string) (e : Z) :
  ExponentString ex e ->
  ~ startsDigit rest ->
  (ex = EmptyString -> ~ startsExponent rest) ->
  exponentPart (ex ++ rest)%string = e.
Proof.
  intros [[-> ->] | (c & esg & eneg & ed & -> & Hc & Hsg & Hed & Hne & ->)] Hnd Hnx;
    [| apply Digits_allDigits in Hed; rewrite decimalValue_digitsValue].
  - cbn [append]. specialize (Hnx eq_refl).
    destruct rest as [| c r]; [reflexivity |]. cbn [exponentPart].
    destruct (Ascii.eqb c "e" || Ascii.eqb c "E") eqn:Ec; [| reflexivity].
    apply exponent_letter in Ec.
    destruct (spanSign r) as [neg r1] eqn:Es.
    destruct (spanDigits r1) as [ds r2] eqn:Ed.
    destruct ds as [| a ds']; [reflexivity |].
    exfalso. apply Hnx.
    destruct (spanSign_split _ _ _ Es) as (esg & Hsg & ->).
    destruct (spanDigits_split _ _ _ Ed) as (-> & Hds & _).
    cbn [allDigits] in Hds. apply andb_true_iff in Hds.
    exists c, esg, neg, a, (ds' ++ r2)%string.
    split; [reflexivity |]. split; [exact Ec |]. split; [exact Hsg |].
    apply digitChar_isDigit, Hds.
  - cbn [append exponentPart].
    apply exponent_letter in Hc. rewrite Hc.
    destruct ed as [| a ed']; [contradiction Hne; reflexivity |].
    pose proof Hed as Hed'.
    cbn [allDigits] in Hed'. apply andb_true_iff in Hed'. destruct Hed' as [Ha _].
    destruct (digit_head a Ha) as (_ & Hp & Hm & _).
    assert (Es : spanSign ((esg ++ String a ed') ++ rest)%string
                 = (eneg, (String a ed' ++ rest)%string)).
    { destruct Hsg as [[-> ->] | [[-> ->] | [-> ->]]]; cbn [append spanSign].
      - rewrite Hp, Hm. reflexivity.
      - reflexivity.
      - reflexivity. }
    rewrite Es.
    rewrite (spanDigits_app _ _ Hed (not_startsDigit _ Hnd)).
    reflexivity.
Qed.

Lemma exponent_head (ex rest : string) (e : Z) :
  ExponentString ex e -> ~ startsDigit rest -> ~ startsDigit (ex ++ rest)%string.
Proof.
  intros [[-> ->] | (c & esg & eneg & ed & -> & Hc & _)] Hnd; [exact Hnd |].
  intros (c' & r' & E & Hd). cbn [append] in E. injection E as <- _.
  apply digitChar_isDigit in Hd.
  destruct Hc as [-> | ->]; discriminate Hd.
Qed.

Lemma exponent_not_dot (ex rest : string) (e : Z) :
  ExponentString ex e -> (ex = EmptyString -> ~ startsDot rest) ->
  match (ex ++ rest)%string with
  | String c _ => Ascii.eqb c "." = false
  | EmptyString => True
  end.
Proof.
  intros [[-> ->] | (c & esg & eneg & ed & -> & Hc & _)] Hnd.
  - cbn [append]. specialize (Hnd eq_refl).
    destruct rest as [| c r]; [exact I |].
    destruct (Ascii.eqb c ".") eqn:E; [| reflexivity].
    apply Ascii.eqb_eq in E. subst c. exfalso. apply Hnd. exists r. reflexivity.
  - cbn [append]. destruct Hc as [-> | ->]; reflexivity.
Qed.

Lemma digitsValue_nonneg (ds : string) : allDigits ds = true -> 0 <= digitsValue ds.
Proof. intro H. apply digitsValueFrom_nonneg; [exact H | lia]. Qed.

(** The value [parseFloat] gives digits with an optional exponent. *)
Lemma parseFloat_integer_form (x ip ex rest : string) (neg : bool) (e : Z) :
  spanSign (trimStart x) = (neg, (ip ++ ex ++ rest)%string) ->
  allDigits ip = true -> ip <> EmptyString ->
  ExponentString ex e ->
  ~ startsDigit rest ->
  (ex = EmptyString -> ~ startsDot rest /\ ~ startsExponent rest) ->
  parseFloat x = of_decimal neg (digitsValue ip) e.
Proof.
  intros Hx Hip Hne Hex Hnd Hend.
  unfold parseFloat. rewrite Hx.
  destruct ip as [| c ip']; [contradiction Hne; reflexivity |].
  pose proof Hip as Hip'.
  cbn [allDigits] in Hip'. apply andb_true_iff in Hip'. destruct Hip' as [Hc _].
  destruct (digit_head c Hc) as (_ & _ & _ & _ & HI & _).
  cbn [append]. rewrite (prefix_Infinity _ _ HI).
  change (String c (ip' ++ ex ++ rest))%string
    with (String c ip' ++ (ex ++ rest))%string.
  rewrite (spanDigits_app _ _ Hip
             (not_startsDigit _ (exponent_head _ _ _ Hex Hnd))).
  pose proof (exponent_not_dot ex rest e Hex (fun E => proj1 (Hend E))) as Hdot.
  assert (E : (match (ex ++ rest)%string with
               | String c0 r =>
                   if Ascii.eqb c0 "." then spanDigits r
                   else (EmptyString, (ex ++ rest)%string)
               | EmptyString => (EmptyString, (ex ++ rest)%string)
               end) = (EmptyString, (ex ++ rest)%string)).
  { destruct (ex ++ rest)%string as [| c0 r]; [reflexivity |].
    rewrite Hdot. reflexivity. }
  rewrite E. rewrite append_empty_r.
  rewrite (exponentPart_spec _ _ _ Hex Hnd (fun E0 => proj2 (Hend E0))).
  cbn [String.length Z.of_nat append]. rewrite Z.sub_0_r. reflexivity.
Qed.

(** The value [parseFloat] gives digits around a dot with an optional
    exponent. *)
Lemma parseFloat_dot_form (x ip fp ex rest : string) (neg : bool) (e : Z) :
  spanSign (trimStart x)
  = (neg, (ip ++ String "." (fp ++ ex ++ rest))%string) ->
  allDigits ip = true -> allDigits fp = true ->
  (ip ++ fp)%string <> EmptyString ->
  ExponentString ex e ->
  ~ startsDigit rest ->
  (ex = EmptyString -> ~ startsExponent rest) ->
  parseFloat x = of_decimal neg (digitsValue (ip ++ fp))
                            (e - Z.of_nat (String.length fp)).
Proof.
  intros Hx Hip Hfp Hne Hex Hnd Hend.
  unfold parseFloat. rewrite Hx.
  assert (HP : String.prefix "Infinity" (ip ++ String "." (fp ++ ex ++ rest))
               = false).
  { destruct ip as [| c ip']; [reflexivity |].
    cbn [allDigits] in Hip. apply andb_true_iff in Hip. destruct Hip as [Hc _].
    destruct (digit_head c Hc) as (_ & _ & _ & _ & HI & _).
    cbn [append]. apply prefix_Infinity, HI. }
  rewrite HP.
  rewrite (spanDigits_app ip _ Hip) by reflexivity.
  change (Ascii.eqb "." ".") with true. cbv beta iota.
  rewrite (spanDigits_app fp _ Hfp
             (not_startsDigit _ (exponent_head _ _ _ Hex Hnd))).
  rewrite (exponentPart_spec _ _ _ Hex Hnd Hend).
  destruct (ip ++ fp)%string as [| c ds] eqn:E; [contradiction Hne; reflexivity |].
  reflexivity.
Qed.

Lemma parseFloat_Infinity_form (x rest : string) (neg : bool) :
  spanSign (trimStart x) = (neg, ("Infinity" ++ rest)%string) ->
  parseFloat x = S754_infinity neg.
Proof.
  intro Hx. unfold parseFloat. rewrite Hx.
  assert (P : String.prefix "Infinity" ("Infinity" ++ rest) = true).
  { cbn [append String.prefix].
    repeat (destruct (ascii_dec _ _) as [_ | N]; [| contradiction N; reflexivity]).
    destruct rest; reflexivity. }
  rewrite P. reflexivity.
Qed.

Lemma ReadsAs_parseFloat (s : string) (v : number) :
  ReadsAs s v -> parseFloat s = v /\ isNaN v = false.
Proof.
  intros (ws & sg & neg & body & -> & Hws & Hsg & H).
  destruct H as [(rest & -> & ->)
                | [(ip & ex & e & rest & -> & Hip & Hne & Hex & Hnd & Hend & ->)
                  | (ip & fp & ex & e & rest & -> & Hip & Hfp & Hne & Hex & Hnd
                     & Hend & ->)]];
    rewrite ?decimalValue_digitsValue;
    try apply Digits_allDigits in Hip; try apply Digits_allDigits in Hfp.
  - split; [| reflexivity].
    apply (parseFloat_Infinity_form _ rest).
    apply (spanSign_lead ws sg _ neg "I" ("nfinity" ++ rest)%string);
      auto; reflexivity.
  - split; [| apply of_decimal_not_NaN, digitsValue_nonneg, Hip].
    apply (parseFloat_integer_form _ ip ex rest); try assumption.
    destruct ip as [| c ip']; [contradiction Hne; reflexivity |].
    pose proof Hip as Hip'.
    cbn [allDigits] in Hip'. apply andb_true_iff in Hip'. destruct Hip' as [Hc _].
    destruct (digit_head c Hc) as (Hw & Hp & Hm & _).
    apply (spanSign_lead ws sg _ neg c (ip' ++ ex ++ rest)%string); auto.
  - split.
    2:{ apply of_decimal_not_NaN, digitsValue_nonneg, allDigits_app; assumption. }
    apply (parseFloat_dot_form _ ip fp ex rest); try assumption.
    destruct ip as [| c ip'].
    + apply (spanSign_lead ws sg _ neg "." (fp ++ ex ++ rest)%string);
        auto; reflexivity.
    + pose proof Hip as Hip'.
      cbn [allDigits] in Hip'. apply andb_true_iff in Hip'. destruct Hip' as [Hc _].
      destruct (digit_head c Hc) as (Hw & Hp & Hm & _).
      apply (spanSign_lead ws sg _ neg c
               (ip' ++ String "." (fp ++ ex ++ rest))%string); auto.
Qed.

Lemma prefix_split (p r : string) :
  String.prefix p r = true -> exists rest, r = (p ++ rest)%string.
Proof.
  revert r. induction p as [| a p IH]; intros r H.
  - exists r. reflexivity.
  - destruct r as [| b r]; [discriminate H |]. cbn [String.prefix] in H.
    destruct (ascii_dec a b) as [<- | _]; [| discriminate H].
    destruct (IH _ H) as (rest & ->). exists rest. reflexivity.
Qed.

Lemma startsNumeric_LeadingNumber (s : string) :
  startsNumeric s = true -> LeadingNumber s.
Proof.
  unfold startsNumeric. intro H.
  destruct (trimStart_split s) as (ws & Hws & E).
  destruct (spanSign (trimStart s)) as [neg r] eqn:Es.
  destruct (spanSign_split _ _ _ Es) as (sg & Hsg & Er).
  exists ws, sg, neg, r. split; [rewrite <- Er; exact E |].
  split; [exact Hws |]. split; [exact Hsg |].
  apply orb_true_iff in H. destruct H as [H | H].
  - left. apply prefix_split. exact H.
  - right. destruct r as [| c r']; [discriminate H |].
    apply orb_true_iff in H. destruct H as [H | H].
    + left. exists c, r'. split; [reflexivity | apply digitChar_isDigit, H].
    + right. apply andb_true_iff in H. destruct H as [Hdot H].
      apply Ascii.eqb_eq in Hdot. subst c.
      destruct r' as [| c' r'']; [discriminate H |].
      exists (String c' r''). split; [reflexivity |]. exists c', r''.
      split; [reflexivity | apply digitChar_isDigit, H].
Qed.

(** What follows the mantissa splits into an exponent part and a rest
    that does not continue it. *)
Lemma exponent_split (r2 : string) :
  ~ startsDigit r2 ->
  exists ex e rest,
    r2 = (ex ++ rest)%string /\ ExponentString ex e
    /\ ~ startsDigit rest
    /\ (ex = EmptyString -> rest = r2 /\ ~ startsExponent rest).
Proof.
  intro Hnd.
  assert (None_ : ~ startsExponent r2 ->
                  exists ex e rest,
                    r2 = (ex ++ rest)%string /\ ExponentString ex e
                    /\ ~ startsDigit rest
                    /\ (ex = EmptyString -> rest = r2 /\ ~ startsExponent rest)).
  { intro Hn. exists EmptyString, 0, r2. split; [reflexivity |].
    split; [left; auto |]. split; [exact Hnd |]. auto. }
  destruct r2 as [| c r].
  { apply None_. intros (c & esg & eneg & d & r & E & _). discriminate E. }
  destruct (Ascii.eqb c "e" || Ascii.eqb c "E") eqn:Ec.
  2:{ apply None_. intros (c' & esg & eneg & d & r' & E & Hc & _).
      injection E as <- _. apply exponent_letter in Hc. congruence. }
  apply exponent_letter in Ec.
  destruct (spanSign r) as [neg r1] eqn:Es.
  destruct (spanSign_split _ _ _ Es) as (esg & Hsg & Er).
  destruct (spanDigits r1) as [ds r3] eqn:Ed.
  destruct (spanDigits_split _ _ _ Ed) as (E1 & Hds & Hr3).
  destruct ds as [| a ds'].
  - apply None_. intros (c' & esg' & eneg' & d & r' & E & _ & Hsg' & Hd).
    injection E as _ E. apply digitChar_isDigit in Hd.
    destruct (digit_head d Hd) as (_ & Hp & Hm & _).
    assert (Es' : spanSign r = (eneg', String d r')).
    { rewrite E.
      destruct Hsg' as [[-> ->] | [[-> ->] | [-> ->]]]; cbn [append spanSign];
        [rewrite Hp, Hm |..]; reflexivity. }
    rewrite Es in Es'. injection Es' as _ ->.
    cbn [spanDigits] in Ed. rewrite Hd in Ed.
    destruct (spanDigits r') as [d' r'']. discriminate Ed.
  - exists (String c (esg ++ String a ds')),
           (if neg then - decimalValue (String a ds')
            else decimalValue (String a ds')),
           r3.
    split.
    { cbn [append]. f_equal. rewrite append_assoc, <- E1. exact Er. }
    split.
    { right. exists c, esg, neg, (String a ds').
      split; [reflexivity |]. split; [exact Ec |]. split; [exact Hsg |].
      split; [apply Digits_allDigits, Hds |].
      split; [discriminate | reflexivity]. }
    split; [exact Hr3 |]. discriminate.
Qed.

Lemma LeadingNumber_ReadsAs (s : string) :
  LeadingNumber s -> exists v, ReadsAs s v.
Proof.
  intros (ws & sg & neg & t & -> & Hws & Hsg & Ht).
  assert (Dot : forall ip r',
             allDigits ip = true ->
             (ip = EmptyString -> startsDigit r') ->
             exists v, ReadsAs (ws ++ sg ++ ip ++ String "." r') v).
  { intros ip r' Hip Hhead.
    destruct (spanDigits r') as [fp r2] eqn:Ef.
    destruct (spanDigits_split _ _ _ Ef) as (-> & Hfp & Hr2).
    destruct (exponent_split r2 Hr2) as (ex & e & rest & -> & Hex & Hnd & Hend).
    eexists. exists ws, sg, neg, (ip ++ String "." (fp ++ ex ++ rest))%string.
    split; [reflexivity |]. split; [exact Hws |]. split; [exact Hsg |].
    right. right. exists ip, fp, ex, e, rest.
    split; [reflexivity |]. split; [apply Digits_allDigits, Hip |].
    split; [apply Digits_allDigits, Hfp |].
    split.
    { intro E. destruct ip as [| c ip']; [| discriminate E].
      destruct fp as [| c' fp']; [| discriminate E].
      apply Hr2. exact (Hhead eq_refl). }
    split; [exact Hex |]. split; [exact Hnd |].
    split; [| reflexivity]. intro E. apply Hend, E. }
  destruct Ht as [(r & ->) | [(c & r & -> & Hc) | (r & -> & Hr)]];
    try apply digitChar_isDigit in Hc.
  - eexists. exists ws, sg, neg, ("Infinity" ++ r)%string.
    split; [reflexivity |]. split; [exact Hws |]. split; [exact Hsg |].
    left. exists r. split; reflexivity.
  - destruct (spanDigits (String c r)) as [ip r1] eqn:Ei.
    destruct (spanDigits_split _ _ _ Ei) as (E & Hip & Hr1).
    assert (Hne : ip <> EmptyString).
    { intros ->. cbn [spanDigits] in Ei. rewrite Hc in Ei.
      destruct (spanDigits r); discriminate Ei. }
    rewrite E.
    destruct r1 as [| c1 r1'] eqn:Er1.
    + destruct (exponent_split EmptyString Hr1)
        as (ex & e & rest & E2 & Hex & Hnd & Hend).
      eexists. exists ws, sg, neg, (ip ++ ex ++ rest)%string.
      split; [rewrite <- E2; reflexivity |].
      split; [exact Hws |]. split; [exact Hsg |].
      right. left. exists ip, ex, e, rest.
      split; [reflexivity |]. split; [apply Digits_allDigits, Hip |].
      split; [exact Hne |].
      split; [exact Hex |]. split; [exact Hnd |].
      split; [| reflexivity].
      intro E0. destruct (Hend E0) as [-> Hx]. split; [| exact Hx].
      intros (r0 & E3). discriminate E3.
    + destruct (Ascii.eqb c1 ".") eqn:Edot.
      * apply Ascii.eqb_eq in Edot. subst c1.
        apply Dot; [exact Hip |]. intro E0. contradiction.
      * destruct (exponent_split (String c1 r1') Hr1)
          as (ex & e & rest & E2 & Hex & Hnd & Hend).
        eexists. exists ws, sg, neg, (ip ++ ex ++ rest)%string.
        split; [rewrite <- E2; reflexivity |].
        split; [exact Hws |]. split; [exact Hsg |].
        right. left. exists ip, ex, e, rest.
        split; [reflexivity |]. split; [apply Digits_allDigits, Hip |].
      split; [exact Hne |].
        split; [exact Hex |]. split; [exact Hnd |].
        split; [| reflexivity].
        intro E0. destruct (Hend E0) as [-> Hx]. split; [| exact Hx].
        intros (r0 & E3). injection E3 as -> _. discriminate Edot.
  - apply (Dot EmptyString r); [reflexivity |]. intros _. exact Hr.
Qed.

Lemma trimStart_parse (a b : string) :
  trimStart a = trimStart b ->
  startsNumeric a = startsNumeric b /\ parseFloat a = parseFloat b.
Proof.
  intro E. unfold startsNumeric, parseFloat. rewrite E. split; reflexivity.
Qed.

Lemma of_decimal_exact_integer (neg : bool) (p : positive) (e10 : Z) :
  0 <= e10 -> Zpos p * 10 ^ e10 < 2 ^ 53 ->
  exists q, toQ (of_decimal neg (Zpos p) e10) = Some q
            /\ (q == inject_Z (cond_Zopp neg (Zpos p * 10 ^ e10)))%Q.
Proof.
  intros He H.
  assert (Hpos : 0 < Zpos p * 10 ^ e10)
    by (apply Z.mul_pos_pos; [lia | apply Z.pow_pos_nonneg; lia]).
  assert (E : of_decimal neg (Zpos p) e10
              = match Zpos p * 10 ^ e10 with
                | Zpos p' => binary_round prec emax neg p' 0
                | _ => S754_nan
                end).
  { unfold of_decimal. destruct e10 as [| k | k]; [reflexivity | reflexivity | lia]. }
  rewrite E. clear E.
  destruct (Zpos p * 10 ^ e10) as [| n | n]; [lia | | lia].
  assert (Hd : Zpos (digits2_pos n) <= 53) by (apply digits2_le; [lia | exact H]).
  pose proof (Pos2Z.is_pos (digits2_pos n)) as Hn.
  change n with (shiftPos n 0) at 1.
  rewrite round_exact by lia.
  destruct (canon_toQ neg n (0 + 0) Hd) as (v & Hv & Hq).
  exists v. split; [exact Hv |]. rewrite Hq.
  change (Qpower 2 (0 + 0)) with 1%Q. ring.
Qed.

End LiteralFacts.

(** C10. The coercion keeps every string whose trimmed form begins with
    a decimal number and returns the value of that leading number:
    ["12abc"] gives 12 and ["3.5 SAR"] gives 3.5, whatever the default.
    Stated without the program's own scanners: a string that reads as
    a number (white space, an optional sign, then [Infinity], digits
    with an optional exponent, or digits around a dot with an optional
    exponent, taken as far as they go) gives the Number nearest to
    that number, never NaN; every string whose trimmed form begins
    with a number reads as one; every other string, blank ones
    included, gives the default; digits and a power of ten that
    spell an integer below [2^53] give exactly that integer, negated
    after a minus sign;
    leading white space changes nothing;
    and being a total function the coercion throws for none. *)
Theorem safeParseFloat_reads_leading_number :
  (forall d, safeParseFloat (Some "12abc"%string) d = Some (of_Z 12))
  /\ (forall d, safeParseFloat (Some "3.5 SAR"%string) d
                = Some (of_decimal false 35 (-1)))
  /\ (exists v, toQ (of_decimal false 35 (-1)) = Some v /\ (v == 3.5)%Q)
  /\ (forall s v d, ReadsAs s v -> safeParseFloat (Some s) d = Some v)
  /\ (forall s v, ReadsAs s v -> isNaN v = false)
  /\ (forall s, LeadingNumber s -> exists v, ReadsAs s v)
  /\ (forall s d, ~ LeadingNumber s -> safeParseFloat (Some s) d = d)
  /\ (forall neg p e10,
         0 <= e10 -> Zpos p * 10 ^ e10 < 2 ^ 53 ->
         exists q, toQ (of_decimal neg (Zpos p) e10) = Some q
                   /\ (q == inject_Z (cond_Zopp neg (Zpos p * 10 ^ e10)))%Q)
  /\ (forall ws s d,
         Blank ws ->
         safeParseFloat (Some (ws ++ s)%string) d = safeParseFloat (Some s) d)
  /\ (forall ds rest d,
         allDigits ds = true -> ds <> EmptyString ->
         endsInteger rest = true ->
         safeParseFloat (Some (ds ++ rest)%string) d
         = Some (of_Z (digitsValue ds)))
  /\ (forall ip fp rest d,
         allDigits ip = true -> allDigits fp = true ->
         (ip ++ fp)%string <> EmptyString ->
         endsLiteral rest = true ->
         safeParseFloat (Some (ip ++ String "." (fp ++ rest))%string) d
         = Some (of_decimal false (digitsValue (ip ++ fp))
                            (- Z.of_nat (String.length fp))))
  /\ (forall d, safeParseFloat (Some "  12abc"%string) d = Some (of_Z 12))
  /\ (forall d, safeParseFloat (Some "-5"%string) d = Some (SFopp (of_Z 5)))
  /\ (forall d, safeParseFloat (Some "+5"%string) d = Some (of_Z 5))
  /\ (forall d, safeParseFloat (Some "1e3"%string) d = Some (of_Z 1000))
  /\ (forall d, safeParseFloat (Some " -1.5E+2 SAR"%string) d
                = Some (SFopp (of_Z 150)))
  /\ (exists v, (forall d, safeParseFloat (Some "25e-2kg"%string) d = Some v)
                /\ exists q, toQ v = Some q /\ (q == 0.25)%Q)
  /\ (forall d, safeParseFloat (Some "-Infinity"%string) d
                = Some (S754_infinity true))
  /\ (forall d, safeParseFloat (Some "abc"%string) d = d)
  /\ (forall d, safeParseFloat (Some "e3"%string) d = d)
  /\ (forall d, safeParseFloat (Some "+-5"%string) d = d)
  /\ (forall d, safeParseFloat (Some "."%string) d = d)
  /\ (forall d, safeParseFloat (Some "   "%string) d = d)
  /\ (forall d, safeParseFloat None d = d).
Proof.
  assert (Sound : forall s v d, ReadsAs s v -> safeParseFloat (Some s) d = Some v).
  { intros s v d H. destruct (ReadsAs_parseFloat s v H) as [Hv Hn].
    rewrite safeParseFloat_startsNumeric.
    pose proof (parseFloat_isNaN s) as P. rewrite Hv, Hn in P.
    destruct (startsNumeric s); [rewrite Hv; reflexivity | discriminate P]. }
  split. { intro d. vm_compute. reflexivity. }
  split. { intro d. vm_compute. reflexivity. }
  split.
  { eexists. split; [vm_compute; reflexivity |]. vm_compute. reflexivity. }
  split. { exact Sound. }
  split. { intros s v H. apply (ReadsAs_parseFloat s v H). }
  split. { exact LeadingNumber_ReadsAs. }
  split.
  { intros s d H. rewrite safeParseFloat_startsNumeric.
    destruct (startsNumeric s) eqn:E; [| reflexivity].
    contradiction H. apply startsNumeric_LeadingNumber, E. }
  split. { exact of_decimal_exact_integer. }
  split.
  { intros ws s d H. rewrite !safeParseFloat_startsNumeric.
    destruct (trimStart_parse (ws ++ s) s (trimStart_Blank ws s H)) as [-> ->].
    reflexivity. }
  split.
  { intros ds rest d Hds Hne Hrest.
    destruct (parseFloat_integer ds rest Hds Hne Hrest) as [Hs Hv].
    rewrite safeParseFloat_startsNumeric, Hs, Hv. reflexivity. }
  split.
  { intros ip fp rest d Hip Hfp Hne Hrest.
    destruct (parseFloat_fraction ip fp rest Hip Hfp Hne Hrest) as [Hs Hv].
    rewrite safeParseFloat_startsNumeric, Hs, Hv. reflexivity. }
  split. { intro d. vm_compute. reflexivity. }
  split. { intro d. vm_compute. reflexivity. }
  split. { intro d. vm_compute. reflexivity. }
  split. { intro d. vm_compute. reflexivity. }
  split. { intro d. vm_compute. reflexivity. }
  split.
  { eexists. split; [intro d; vm_compute; reflexivity |].
    eexists. split; [vm_compute; reflexivity |]. vm_compute. reflexivity. }
  split. { intro d. vm_compute. reflexivity. }
  split. { intro d. vm_compute. reflexivity. }
  split. { intro d. vm_compute. reflexivity. }
  split. { intro d. vm_compute. reflexivity. }
  split. { intro d. vm_compute. reflexivity. }
  split. { intro d. vm_compute. reflexivity. }
  intro d. reflexivity.
Qed.

Lemma safeParseFloat_reads_leading_number_witness :
  safeParseFloat (Some " -1.5E+2 SAR"%string) None
  = Some (of_decimal true 15 (2 - 1)).
Proof.
  apply (proj1 (proj2 (proj2 (proj2 safeParseFloat_reads_leading_number)))).
  exists " "%string, "-"%string, true, "1.5E+2 SAR"%string.
  split; [reflexivity |].
  split; [split; [unfold blankChar; cbn; tauto | exact I] |].
  split; [right; right; split; reflexivity |].
  right. right. exists "1"%string, "5"%string, "E+2"%string, 2, " SAR"%string.
  split; [reflexivity |].
  split; [split; [unfold digitChar; cbn; lia | exact I] |].
  split; [split; [unfold digitChar; cbn; lia | exact I] |].
  split; [discriminate |].
  split.
  { right. exists "E"%char, "+"%string, false, "2"%string.
    split; [reflexivity |]. split; [right; reflexivity |].
    split; [right; left; split; reflexivity |].
    split; [split; [unfold digitChar; cbn; lia | exact I] |].
    split; [discriminate | reflexivity]. }
  split.
  { intros (c & r & E & H). injection E as <- _.
    unfold digitChar in H. cbn in H. lia. }
  split; [discriminate | reflexivity].
Defined.

(** * Further facts about the embedding *)

(** ** Sorting: permutations and ranks *)

Section SortPermutation.

Context {A : Type}.
Variable comparefn : A -> A -> number.

Lemma insert_Permutation (x : A) (l : list A) :
  Permutation (x :: l) (insert comparefn x l).
Proof.
  induction l as [| y l IH]; cbn [insert]; [apply Permutation_refl |].
  destruct (lt zero (comparefn x y)).
  - eapply perm_trans; [apply perm_swap |]. apply perm_skip. exact IH.
  - apply Permutation_refl.
Qed.

Lemma sort_Permutation (l : list A) : Permutation l (sort comparefn l).
Proof.
  induction l as [| x l IH]; [apply perm_nil |].
  change (sort comparefn (x :: l)) with (insert comparefn x (sort comparefn l)).
  eapply perm_trans; [apply perm_skip, IH | apply insert_Permutation].
Qed.

End SortPermutation.

Section Ranked.

Context {A : Type}.
Variable rank : A -> Z.

Lemma Sorted_rank_Strongly (l : list A) :
  Sorted (fun a b => rank a <= rank b) l ->
  StronglySorted (fun a b => rank a <= rank b) l.
Proof.
  apply Sorted_StronglySorted. intros a b c Hab Hbc. lia.
Qed.

Lemma Sorted_rank_head (x : A) (l : list A) :
  Sorted (fun a b => rank a <= rank b) (x :: l) ->
  Forall (fun b => rank x <= rank b) l.
Proof.
  intro H. apply Sorted_rank_Strongly in H.
  apply StronglySorted_inv in H. apply H.
Qed.

Lemma Sorted_rank_nth (l : list A) :
  Sorted (fun a b => rank a <= rank b) l ->
  forall i j a b, (i < j)%nat ->
                  nth_error l i = Some a -> nth_error l j = Some b ->
                  rank a <= rank b.
Proof.
  induction l as [| x l IH]; intros S i j a b Hij Ha Hb.
  - destruct i; discriminate.
  - destruct j as [| j]; [lia |].
    cbn [nth_error] in Hb.
    destruct i as [| i].
    + cbn [nth_error] in Ha. injection Ha as <-.
      pose proof (Sorted_rank_head _ _ S) as F.
      rewrite Forall_forall in F. apply F. eapply nth_error_In, Hb.
    + cbn [nth_error] in Ha.
      apply (IH (proj1 (Sorted_inv S)) i j); [lia | assumption | assumption].
Qed.

Lemma Sorted_rank_filter (p : A -> bool) (l : list A) :
  Sorted (fun a b => rank a <= rank b) l ->
  Sorted (fun a b => rank a <= rank b) (filter p l).
Proof.
  intro S. apply Sorted_rank_Strongly in S.
  apply StronglySorted_Sorted.
  induction S as [| x l S IH F]; cbn [filter]; [constructor |].
  destruct (p x); [| exact IH].
  constructor; [exact IH |].
  rewrite Forall_forall in *. intros b Hb.
  apply filter_In in Hb. apply F, Hb.
Qed.

End Ranked.

Lemma filter_all {A : Type} (p : A -> bool) (l : list A) :
  (forall x, In x l -> p x = true) -> filter p l = l.
Proof.
  induction l as [| x l IH]; intro H; [reflexivity |].
  cbn [filter]. rewrite (H x (or_introl eq_refl)). f_equal.
  apply IH. intros y Hy. apply H. right. exact Hy.
Qed.

Lemma Sorted_map_inv {A B : Type} (R : B -> B -> Prop) (f : A -> B)
      (l : list A) :
  Sorted R (map f l) -> Sorted (fun a b => R (f a) (f b)) l.
Proof.
  induction l as [| x l IH]; intro H; [constructor |].
  cbn [map] in H. inversion H as [| ? ? HS HH]; subst.
  constructor; [auto |].
  destruct l as [| y l]; [constructor |].
  cbn [map] in HH. inversion HH; subst. constructor. assumption.
Qed.

(** ** Signs and comparisons of finite Numbers *)

Section SignedNumbers.

Lemma signedOrd_sign (s : bool) (m : positive) (e : Z) :
  -1074 <= e ->
  if s then signedOrd (S754_finite s m e) < 0
  else 0 < signedOrd (S754_finite s m e).
Proof.
  intro He.
  assert (0 < 2 ^ (e + 1074)) by (apply Z.pow_pos_nonneg; lia).
  destruct s; cbn [signedOrd cond_Zopp]; nia.
Qed.

Lemma sub_sign (x y : number) :
  finiteValid x = true -> finiteValid y = true ->
  lt zero (sub x y) = (signedOrd y <? signedOrd x).
Proof.
  destruct x as [sx | | | sx mx ex]; try discriminate;
    destruct y as [sy | | | sy my ey]; try discriminate;
    cbn [finiteValid]; intros Hx Hy.
  - destruct sx, sy; reflexivity.
  - apply Z.leb_le in Hy.
    pose proof (signedOrd_sign sy my ey Hy) as Hs.
    change (signedOrd (S754_zero sx)) with 0.
    destruct sy; cbn [sub SFsub negb lt SFltb SFcompare zero];
      symmetry; [apply Z.ltb_lt | apply Z.ltb_ge]; lia.
  - apply Z.leb_le in Hx.
    pose proof (signedOrd_sign sx mx ex Hx) as Hs.
    change (signedOrd (S754_zero sy)) with 0.
    destruct sx; cbn [sub SFsub negb lt SFltb SFcompare zero];
      symmetry; [apply Z.ltb_ge | apply Z.ltb_lt]; lia.
  - apply Z.leb_le in Hx, Hy.
    unfold sub, SFsub. cbv zeta.
    set (ez := Z.min ex ey).
    assert (Hez : -1074 <= ez) by (unfold ez; lia).
    rewrite !shl_align_value by (unfold ez; lia).
    assert (Hox : signedOrd (S754_finite sx mx ex)
                  = cond_Zopp sx (Zpos mx * 2 ^ (ex - ez)) * 2 ^ (ez + 1074)).
    { cbn [signedOrd].
      replace (ex + 1074) with ((ex - ez) + (ez + 1074)) by lia.
      rewrite Z.pow_add_r by (unfold ez; lia).
      destruct sx; cbn [cond_Zopp]; ring. }
    assert (Hoy : signedOrd (S754_finite sy my ey)
                  = cond_Zopp sy (Zpos my * 2 ^ (ey - ez)) * 2 ^ (ez + 1074)).
    { cbn [signedOrd].
      replace (ey + 1074) with ((ey - ez) + (ez + 1074)) by lia.
      rewrite Z.pow_add_r by (unfold ez; lia).
      destruct sy; cbn [cond_Zopp]; ring. }
    rewrite Hox, Hoy.
    assert (HP : 0 < 2 ^ (ez + 1074)) by (apply Z.pow_pos_nonneg; lia).
    set (a := cond_Zopp sx (Zpos mx * 2 ^ (ex - ez))) in *.
    set (b := cond_Zopp sy (Zpos my * 2 ^ (ey - ez))) in *.
    set (P := 2 ^ (ez + 1074)) in *.
    destruct (a - b) as [| p | p] eqn:Hd; unfold binary_normalize.
    + replace a with b by lia. rewrite Z.ltb_irrefl. reflexivity.
    + rewrite (lt_zero_signed_nonzero false)
        by (apply binary_round_nonzero; exact Hez).
      symmetry. apply Z.ltb_lt. nia.
    + rewrite (lt_zero_signed_nonzero true)
        by (apply binary_round_nonzero; exact Hez).
      symmetry. apply Z.ltb_ge. nia.
Qed.

Lemma canonical_finiteValid (x : number) :
  canonical x = true -> finiteValid x = true.
Proof.
  destruct x as [| | | s m e]; cbn [canonical finiteValid]; try easy.
  intro H. apply andb_true_iff in H. apply H.
Qed.

Lemma posNormal_canonical (x : number) :
  posNormal x = true -> canonical x = true /\ signedOrd x = ord x.
Proof.
  destruct x as [| | | [] m e]; cbn [posNormal]; try discriminate.
  intro H. split; [exact H | reflexivity].
Qed.

Lemma compare_canonical (x y : number) :
  canonical x = true -> canonical y = true ->
  SFcompare x y = Some (signedOrd x ?= signedOrd y).
Proof.
  intros Hx Hy.
  pose proof (canonical_finiteValid _ Hx) as Vx.
  pose proof (canonical_finiteValid _ Hy) as Vy.
  destruct x as [sx | | | sx mx ex]; try discriminate;
    destruct y as [sy | | | sy my ey]; try discriminate.
  - reflexivity.
  - cbn [finiteValid] in Vy. apply Z.leb_le in Vy.
    pose proof (signedOrd_sign sy my ey Vy) as Hs.
    change (signedOrd (S754_zero sx)) with 0.
    cbn [SFcompare]. f_equal. symmetry.
    destruct sy; [apply Z.compare_gt_iff | apply Z.compare_lt_iff]; lia.
  - cbn [finiteValid] in Vx. apply Z.leb_le in Vx.
    pose proof (signedOrd_sign sx mx ex Vx) as Hs.
    change (signedOrd (S754_zero sy)) with 0.
    cbn [SFcompare]. f_equal. symmetry.
    destruct sx; [apply Z.compare_lt_iff | apply Z.compare_gt_iff]; lia.
  - cbn [finiteValid] in Vx, Vy. apply Z.leb_le in Vx, Vy.
    pose proof (signedOrd_sign sx mx ex Vx) as Sx.
    pose proof (signedOrd_sign sy my ey Vy) as Sy.
    pose proof (compare_posNormal (S754_finite false mx ex)
                                  (S754_finite false my ey) Hx Hy) as C.
    destruct sx, sy.
    + change (signedOrd (S754_finite true mx ex))
        with (- ord (S754_finite false mx ex)).
      change (signedOrd (S754_finite true my ey))
        with (- ord (S754_finite false my ey)).
      rewrite Z.compare_opp, Z.compare_antisym.
      set (c := ord _ ?= ord _) in *.
      cbn [SFcompare] in C |- *. injection C as C. rewrite <- C. f_equal.
      destruct (ex ?= ey); reflexivity.
    + cbn [SFcompare]. f_equal. symmetry. apply Z.compare_lt_iff. lia.
    + cbn [SFcompare]. f_equal. symmetry. apply Z.compare_gt_iff. lia.
    + exact C.
Qed.

Lemma lt_canonical (x y : number) :
  canonical x = true -> canonical y = true ->
  lt x y = (signedOrd x <? signedOrd y).
Proof.
  intros Hx Hy. unfold lt, SFltb. rewrite compare_canonical by assumption.
  unfold Z.ltb. destruct (signedOrd x ?= signedOrd y); reflexivity.
Qed.

Lemma le_canonical (x y : number) :
  canonical x = true -> canonical y = true ->
  le x y = (signedOrd x <=? signedOrd y).
Proof.
  intros Hx Hy. unfold le, SFleb. rewrite compare_canonical by assumption.
  unfold Z.leb. destruct (signedOrd x ?= signedOrd y); reflexivity.
Qed.

Lemma strict_eq_canonical (x y : number) :
  canonical x = true -> canonical y = true ->
  strict_eq x y = (signedOrd x =? signedOrd y).
Proof.
  intros Hx Hy. unfold strict_eq, SFeqb. rewrite compare_canonical by assumption.
  rewrite <- Z.eqb_compare. reflexivity.
Qed.

Lemma lt_posNormal (x y : number) :
  posNormal x = true -> posNormal y = true -> lt x y = (ord x <? ord y).
Proof.
  intros Hx Hy.
  destruct (posNormal_canonical _ Hx) as [Cx <-].
  destruct (posNormal_canonical _ Hy) as [Cy <-].
  apply lt_canonical; assumption.
Qed.

(** The Number of an integer below [2^53]. *)
Lemma of_Z_canonical (z : Z) :
  0 <= z < 2 ^ 53 ->
  canonical (of_Z z) = true /\ signedOrd (of_Z z) = z * 2 ^ 1074.
Proof.
  intros [H0 H1].
  destruct z as [| p | p]; [split; reflexivity | | lia].
  assert (Hd : Zpos (digits2_pos p) <= 53) by (apply digits2_le; lia).
  rewrite of_Z_canon by exact Hd.
  pose proof (canon_posNormal p 0 Hd ltac:(pose proof (Pos2Z.is_pos (digits2_pos p)); lia)) as N.
  destruct (posNormal_canonical _ N) as [C ->].
  split; [exact C |].
  rewrite canon_ord; [reflexivity | exact Hd |].
  pose proof (Pos2Z.is_pos (digits2_pos p)). lia.
Qed.

Lemma signedOrd_opp (x : number) : signedOrd (SFopp x) = - signedOrd x.
Proof.
  destruct x as [| | | [] m e]; cbn [SFopp signedOrd cond_Zopp negb]; lia.
Qed.

Lemma canonical_opp (x : number) : canonical (SFopp x) = canonical x.
Proof. destruct x; reflexivity. Qed.

End SignedNumbers.

(** ** Sets of values *)

Section SetFacts.

Context {A : Type}.
Variable same : A -> A -> bool.
Variable good : A -> Prop.

Hypothesis same_eq :
  forall x y, good x -> good y -> (same x y = true <-> x = y).

Lemma includes_In (set : list A) (x : A) :
  Forall good set -> good x -> (includes same set x = true <-> In x set).
Proof.
  intros F Gx. unfold includes. rewrite existsb_exists.
  rewrite Forall_forall in F. split.
  - intros (y & Hy & E). apply same_eq in E; auto. congruence.
  - intro Hin. exists x. split; [exact Hin |]. apply same_eq; auto.
Qed.

Lemma fold_setAdd (arr : list A) :
  Forall good arr ->
  forall set, Forall good set -> NoDup set ->
  NoDup (fold_left (setAdd same) arr set)
  /\ Forall good (fold_left (setAdd same) arr set)
  /\ forall y, In y (fold_left (setAdd same) arr set) <-> In y set \/ In y arr.
Proof.
  induction 1 as [| x arr Gx F IH]; intros set Fs N; cbn [fold_left].
  - split; [exact N |]. split; [exact Fs |]. intro y. cbn [In]. tauto.
  - unfold setAdd at 2 4 6.
    destruct (includes same set x) eqn:E.
    + apply includes_In in E; try assumption.
      destruct (IH set Fs N) as (N' & F' & I').
      split; [exact N' |]. split; [exact F' |].
      intro y. rewrite I'. cbn [In]. split; [tauto |].
      intros [H | [<- | H]]; auto.
    + assert (Hn : ~ In x set).
      { intro Hin. apply includes_In in Hin; try assumption. congruence. }
      assert (N2 : NoDup (set ++ [x])).
      { apply NoDup_app; [exact N | repeat constructor; intros [] |].
        intros a Ha [<- | []]. exact (Hn Ha). }
      assert (F2 : Forall good (set ++ [x])).
      { apply Forall_app. split; [exact Fs | repeat constructor; exact Gx]. }
      destruct (IH _ F2 N2) as (N' & F' & I').
      split; [exact N' |]. split; [exact F' |].
      intro y. rewrite I', in_app_iff. cbn [In]. tauto.
Qed.

Lemma setOf_spec (arr : list A) :
  Forall good arr ->
  NoDup (setOf same arr)
  /\ Forall good (setOf same arr)
  /\ forall y, In y (setOf same arr) <-> In y arr.
Proof.
  intro F. destruct (fold_setAdd arr F [] (Forall_nil _) (NoDup_nil _))
    as (N & G & I).
  split; [exact N |]. split; [exact G |].
  intro y. unfold setOf. rewrite I. cbn [In]. tauto.
Qed.

End SetFacts.

Lemma stringSet_spec (arr : list string) :
  NoDup (stringSet arr) /\ forall s, In s (stringSet arr) <-> In s arr.
Proof.
  destruct (setOf_spec String.eqb (fun _ => True)
                       (fun x y _ _ => String.eqb_eq x y) arr) as (N & _ & I).
  - apply Forall_forall. auto.
  - auto.
Qed.

Lemma sameValueZero_canonical (x y : number) :
  canonical x = true -> canonical y = true ->
  plusZero x = x -> plusZero y = y ->
  (sameValueZero x y = true <-> x = y).
Proof.
  intros Cx Cy Px Py. unfold sameValueZero.
  destruct x as [sx | | | sx mx ex]; try discriminate;
    destruct y as [sy | | | sy my ey]; try discriminate;
    cbn [isNaN andb orb].
  - cbn [plusZero] in Px, Py. unfold zero in *. split; [congruence | reflexivity].
  - split; [| discriminate]. unfold strict_eq, SFeqb. cbn [SFcompare].
    destruct sy; discriminate.
  - split; [| discriminate]. unfold strict_eq, SFeqb. cbn [SFcompare].
    destruct sx; discriminate.
  - unfold strict_eq, SFeqb. cbn [SFcompare]. split.
    + destruct sx, sy; try discriminate;
        destruct (Z.compare_spec ex ey) as [-> | |]; try discriminate;
        destruct (Pos.compare_cont Eq mx my) eqn:Hm; try discriminate;
        apply Pos.compare_eq in Hm; congruence.
    + intro E. injection E as -> -> ->.
      rewrite Z.compare_refl.
      change (Pos.compare_cont Eq my my) with (Pos.compare my my).
      rewrite Pos.compare_refl. destruct sy; reflexivity.
Qed.

(** ** Processed rows *)

Section RowFacts2.

Lemma out_key (rawData : list RawDataRow) (out : list ProcessedDataRow)
      (r : ProcessedDataRow) :
  processFinancialData rawData = Normal out -> In r out ->
  exists q y,
    QuarterLabel (Quarter r) q y /\ 0 <= y <= 9999 /\ 1 <= q <= 4
    /\ Year r = of_Z y /\ quarterIndex r = of_Z q
    /\ posNormal (sortKey r) = true
    /\ ord (sortKey r) = (4 * y + q) * 2 ^ 1072.
Proof.
  intros H Hin.
  destruct (out_source _ _ _ H Hin) as (index & row & pk & _ & Hpk & Hm).
  pose proof Hpk as Hpk'.
  apply parseQuarter_Normal in Hpk.
  destruct Hpk as (q & y & HL & Hy & Ey & Eq & Ek & Hn & _).
  assert (EQ : Quarter r = raw_Quarter row).
  { change (Quarter r) with (Quarter (metricsOf r)). rewrite Hm. reflexivity. }
  assert (EK : sortKey r = pk_sortKey pk).
  { change (sortKey r) with (sortKey (metricsOf r)). rewrite Hm. reflexivity. }
  rewrite <- EQ in HL.
  destruct (out_period _ _ _ _ _ H Hin HL) as (Yr & Qr & By & Bq).
  exists q, y. repeat (split; [assumption |]).
  rewrite EK. split; [exact Hn |].
  rewrite Ek, add_quarter by assumption.
  assert (Hd : Zpos (digits2_pos (Z.to_pos (4 * y + q))) <= 53).
  { apply digits2_le; [lia |]. rewrite Z2Pos.id by lia.
    apply Z.lt_trans with (2 ^ 16); [| reflexivity].
    change (2 ^ 16) with 65536. lia. }
  rewrite canon_ord; [| exact Hd |].
  - rewrite Z2Pos.id by lia. reflexivity.
  - pose proof (Pos2Z.is_pos (digits2_pos (Z.to_pos (4 * y + q)))). lia.
Qed.

Lemma out_posNormal (rawData : list RawDataRow) (out : list ProcessedDataRow) :
  processFinancialData rawData = Normal out ->
  Forall (fun r => posNormal (sortKey r) = true) out.
Proof.
  intro H. apply Forall_forall. intros r Hin.
  destruct (out_key _ _ _ H Hin) as (q & y & _ & _ & _ & _ & _ & N & _).
  exact N.
Qed.

Lemma out_Sorted (rawData : list RawDataRow) (out : list ProcessedDataRow) :
  processFinancialData rawData = Normal out ->
  Sorted (fun a b => ord (sortKey a) <= ord (sortKey b)) out.
Proof.
  intro H.
  destruct (process_Normal _ _ H) as (rows & _ & F & _ & Hm).
  pose proof (sort_Sorted bySortKey (fun r => ord (sortKey r))
                          firstPassRow bySortKey_rank rows F) as S.
  rewrite <- Hm in S.
  apply Sorted_map_inv in S. exact S.
Qed.

Lemma same_label_same_key (rawData : list RawDataRow)
      (out : list ProcessedDataRow) (a b : ProcessedDataRow) :
  processFinancialData rawData = Normal out -> In a out -> In b out ->
  Quarter a = Quarter b -> ord (sortKey a) = ord (sortKey b).
Proof.
  intros H Ha Hb E.
  destruct (out_key _ _ _ H Ha) as (q & y & HL & _ & _ & _ & _ & _ & ->).
  destruct (out_key _ _ _ H Hb) as (q' & y' & HL' & _ & _ & _ & _ & _ & ->).
  rewrite E in HL.
  destruct (QuarterLabel_unique _ _ _ _ _ HL HL') as [-> ->]. reflexivity.
Qed.

End RowFacts2.

(** * Further properties of [processFinancialData] *)

Section IdFacts.

Lemma split_nonempty (sep : ascii) (s : string) : split sep s <> [].
Proof.
  destruct s as [| c r]; cbn [split]; [discriminate |].
  destruct (Ascii.eqb c sep); [discriminate |].
  destruct (split sep r); discriminate.
Qed.

Lemma split_app (sep : ascii) (a b : string) :
  split sep (a ++ String sep b)%string = split sep a ++ split sep b.
Proof.
  induction a as [| c a IH]; cbn [append split].
  - rewrite Ascii.eqb_refl. reflexivity.
  - destruct (Ascii.eqb c sep).
    + rewrite IH. reflexivity.
    + rewrite IH. pose proof (split_nonempty sep a) as Hn.
      destruct (split sep a) as [| h t]; [contradiction | reflexivity].
Qed.

Lemma last_app_nonempty {A : Type} (l1 l2 : list A) (d : A) :
  l2 <> [] -> last (l1 ++ l2) d = last l2 d.
Proof.
  intro Hn. induction l1 as [| x l1 IH]; [reflexivity |].
  cbn [app]. change (last (x :: l1 ++ l2) d)
    with (match l1 ++ l2 with [] => x | _ :: _ => last (l1 ++ l2) d end).
  destruct (l1 ++ l2) eqn:E; [| exact IH].
  apply app_eq_nil in E. destruct E as [_ E]. contradiction.
Qed.

Lemma lastSegment_app (a b : string) :
  lastSegment (a ++ String "-" b)%string = lastSegment b.
Proof.
  unfold lastSegment. rewrite split_app.
  apply last_app_nonempty, split_nonempty.
Qed.

Lemma split_uint (d : Decimal.uint) :
  split "-" (NilEmpty.string_of_uint d) = [NilEmpty.string_of_uint d].
Proof.
  induction d; cbn [NilEmpty.string_of_uint split]; try reflexivity;
    rewrite IHd; reflexivity.
Qed.

Lemma lastSegment_index (a : string) (n : nat) :
  lastSegment (a ++ "-" ++ indexToString n)%string = indexToString n.
Proof.
  change ("-" ++ indexToString n)%string with (String "-" (indexToString n)).
  rewrite lastSegment_app. unfold lastSegment, indexToString.
  rewrite split_uint. reflexivity.
Qed.

Lemma indexToString_inj (n n' : nat) :
  indexToString n = indexToString n' -> n = n'.
Proof.
  unfold indexToString. intro E.
  apply Unsigned.to_uint_inj.
  pose proof (NilEmpty.usu (Nat.to_uint n)) as U.
  rewrite E, NilEmpty.usu in U. congruence.
Qed.

Lemma lastSegment_id (row : RawDataRow) (index : nat) (pk : PeriodKey) :
  lastSegment (id (rowMetrics row index pk)) = indexToString index.
Proof.
  cbn [rowMetrics id].
  change ("-" ++ orAll (raw_Region row) ++ "-" ++ orAll (raw_Product row)
          ++ "-" ++ indexToString index)%string
    with (String "-" (orAll (raw_Region row) ++ "-" ++ orAll (raw_Product row)
                      ++ "-" ++ indexToString index))%string.
  rewrite lastSegment_app.
  change ("-" ++ orAll (raw_Product row) ++ "-" ++ indexToString index)%string
    with (String "-" (orAll (raw_Product row) ++ "-" ++ indexToString index))%string.
  rewrite lastSegment_app.
  apply lastSegment_index.
Qed.

Lemma mapFrom_normalizeRow_ids (l : list RawDataRow) :
  forall i rows,
    mapFrom normalizeRow i l = Normal rows ->
    map (fun r => lastSegment (id r)) rows
    = map indexToString (seq i (List.length l)).
Proof.
  induction l as [| row l IH]; intros i rows H; cbn [mapFrom] in H.
  - injection H as <-. reflexivity.
  - destruct (normalizeRow row i) as [r | m] eqn:E; [| discriminate].
    destruct (mapFrom normalizeRow (S i) l) as [ys | m] eqn:E2; [| discriminate].
    injection H as <-.
    apply normalizeRow_Normal in E. destruct E as (pk & _ & ->).
    cbn [map List.length seq]. rewrite lastSegment_id.
    f_equal. apply IH. exact E2.
Qed.

Lemma NoDup_map_inj {A B : Type} (f : A -> B) (l : list A) :
  (forall x y, f x = f y -> x = y) -> NoDup l -> NoDup (map f l).
Proof.
  intros Hf N. induction N as [| x l Hx N IH]; cbn [map]; constructor.
  - intro Hin. apply in_map_iff in Hin. destruct Hin as (y & E & Hy).
    apply Hf in E. subst y. contradiction.
  - exact IH.
Qed.

Lemma mapFrom_normalizeRow_quarters (l : list RawDataRow) :
  forall i rows,
    mapFrom normalizeRow i l = Normal rows ->
    map Quarter rows = map raw_Quarter l.
Proof.
  induction l as [| row l IH]; intros i rows H; cbn [mapFrom] in H.
  - injection H as <-. reflexivity.
  - destruct (normalizeRow row i) as [r | m] eqn:E; [| discriminate].
    destruct (mapFrom normalizeRow (S i) l) as [ys | m] eqn:E2; [| discriminate].
    injection H as <-.
    apply normalizeRow_Normal in E. destruct E as (pk & _ & ->).
    cbn [map]. f_equal. eapply IH, E2.
Qed.

End IdFacts.

(** ** The output keeps every row once *)

(** X1. Processing neither drops nor repeats a row: the output rows,
    growth fields apart, are a permutation of the rows the first pass
    built, so the period labels of the output are those of the input
    with their multiplicities. *)
Theorem output_permutes_first_pass :
  forall rawData out,
    processFinancialData rawData = Normal out ->
    exists rows,
      mapThrowing normalizeRow rawData = Normal rows
      /\ Permutation rows (map metricsOf out)
      /\ Permutation (map raw_Quarter rawData) (map Quarter out).
Proof.
  intros rawData out H.
  destruct (process_Normal _ _ H) as (rows & Hrows & _ & _ & Hm).
  exists rows. split; [exact Hrows |].
  assert (P : Permutation rows (map metricsOf out))
    by (rewrite Hm; apply sort_Permutation).
  split; [exact P |].
  rewrite <- (mapFrom_normalizeRow_quarters _ _ _ Hrows).
  replace (map Quarter out) with (map Quarter (map metricsOf out))
    by (rewrite map_map; reflexivity).
  apply Permutation_map. exact P.
Qed.

Lemma output_permutes_first_pass_witness :
  exists rows,
    mapThrowing normalizeRow twoYears = Normal rows
    /\ Permutation rows (map metricsOf (rowsOf twoYears))
    /\ Permutation (map raw_Quarter twoYears) (map Quarter (rowsOf twoYears)).
Proof.
  apply (output_permutes_first_pass twoYears (rowsOf twoYears)).
  vm_compute; reflexivity.
Defined.

(** ** Row identifiers *)

(** X2. The identifiers of the output rows are pairwise distinct: each
    is the row's label, region and product followed by the index the
    row had in the input, and that index is what follows the last
    hyphen of the identifier. *)
Theorem ids_are_distinct :
  forall rawData out,
    processFinancialData rawData = Normal out ->
    NoDup (map id out)
    /\ forall r, In r out ->
         exists index row,
           nth_error rawData index = Some row
           /\ id r = (raw_Quarter row ++ "-" ++ Region r ++ "-" ++ Product r
                      ++ "-" ++ indexToString index)%string
           /\ lastSegment (id r) = indexToString index.
Proof.
  intros rawData out H. split.
  - destruct (process_Normal _ _ H) as (rows & Hrows & _ & _ & Hm).
    assert (N : NoDup (map id rows)).
    { apply (NoDup_map_inv lastSegment). rewrite map_map.
      rewrite (mapFrom_normalizeRow_ids _ _ _ Hrows).
      apply NoDup_map_inj; [exact indexToString_inj | apply seq_NoDup]. }
    replace (map id out) with (map id (map metricsOf out))
      by (rewrite map_map; reflexivity).
    rewrite Hm.
    eapply Permutation_NoDup; [| exact N].
    apply Permutation_map, sort_Permutation.
  - intros r Hin.
    destruct (out_source _ _ _ H Hin) as (index & row & pk & Hrow & _ & Hm).
    exists index, row. split; [exact Hrow |].
    change (id r) with (id (metricsOf r)).
    change (Region r) with (Region (metricsOf r)).
    change (Product r) with (Product (metricsOf r)).
    rewrite Hm. split; [reflexivity | apply lastSegment_id].
Qed.

Lemma ids_are_distinct_witness :
  NoDup (map id (rowsOf twoYears))
  /\ forall r, In r (rowsOf twoYears) ->
       exists index row,
         nth_error twoYears index = Some row
         /\ id r = (raw_Quarter row ++ "-" ++ Region r ++ "-" ++ Product r
                    ++ "-" ++ indexToString index)%string
         /\ lastSegment (id r) = indexToString index.
Proof.
  apply (ids_are_distinct twoYears (rowsOf twoYears)).
  vm_compute; reflexivity.
Defined.

(** ** Region and product *)

(** X3. The region and the product of an output row are never empty:
    an absent or empty field gives [All], and any other text is kept as
    it is, blank text included (unlike a numeric field, which is
    trimmed before it is tested). *)
Theorem segment_defaults_to_All :
  forall rawData out,
    processFinancialData rawData = Normal out ->
    forall r, In r out ->
      Region r <> EmptyString /\ Product r <> EmptyString
      /\ exists index row,
           nth_error rawData index = Some row
           /\ Quarter r = raw_Quarter row
           /\ (raw_Region row = None \/ raw_Region row = Some EmptyString ->
               Region r = "All"%string)
           /\ (forall s, raw_Region row = Some s -> s <> EmptyString ->
                         Region r = s)
           /\ (raw_Product row = None \/ raw_Product row = Some EmptyString ->
               Product r = "All"%string)
           /\ (forall s, raw_Product row = Some s -> s <> EmptyString ->
                         Product r = s).
Proof.
  intros rawData out H r Hin.
  destruct (out_source _ _ _ H Hin) as (index & row & pk & Hrow & _ & Hm).
  assert (ER : Region r = orAll (raw_Region row)).
  { change (Region r) with (Region (metricsOf r)). rewrite Hm. reflexivity. }
  assert (EP : Product r = orAll (raw_Product row)).
  { change (Product r) with (Product (metricsOf r)). rewrite Hm. reflexivity. }
  assert (EQ : Quarter r = raw_Quarter row).
  { change (Quarter r) with (Quarter (metricsOf r)). rewrite Hm. reflexivity. }
  rewrite ER, EP.
  split; [| split].
  - destruct (raw_Region row) as [[| c s] |]; discriminate.
  - destruct (raw_Product row) as [[| c s] |]; discriminate.
  - exists index, row. split; [exact Hrow |]. split; [exact EQ |].
    split; [| split; [| split]].
    + intros [-> | ->]; reflexivity.
    + intros s -> Hs. destruct s; [contradiction | reflexivity].
    + intros [-> | ->]; reflexivity.
    + intros s -> Hs. destruct s; [contradiction | reflexivity].
Qed.

Lemma segment_defaults_to_All_witness :
  exists r, nth_error (rowsOf threeQuarters) 0 = Some r
            /\ Region r <> EmptyString /\ Product r <> EmptyString.
Proof.
  eexists. split; [vm_compute; reflexivity |].
  pose proof (segment_defaults_to_All
                threeQuarters (rowsOf threeQuarters)
                ltac:(vm_compute; reflexivity) _
                (nth_error_In (rowsOf threeQuarters) 0
                              ltac:(vm_compute; reflexivity)))
    as (HR & HP & _).
  split; [exact HR | exact HP].
Defined.

(** ** Where a year-over-year peer lies *)

Section PeerFacts.

Lemma peer_is_earlier (rawData : list RawDataRow) (out : list ProcessedDataRow)
      (r d : ProcessedDataRow) :
  processFinancialData rawData = Normal out -> In r out -> In d out ->
  Peer r d -> ord (sortKey d) < ord (sortKey r).
Proof.
  intros H Hr Hd (Py & Pq & _ & _).
  destruct (out_key _ _ _ H Hr) as (q & y & _ & By & Bq & Yr & Qr & _ & ->).
  destruct (out_key _ _ _ H Hd) as (q' & y' & _ & By' & Bq' & Yd & Qd & _ & ->).
  rewrite Yr, Yd, sub_one in Py by assumption.
  rewrite Qr, Qd in Pq.
  rewrite of_Z_strict_eq in Py, Pq by lia.
  apply Z.eqb_eq in Py, Pq. subst.
  apply Z.mul_lt_mono_pos_r; [reflexivity | lia].
Qed.

End PeerFacts.

(** X4. A year-over-year peer of an output row always stands before it
    in the output, with a smaller sort key; so the first output row has
    no growth figure at all, and a row of the earliest year of the
    batch has no year-over-year growth. *)
Theorem yoy_peer_precedes_row :
  forall rawData out,
    processFinancialData rawData = Normal out ->
    (forall i j r d,
        nth_error out i = Some r -> nth_error out j = Some d ->
        Peer r d ->
        (j < i)%nat /\ lt (sortKey d) (sortKey r) = true)
    /\ (forall r,
           nth_error out 0 = Some r ->
           qoqRevenueGrowth r = None /\ qoqNetIncomeGrowth r = None
           /\ yoyRevenueGrowth r = None /\ yoyNetIncomeGrowth r = None)
    /\ (forall r,
           In r out ->
           (forall d, In d out -> le (Year r) (Year d) = true) ->
           yoyRevenueGrowth r = None /\ yoyNetIncomeGrowth r = None).
Proof.
  intros rawData out H.
  assert (A : forall i j r d,
             nth_error out i = Some r -> nth_error out j = Some d ->
             Peer r d ->
             (j < i)%nat /\ lt (sortKey d) (sortKey r) = true).
  { intros i j r d Hr Hd P.
    pose proof (nth_error_In _ _ Hr) as Ir.
    pose proof (nth_error_In _ _ Hd) as Id.
    pose proof (peer_is_earlier _ _ _ _ H Ir Id P) as Hlt.
    pose proof (out_posNormal _ _ H) as F. rewrite Forall_forall in F.
    split.
    - destruct (Nat.lt_ge_cases j i) as [Hji | Hij]; [exact Hji | exfalso].
      destruct (Nat.eq_dec i j) as [-> | Hne].
      + rewrite Hr in Hd. injection Hd as ->. lia.
      + pose proof (Sorted_rank_nth (fun r => ord (sortKey r)) out
                                    (out_Sorted _ _ H) i j r d
                                    ltac:(lia) Hr Hd) as Hle.
        cbn beta in Hle. lia.
    - rewrite lt_posNormal by auto. apply Z.ltb_lt. exact Hlt. }
  split; [exact A |]. split.
  - intros r Hr.
    destruct (out_qoq _ _ _ _ H Hr) as [Q1 Q2].
    destruct (out_yoy _ _ _ _ H Hr) as [Y1 Y2].
    cbn [previousRow] in Q1, Q2.
    split; [exact Q1 |]. split; [exact Q2 |].
    destruct (find (isPrevYearQuarter r) out) as [p |] eqn:F; [| auto].
    exfalso. apply find_some in F. destruct F as [Hin Hp].
    apply In_nth_error in Hin. destruct Hin as (j & Hj).
    apply isPrevYearQuarter_Peer in Hp.
    destruct (A _ _ _ _ Hr Hj Hp) as [Hlt _]. lia.
  - intros r Hr Hmin.
    apply In_nth_error in Hr. destruct Hr as (i & Hr).
    destruct (out_yoy _ _ _ _ H Hr) as [Y1 Y2].
    destruct (find (isPrevYearQuarter r) out) as [p |] eqn:F; [| auto].
    exfalso. apply find_some in F. destruct F as [Hin Hp].
    apply isPrevYearQuarter_Peer in Hp.
    pose proof (Hmin p Hin) as Hle.
    pose proof (nth_error_In _ _ Hr) as Ir.
    destruct Hp as (Py & _).
    destruct (out_key _ _ _ H Ir) as (q & y & _ & By & _ & Yr & _).
    destruct (out_key _ _ _ H Hin) as (q' & y' & _ & By' & _ & Yd & _).
    rewrite Yr, Yd, sub_one in Py by assumption.
    rewrite of_Z_strict_eq in Py by lia. apply Z.eqb_eq in Py.
    rewrite Yr, Yd in Hle.
    assert (P53 : 2 ^ 53 = 9007199254740992) by reflexivity.
    destruct (of_Z_canonical y) as [Cy Oy]; [lia |].
    destruct (of_Z_canonical y') as [Cy' Oy']; [lia |].
    rewrite le_canonical in Hle by assumption.
    apply Z.leb_le in Hle. rewrite Oy, Oy' in Hle.
    assert (0 < 2 ^ 1074) by reflexivity. nia.
Qed.

Lemma yoy_peer_precedes_row_witness :
  exists r,
    nth_error (rowsOf twoYears) 0 = Some r
    /\ qoqRevenueGrowth r = None /\ qoqNetIncomeGrowth r = None
    /\ yoyRevenueGrowth r = None /\ yoyNetIncomeGrowth r = None.
Proof.
  eexists. split; [vm_compute; reflexivity |].
  apply (proj1 (proj2 (yoy_peer_precedes_row twoYears (rowsOf twoYears)
                         ltac:(vm_compute; reflexivity)))).
  vm_compute; reflexivity.
Defined.

(** ** Batches put together *)

Section AppendFacts.

Lemma mapFrom_app {A B : Type} (f : A -> nat -> completion B) (a b : list A) :
  forall i,
    mapFrom f i (a ++ b)
    = match mapFrom f i a with
      | Throw m => Throw m
      | Normal ya =>
          match mapFrom f (i + List.length a)%nat b with
          | Throw m => Throw m
          | Normal yb => Normal (ya ++ yb)
          end
      end.
Proof.
  induction a as [| x a IH]; intro i; cbn [app mapFrom List.length].
  - rewrite Nat.add_0_r. destruct (mapFrom f i b); reflexivity.
  - destruct (f x i) as [y | m]; [| reflexivity].
    rewrite IH. replace (S i + List.length a)%nat
      with (i + S (List.length a))%nat by lia.
    destruct (mapFrom f (S i) a) as [ya | m]; [| reflexivity].
    destruct (mapFrom f (i + S (List.length a))%nat b); reflexivity.
Qed.

Lemma mapiFrom_length {A B : Type} (f : A -> nat -> B) (l : list A) :
  forall i, List.length (mapiFrom f i l) = List.length l.
Proof.
  induction l as [| x l IH]; intro i; cbn [mapiFrom List.length]; auto.
Qed.

Lemma normalizeRow_Throw_index (row : RawDataRow) (i j : nat) (m : string) :
  normalizeRow row i = Throw m -> normalizeRow row j = Throw m.
Proof.
  unfold normalizeRow. destruct (parseQuarter (raw_Quarter row)); [discriminate |].
  auto.
Qed.

Lemma mapFrom_normalizeRow_Throw_index (l : list RawDataRow) :
  forall i j m,
    mapFrom normalizeRow i l = Throw m -> mapFrom normalizeRow j l = Throw m.
Proof.
  induction l as [| row l IH]; intros i j m H; cbn [mapFrom] in *; [discriminate |].
  destruct (normalizeRow row i) as [r | m'] eqn:E.
  - destruct (normalizeRow row j) as [r' | m''] eqn:E'.
    + destruct (mapFrom normalizeRow (S i) l) as [ys | m3] eqn:E2; [discriminate |].
      injection H as <-. rewrite (IH _ (S j) _ E2). reflexivity.
    + unfold normalizeRow in E, E'.
      destruct (parseQuarter (raw_Quarter row)); discriminate.
  - injection H as <-. rewrite (normalizeRow_Throw_index _ _ j _ E). reflexivity.
Qed.

End AppendFacts.

(** X5. The failure of a batch is the failure of its first failing part:
    when a batch fails, so does the batch followed by any rows, with
    the same message; when it parses and a second batch fails, the two
    together fail with the message of the second; and two batches that
    parse give, together, a batch that parses to as many rows as both. *)
Theorem failure_of_appended_batches :
  forall a b,
    (forall m, processFinancialData a = Throw m ->
               processFinancialData (a ++ b) = Throw m)
    /\ (forall outA m,
           processFinancialData a = Normal outA ->
           processFinancialData b = Throw m ->
           processFinancialData (a ++ b) = Throw m)
    /\ (forall outA outB,
           processFinancialData a = Normal outA ->
           processFinancialData b = Normal outB ->
           exists out,
             processFinancialData (a ++ b) = Normal out
             /\ List.length out = (List.length outA + List.length outB)%nat).
Proof.
  intros a b. unfold processFinancialData, mapThrowing.
  rewrite mapFrom_app. cbn [Nat.add].
  split; [| split].
  - intros m H. destruct (mapFrom normalizeRow 0 a); [discriminate | exact H].
  - intros outA m Ha Hb.
    destruct (mapFrom normalizeRow 0 a) as [ya | m']; [| discriminate].
    destruct (mapFrom normalizeRow 0 b) as [yb | m2] eqn:E; [discriminate |].
    injection Hb as <-.
    rewrite (mapFrom_normalizeRow_Throw_index _ _ (List.length a) _ E).
    reflexivity.
  - intros outA outB Ha Hb.
    destruct (mapFrom normalizeRow 0 a) as [ya | m'] eqn:Ea; [| discriminate].
    destruct (mapFrom normalizeRow 0 b) as [yb | m2] eqn:Eb; [| discriminate].
    injection Ha as <-. injection Hb as <-.
    destruct (mapFrom normalizeRow (List.length a) b) as [yb' | m3] eqn:Eb'.
    + eexists. split; [reflexivity |].
      pose proof (mapFrom_length _ _ _ _ Eb) as L1.
      pose proof (mapFrom_length _ _ _ _ Eb') as L2.
      unfold mapi. rewrite !mapiFrom_length, !sort_length, length_app. lia.
    + rewrite (mapFrom_normalizeRow_Throw_index _ _ 0%nat _ Eb') in Eb. discriminate.
Qed.

Lemma failure_of_appended_batches_witness :
  processFinancialData (threeQuarters ++ wrongOrder)
  = Throw (invalidQuarterMessage "2023-Q1").
Proof.
  apply (proj1 (proj2 (failure_of_appended_batches threeQuarters wrongOrder))
               (rowsOf threeQuarters)).
  - vm_compute; reflexivity.
  - vm_compute; reflexivity.
Defined.

(** * The rows the dashboard is given *)

Section ShownRows.

Lemma filteredData_In (filters : Filters) (data : list ProcessedDataRow)
      (r : ProcessedDataRow) :
  In r (filteredData filters data) -> In r data.
Proof. intro H. apply filter_In in H. apply H. Qed.

Lemma shown_Sorted (rawData : list RawDataRow) (out : list ProcessedDataRow)
      (filters : Filters) :
  processFinancialData rawData = Normal out ->
  Sorted (fun a b => ord (sortKey a) <= ord (sortKey b))
         (filteredData filters out).
Proof.
  intro H. apply (Sorted_rank_filter (fun r => ord (sortKey r))).
  exact (out_Sorted _ _ H).
Qed.

Lemma shown_posNormal (rawData : list RawDataRow) (out : list ProcessedDataRow)
      (filters : Filters) :
  processFinancialData rawData = Normal out ->
  Forall (fun r => posNormal (sortKey r) = true) (filteredData filters out).
Proof.
  intro H. pose proof (out_posNormal _ _ H) as F.
  rewrite Forall_forall in *. intros r Hr. apply F.
  eapply filteredData_In, Hr.
Qed.

Lemma Sorted_rank_app {A : Type} (rank : A -> Z) (l1 l2 : list A) (x : A) :
  Sorted (fun a b => rank a <= rank b) (l1 ++ x :: l2) ->
  Forall (fun d => rank x <= rank d) l2.
Proof.
  induction l1 as [| y l1 IH]; cbn [app]; intro S.
  - apply Sorted_rank_head. exact S.
  - apply IH. apply Sorted_inv in S. apply S.
Qed.

Lemma digit_inj (c c' : ascii) :
  digitValue c = digitValue c' -> c = c'.
Proof.
  unfold digitValue, code. intro E.
  assert (N_of_ascii c = N_of_ascii c') by lia.
  rewrite <- (ascii_N_embedding c), <- (ascii_N_embedding c'). congruence.
Qed.

Lemma QuarterLabel_inj (s s' : string) (q y : Z) :
  QuarterLabel s q y -> QuarterLabel s' q y -> s = s'.
Proof.
  intros (c & d1 & d2 & d3 & d4 & -> & _ & D1 & D2 & D3 & D4 & Eq & _ & Ey)
         (c' & e1 & e2 & e3 & e4 & -> & _ & E1 & E2 & E3 & E4 & Eq' & _ & Ey').
  apply isDigit_value in D1, D2, D3, D4, E1, E2, E3, E4.
  assert (digitValue c = digitValue c') by congruence.
  assert (digitValue d1 = digitValue e1) by lia.
  assert (digitValue d2 = digitValue e2) by lia.
  assert (digitValue d3 = digitValue e3) by lia.
  assert (digitValue d4 = digitValue e4) by lia.
  f_equal; apply digit_inj; assumption.
Qed.

Lemma same_key_same_label (rawData : list RawDataRow)
      (out : list ProcessedDataRow) (a b : ProcessedDataRow) :
  processFinancialData rawData = Normal out -> In a out -> In b out ->
  ord (sortKey a) = ord (sortKey b) -> Quarter a = Quarter b.
Proof.
  intros H Ha Hb E.
  destruct (out_key _ _ _ H Ha) as (q & y & HL & _ & Bq & _ & _ & _ & Oa).
  destruct (out_key _ _ _ H Hb) as (q' & y' & HL' & _ & Bq' & _ & _ & _ & Ob).
  rewrite Oa, Ob in E.
  apply Z.mul_cancel_r in E; [| discriminate].
  assert (y = y') by lia. assert (q = q') by lia. subst.
  exact (QuarterLabel_inj _ _ _ _ HL HL').
Qed.

End ShownRows.

(** ** Years of processed rows *)

Section YearFacts.

(** The Number of a year between 0 and 9999. *)
Lemma year_number (y : Z) :
  0 <= y <= 9999 ->
  canonical (of_Z y) = true /\ plusZero (of_Z y) = of_Z y
  /\ signedOrd (of_Z y) = y * 2 ^ 1074.
Proof.
  intro H.
  assert (P53 : 2 ^ 53 = 9007199254740992) by reflexivity.
  destruct (of_Z_canonical y) as [C O]; [lia |].
  split; [exact C |]. split; [| exact O].
  destruct y as [| p | p]; [reflexivity | | lia].
  rewrite of_Z_canon; [reflexivity |].
  apply digits2_le; lia.
Qed.

Lemma descending_number_rank (x y : number) :
  canonical x = true /\ plusZero x = x ->
  canonical y = true /\ plusZero y = y ->
  lt zero (sub y x) = (- signedOrd y <? - signedOrd x).
Proof.
  intros [Cx _] [Cy _].
  rewrite sub_sign by (apply canonical_finiteValid; assumption).
  destruct (Z.ltb_spec (signedOrd x) (signedOrd y));
    symmetry; [apply Z.ltb_lt | apply Z.ltb_ge]; lia.
Qed.

Lemma out_years (rawData : list RawDataRow) (out : list ProcessedDataRow) :
  processFinancialData rawData = Normal out ->
  Forall (fun x => canonical x = true /\ plusZero x = x) (map Year out).
Proof.
  intro H. apply Forall_forall. intros x Hx.
  apply in_map_iff in Hx. destruct Hx as (r & <- & Hr).
  destruct (out_key _ _ _ H Hr) as (q & y & _ & By & _ & -> & _).
  destruct (year_number y By) as (C & P & _). auto.
Qed.

Lemma availableYears_spec (rawData : list RawDataRow)
      (out : list ProcessedDataRow) :
  processFinancialData rawData = Normal out ->
  NoDup (availableYears out)
  /\ Forall (fun x => canonical x = true /\ plusZero x = x) (availableYears out)
  /\ (forall y, In y (availableYears out) <-> exists r, In r out /\ Year r = y)
  /\ Sorted (fun a b => - signedOrd a <= - signedOrd b) (availableYears out).
Proof.
  intro H. pose proof (out_years _ _ H) as G.
  assert (E : map plusZero (map Year out) = map Year out).
  { apply map_fixed. eapply Forall_impl; [| exact G]. intros x [_ P]. exact P. }
  unfold availableYears, numberSet. rewrite E.
  destruct (setOf_spec sameValueZero
              (fun x => canonical x = true /\ plusZero x = x)
              (fun x y Gx Gy =>
                 sameValueZero_canonical x y (proj1 Gx) (proj1 Gy)
                                         (proj2 Gx) (proj2 Gy))
              (map Year out) G) as (N & F & I).
  split.
  { eapply Permutation_NoDup; [apply sort_Permutation | exact N]. }
  split; [apply sort_Forall; exact F |].
  split.
  { intro y. rewrite sort_In, I, in_map_iff.
    split; intros (r & A & B); exists r; auto. }
  apply (sort_Sorted (fun a b => sub b a) (fun x => - signedOrd x)
                     (fun x => canonical x = true /\ plusZero x = x)
                     descending_number_rank _ F).
Qed.

End YearFacts.

(** ** [filteredData] *)

Section FilterFacts.

Lemma includes_string (l : list string) (s : string) :
  includes String.eqb l s = true <-> In s l.
Proof.
  unfold includes. rewrite existsb_exists. split.
  - intros (y & Hy & E). apply String.eqb_eq in E. congruence.
  - intro H. exists s. split; [exact H | apply String.eqb_refl].
Qed.

Lemma empty_length {A : Type} (l : list A) :
  Nat.eqb (List.length l) 0 = true <-> l = [].
Proof. destruct l; cbn; split; congruence. Qed.

Lemma sameValueZero_plain (y x : number) :
  canonical x = true -> plusZero x = x ->
  (sameValueZero y x = true <-> y = x \/ (x = zero /\ y = S754_zero true)).
Proof.
  intros Cx Px. unfold sameValueZero.
  destruct x as [sx | | | sx mx ex]; try discriminate;
    destruct y as [sy | sy | | sy my ey]; cbn [isNaN andb orb].
  - cbn [plusZero] in Px. unfold zero in *. injection Px as <-.
    split; [intros _ | reflexivity].
    destruct sy; [right; auto | left; reflexivity].
  - split; [destruct sy; discriminate |].
    intros [E | [_ E]]; discriminate E.
  - split; [discriminate |]. intros [E | [_ E]]; discriminate E.
  - split; [unfold strict_eq, SFeqb; cbn [SFcompare]; destruct sy; discriminate |].
    intros [E | [_ E]]; discriminate E.
  - split; [unfold strict_eq, SFeqb; cbn [SFcompare]; destruct sx; discriminate |].
    intros [E | [E _]]; discriminate E.
  - split; [destruct sy; discriminate |].
    intros [E | [E _]]; discriminate E.
  - split; [discriminate |]. intros [E | [E _]]; discriminate E.
  - unfold strict_eq, SFeqb. cbn [SFcompare]. split.
    + intro H. left.
      destruct sy, sx; try discriminate;
        destruct (Z.compare_spec ey ex) as [-> | |]; try discriminate;
        destruct (Pos.compare_cont Eq my mx) eqn:Hm; try discriminate;
        apply Pos.compare_eq in Hm; congruence.
    + intros [E | [E _]]; [| discriminate E].
      injection E as -> -> ->.
      rewrite Z.compare_refl.
      change (Pos.compare_cont Eq mx mx) with (Pos.compare mx mx).
      rewrite Pos.compare_refl. destruct sx; reflexivity.
Qed.

Lemma includes_year (ys : list number) (x : number) :
  canonical x = true -> plusZero x = x ->
  (includes sameValueZero ys x = true
   <-> In x ys \/ (x = zero /\ In (S754_zero true) ys)).
Proof.
  intros Cx Px. unfold includes. rewrite existsb_exists. split.
  - intros (y & Hy & E). apply (sameValueZero_plain y x Cx Px) in E.
    destruct E as [-> | [Hx ->]]; [left; exact Hy | right; auto].
  - intros [H | [Hx H]].
    + exists x. split; [exact H |].
      apply (sameValueZero_plain x x Cx Px). left. reflexivity.
    + exists (S754_zero true). split; [exact H |].
      apply (sameValueZero_plain _ x Cx Px). right. auto.
Qed.

End FilterFacts.

(** X6. The rows given to the dashboard are the rows of the processed
    batch that pass the three filters, in chronological order: a row
    passes the year filter when the filter is empty or holds its year,
    and the region (product) filter when that is empty, holds [All] or
    holds its region (product).  Filtering what was filtered changes
    nothing, and filters that are empty or hold [All] give every row. *)
Theorem filtered_rows_stay_chronological :
  forall rawData out filters,
    processFinancialData rawData = Normal out ->
    (forall r,
        In r (filteredData filters out)
        <-> In r out
            /\ (years filters = []
                \/ In (Year r) (years filters)
                \/ (Year r = zero /\ In (S754_zero true) (years filters)))
            /\ (regions filters = [] \/ In "All"%string (regions filters)
                \/ In (Region r) (regions filters))
            /\ (products filters = [] \/ In "All"%string (products filters)
                \/ In (Product r) (products filters)))
    /\ (forall i a b,
           nth_error (filteredData filters out) i = Some a ->
           nth_error (filteredData filters out) (S i) = Some b ->
           le (sortKey a) (sortKey b) = true)
    /\ filteredData filters (filteredData filters out)
       = filteredData filters out
    /\ (years filters = [] ->
        regions filters = [] \/ In "All"%string (regions filters) ->
        products filters = [] \/ In "All"%string (products filters) ->
        filteredData filters out = out).
Proof.
  intros rawData out filters H.
  assert (M : forall r,
             In r (filteredData filters out)
             <-> In r out
                 /\ (years filters = []
                     \/ In (Year r) (years filters)
                     \/ (Year r = zero /\ In (S754_zero true) (years filters)))
                 /\ (regions filters = [] \/ In "All"%string (regions filters)
                     \/ In (Region r) (regions filters))
                 /\ (products filters = [] \/ In "All"%string (products filters)
                     \/ In (Product r) (products filters))).
  { intro r. unfold filteredData. rewrite filter_In.
    pose proof (out_years _ _ H) as G. rewrite Forall_forall in G.
    split.
    - intros [Hr Hm]. split; [exact Hr |].
      destruct (G (Year r) (in_map Year _ _ Hr)) as [Cy Py].
      unfold matchesFilters in Hm.
      rewrite !andb_true_iff, !orb_true_iff in Hm.
      rewrite !empty_length, !includes_string in Hm.
      rewrite (includes_year _ _ Cy Py) in Hm. tauto.
    - intros (Hr & Hy & Hg & Hp). split; [exact Hr |].
      destruct (G (Year r) (in_map Year _ _ Hr)) as [Cy Py].
      unfold matchesFilters.
      rewrite !andb_true_iff, !orb_true_iff.
      rewrite !empty_length, !includes_string.
      rewrite (includes_year _ _ Cy Py). tauto. }
  split; [exact M |].
  split; [| split].
  - intros i a b Ha Hb.
    pose proof (Sorted_adjacent _ _ (shown_Sorted _ _ filters H) _ _ _ Ha Hb)
      as Hle. cbn beta in Hle.
    pose proof (shown_posNormal _ _ filters H) as F.
    rewrite Forall_forall in F.
    rewrite le_posNormal
      by (apply F; eapply nth_error_In; eassumption).
    apply Z.leb_le. exact Hle.
  - unfold filteredData. clear H M.
    induction out as [| x l IH]; [reflexivity |].
    cbn [filter]. destruct (matchesFilters filters x) eqn:E; [| exact IH].
    cbn [filter]. rewrite E. f_equal. exact IH.
  - intros Hy Hr Hp. unfold filteredData.
    apply filter_all. intros r Hin.
    assert (Hf : In r (filteredData filters out)).
    { apply M. split; [exact Hin |]. tauto. }
    apply filter_In in Hf. apply Hf.
Qed.

Lemma filtered_rows_stay_chronological_witness :
  filteredData {| years := []; regions := ["All"%string]; products := [];
                  focusedQuarter := None |} (rowsOf twoYears)
  = rowsOf twoYears.
Proof.
  exact (proj2 (proj2 (proj2
           (filtered_rows_stay_chronological
              twoYears (rowsOf twoYears)
              {| years := []; regions := ["All"%string]; products := [];
                 focusedQuarter := None |}
              ltac:(vm_compute; reflexivity))))
           eq_refl (or_intror (or_introl eq_refl)) (or_introl eq_refl)).
Defined.

(** ** The latest quarter *)

Section LatestFacts.

Lemma latestQuarterData_spec (rest : list ProcessedDataRow) :
  forall first,
    Forall (fun r => posNormal (sortKey r) = true) (first :: rest) ->
    exists l1 l2,
      first :: rest = l1 ++ latestQuarterData first rest :: l2
      /\ (forall d, In d l1 ->
                    ord (sortKey d) < ord (sortKey (latestQuarterData first rest)))
      /\ (forall d, In d l2 ->
                    ord (sortKey d) <= ord (sortKey (latestQuarterData first rest))).
Proof.
  induction rest as [| x rest IH] using rev_ind; intros first F.
  - exists [], []. split; [reflexivity |]. split; intros d [].
  - assert (F' : Forall (fun r => posNormal (sortKey r) = true) (first :: rest)).
    { rewrite app_comm_cons in F. apply Forall_app in F. apply F. }
    assert (Nx : posNormal (sortKey x) = true).
    { rewrite app_comm_cons in F. apply Forall_app in F.
      destruct F as [_ F]. inversion F; assumption. }
    destruct (IH first F') as (l1 & l2 & E & H1 & H2).
    unfold latestQuarterData in *. rewrite fold_left_app. cbn [fold_left].
    set (latest := fold_left laterRow rest first) in *.
    assert (Nl : posNormal (sortKey latest) = true).
    { rewrite Forall_forall in F'. apply F'. rewrite E.
      apply in_or_app. right. left. reflexivity. }
    unfold laterRow.
    rewrite lt_posNormal by assumption.
    rewrite app_comm_cons, E.
    destruct (Z.ltb_spec (ord (sortKey latest)) (ord (sortKey x))) as [Hlt | Hge].
    + exists (l1 ++ latest :: l2), []. split; [reflexivity |].
      split; [| intros d []].
      intros d Hd. apply in_app_or in Hd.
      destruct Hd as [Hd | [<- | Hd]].
      * specialize (H1 d Hd). lia.
      * exact Hlt.
      * specialize (H2 d Hd). lia.
    + exists l1, (l2 ++ [x]). split; [rewrite <- app_assoc; reflexivity |].
      split; [exact H1 |].
      intros d Hd. apply in_app_or in Hd.
      destruct Hd as [Hd | [<- | []]]; [apply H2; exact Hd | exact Hge].
Qed.

End LatestFacts.

(** X7. The dashboard has no aggregates exactly when it is given no
    row.  Otherwise its latest quarter is the first row of the last
    period among the rows given: every row before it has a smaller
    sort key and every row after it the same one; the year-over-year
    figures of the headline are the growth fields of that row, and the
    quarter focused when none was chosen is its label. *)
Theorem dashboard_latest_quarter :
  forall rawData out filters,
    processFinancialData rawData = Normal out ->
    (aggregatedMetrics (filteredData filters out) = None
     <-> filteredData filters out = [])
    /\ forall m,
         aggregatedMetrics (filteredData filters out) = Some m ->
         yoyRevenue m = yoyRevenueGrowth (latestQuarter m)
         /\ yoyNetIncome m = yoyNetIncomeGrowth (latestQuarter m)
         /\ (focusedQuarter filters = None ->
             focusedQuarter (focusLatest (filteredData filters out) filters)
             = Some (Quarter (latestQuarter m)))
         /\ exists l1 l2,
              filteredData filters out = l1 ++ latestQuarter m :: l2
              /\ (forall d, In d l1 ->
                            lt (sortKey d) (sortKey (latestQuarter m)) = true)
              /\ (forall d, In d l2 -> sortKey d = sortKey (latestQuarter m)).
Proof.
  intros rawData out filters H.
  pose proof (shown_Sorted _ _ filters H) as S.
  pose proof (shown_posNormal _ _ filters H) as F.
  set (data := filteredData filters out) in *.
  split.
  - destruct data; cbn [aggregatedMetrics]; split; intro; congruence.
  - intros m Hm.
    destruct data as [| first rest] eqn:D; [discriminate |].
    cbn [aggregatedMetrics] in Hm. injection Hm as <-.
    cbn [yoyRevenue yoyNetIncome latestQuarter].
    split; [reflexivity |]. split; [reflexivity |].
    split.
    { intro Hf. unfold focusLatest. rewrite Hf. reflexivity. }
    destruct (latestQuarterData_spec rest first F) as (l1 & l2 & E & H1 & H2).
    set (latest := latestQuarterData first rest) in *.
    assert (Nl : posNormal (sortKey latest) = true).
    { rewrite Forall_forall in F. apply F. rewrite E.
      apply in_or_app. right. left. reflexivity. }
    exists l1, l2. split; [exact E |].
    rewrite Forall_forall in F.
    split.
    + intros d Hd. rewrite lt_posNormal; [apply Z.ltb_lt, H1, Hd | | exact Nl].
      apply F. rewrite E. apply in_or_app. left. exact Hd.
    + intros d Hd.
      assert (Nd : posNormal (sortKey d) = true).
      { apply F. rewrite E. apply in_or_app. right. right. exact Hd. }
      rewrite E in S. apply Sorted_rank_app in S.
      rewrite Forall_forall in S. specialize (S d Hd). cbn beta in S.
      specialize (H2 d Hd).
      apply (strict_eq_posNormal_inv _ _ Nl).
      rewrite strict_eq_posNormal by assumption. apply Z.eqb_eq. lia.
Qed.

Lemma dashboard_latest_quarter_witness :
  exists m,
    aggregatedMetrics
      (filteredData (initialFilters (rowsOf twoYears)) (rowsOf twoYears))
    = Some m
    /\ yoyRevenue m = yoyRevenueGrowth (latestQuarter m)
    /\ yoyNetIncome m = yoyNetIncomeGrowth (latestQuarter m).
Proof.
  eexists. split; [vm_compute; reflexivity |].
  pose proof (proj2 (dashboard_latest_quarter
                       twoYears (rowsOf twoYears)
                       (initialFilters (rowsOf twoYears))
                       ltac:(vm_compute; reflexivity))
                    _ ltac:(vm_compute; reflexivity)) as (H1 & H2 & _).
  split; [exact H1 | exact H2].
Defined.

(** ** The quarter selector *)

Section QuarterMap.

Lemma quarterMapGet_Some (data : list ProcessedDataRow) (q : string) :
  In q (map Quarter data) ->
  exists d, quarterMapGet data q = Some d /\ In d data /\ Quarter d = q.
Proof.
  intro Hin. unfold quarterMapGet.
  destruct (find (fun d => String.eqb (Quarter d) q) (rev data)) as [d |] eqn:E.
  - apply find_some in E. destruct E as [Hd Hq].
    exists d. split; [reflexivity |]. split.
    + apply in_rev. exact Hd.
    + apply String.eqb_eq. exact Hq.
  - exfalso. apply in_map_iff in Hin. destruct Hin as (d & Hq & Hd).
    apply in_rev in Hd.
    pose proof (find_none _ _ E d Hd) as Hn. cbn beta in Hn.
    rewrite Hq, String.eqb_refl in Hn. discriminate.
Qed.

End QuarterMap.

(** X8. The quarter selector lists every period of the rows given
    exactly once, latest first: each label of a row is listed, nothing
    else is, no label is repeated, and of two neighbours the first
    names the later period. *)
Theorem sorted_quarters_latest_first :
  forall rawData out filters,
    processFinancialData rawData = Normal out ->
    NoDup (sortedQuarters (filteredData filters out))
    /\ (forall q,
           In q (sortedQuarters (filteredData filters out))
           <-> exists d, In d (filteredData filters out) /\ Quarter d = q)
    /\ (forall i a b da db,
           nth_error (sortedQuarters (filteredData filters out)) i = Some a ->
           nth_error (sortedQuarters (filteredData filters out)) (S i) = Some b ->
           In da (filteredData filters out) -> Quarter da = a ->
           In db (filteredData filters out) -> Quarter db = b ->
           lt (sortKey db) (sortKey da) = true).
Proof.
  intros rawData out filters H.
  pose proof (shown_posNormal _ _ filters H) as F.
  rewrite Forall_forall in F.
  assert (Sub : forall r, In r (filteredData filters out) -> In r out)
    by (intro r; apply filteredData_In).
  set (data := filteredData filters out) in *.
  destruct (stringSet_spec (map Quarter data)) as [N I].
  assert (P : Permutation (stringSet (map Quarter data)) (sortedQuarters data))
    by apply sort_Permutation.
  assert (ND : NoDup (sortedQuarters data))
    by (eapply Permutation_NoDup; eassumption).
  assert (IN : forall q, In q (sortedQuarters data)
                         <-> exists d, In d data /\ Quarter d = q).
  { intro q. unfold sortedQuarters. rewrite sort_In, I, in_map_iff.
    split; intros (d & A & B); exists d; auto. }
  split; [exact ND |]. split; [exact IN |].
  intros i a b da db Ha Hb Hda Ea Hdb Eb.
  set (rank := fun q => match quarterMapGet data q with
                        | Some d => - ord (sortKey d)
                        | None => 0
                        end).
  assert (CR : forall x y, In x (map Quarter data) -> In y (map Quarter data) ->
                           lt zero (byQuarterDescending data x y)
                           = (rank y <? rank x)).
  { intros x y Hx Hy.
    destruct (quarterMapGet_Some _ _ Hx) as (dx & Gx & Ix & _).
    destruct (quarterMapGet_Some _ _ Hy) as (dy & Gy & Iy & _).
    unfold byQuarterDescending, rank. rewrite Gx, Gy.
    rewrite sub_posNormal by (apply F; assumption).
    destruct (Z.ltb_spec (ord (sortKey dx)) (ord (sortKey dy)));
      symmetry; [apply Z.ltb_lt | apply Z.ltb_ge]; lia. }
  assert (G : Forall (fun q => In q (map Quarter data))
                     (stringSet (map Quarter data))).
  { apply Forall_forall. intros q Hq. apply I. exact Hq. }
  pose proof (sort_Sorted (byQuarterDescending data) rank
                          (fun q => In q (map Quarter data)) CR _ G) as Srt.
  pose proof (Sorted_adjacent _ _ Srt _ _ _ Ha Hb) as Hle. cbn beta in Hle.
  assert (Ia : In a (map Quarter data))
    by (apply in_map_iff; exists da; auto).
  assert (Ib : In b (map Quarter data))
    by (apply in_map_iff; exists db; auto).
  destruct (quarterMapGet_Some _ _ Ia) as (ma & Ga & Ima & Qa).
  destruct (quarterMapGet_Some _ _ Ib) as (mb & Gb & Imb & Qb).
  unfold rank in Hle. rewrite Ga, Gb in Hle.
  rewrite <- (same_label_same_key _ _ da ma H) in Hle by (auto; congruence).
  rewrite <- (same_label_same_key _ _ db mb H) in Hle by (auto; congruence).
  rewrite lt_posNormal by (apply F; assumption).
  apply Z.ltb_lt.
  destruct (Z.eq_dec (ord (sortKey da)) (ord (sortKey db))) as [E | Hne]; [| lia].
  exfalso.
  pose proof (same_key_same_label _ _ da db H (Sub _ Hda) (Sub _ Hdb) E) as EQ.
  rewrite Ea, Eb in EQ. subst b.
  rewrite NoDup_nth_error in ND.
  assert (i = S i); [| lia].
  apply ND; [| congruence].
  apply nth_error_Some. congruence.
Qed.

Lemma sorted_quarters_latest_first_witness :
  NoDup (sortedQuarters
           (filteredData {| years := []; regions := []; products := [];
                            focusedQuarter := None |} (rowsOf twoYears))).
Proof.
  exact (proj1 (sorted_quarters_latest_first
                  twoYears (rowsOf twoYears) _
                  ltac:(vm_compute; reflexivity))).
Defined.

(** ** The detail table *)

Section DescendingFacts.

Lemma descending_rank (x y : ProcessedDataRow) :
  posNormal (sortKey x) = true -> posNormal (sortKey y) = true ->
  lt zero (sub (sortKey y) (sortKey x))
  = (- ord (sortKey y) <? - ord (sortKey x)).
Proof.
  intros Hx Hy. rewrite sub_posNormal by assumption.
  destruct (Z.ltb_spec (ord (sortKey x)) (ord (sortKey y)));
    symmetry; [apply Z.ltb_lt | apply Z.ltb_ge]; lia.
Qed.

End DescendingFacts.

(** X9. The detail table shows the rows given, each once, latest period
    first: of two neighbours the first has the sort key that is not
    smaller, and the rows of one period keep the order they were given
    in. *)
Theorem detail_rows_latest_first :
  forall rawData out filters,
    processFinancialData rawData = Normal out ->
    Permutation (filteredData filters out)
                (detailRows (filteredData filters out))
    /\ (forall i a b,
           nth_error (detailRows (filteredData filters out)) i = Some a ->
           nth_error (detailRows (filteredData filters out)) (S i) = Some b ->
           le (sortKey b) (sortKey a) = true)
    /\ (forall k,
           filter (fun r => strict_eq (sortKey r) k)
                  (detailRows (filteredData filters out))
           = filter (fun r => strict_eq (sortKey r) k)
                    (filteredData filters out)).
Proof.
  intros rawData out filters H.
  pose proof (shown_posNormal _ _ filters H) as F.
  set (data := filteredData filters out) in *.
  split; [apply sort_Permutation |]. split.
  - intros i a b Ha Hb.
    pose proof (sort_Sorted (fun a b => sub (sortKey b) (sortKey a))
                            (fun r => - ord (sortKey r))
                            (fun r => posNormal (sortKey r) = true)
                            descending_rank data F) as Srt.
    pose proof (Sorted_adjacent _ _ Srt _ _ _ Ha Hb) as Hle. cbn beta in Hle.
    pose proof (sort_Forall (fun a b => sub (sortKey b) (sortKey a)) _ data F)
      as F'.
    rewrite Forall_forall in F'.
    rewrite le_posNormal
      by (apply F'; eapply nth_error_In; eassumption).
    apply Z.leb_le. lia.
  - intro k.
    apply (sort_filter (fun a b => sub (sortKey b) (sortKey a))
                       (fun r => - ord (sortKey r))
                       (fun r => posNormal (sortKey r) = true)
                       descending_rank); [| exact F].
    intros a b Na Nb Pa Pb.
    apply strict_eq_posNormal_inv in Pa, Pb; try assumption.
    congruence.
Qed.

Lemma detail_rows_latest_first_witness :
  Permutation
    (filteredData {| years := []; regions := []; products := [];
                     focusedQuarter := None |} (rowsOf twoYears))
    (detailRows
       (filteredData {| years := []; regions := []; products := [];
                        focusedQuarter := None |} (rowsOf twoYears))).
Proof.
  exact (proj1 (detail_rows_latest_first
                  twoYears (rowsOf twoYears) _
                  ltac:(vm_compute; reflexivity))).
Defined.

(** * The years of a batch and the first view *)

(** X10. The year menu lists the years of the processed rows, each
    once, latest first: every year of a row is listed, nothing else is,
    and of two neighbours the first is the later year. *)
Theorem available_years_latest_first :
  forall rawData out,
    processFinancialData rawData = Normal out ->
    NoDup (availableYears out)
    /\ (forall y, In y (availableYears out) <-> exists r, In r out /\ Year r = y)
    /\ (forall i a b,
           nth_error (availableYears out) i = Some a ->
           nth_error (availableYears out) (S i) = Some b ->
           lt b a = true).
Proof.
  intros rawData out H.
  destruct (availableYears_spec _ _ H) as (N & F & I & Srt).
  split; [exact N |]. split; [exact I |].
  intros i a b Ha Hb.
  pose proof (Sorted_adjacent _ _ Srt _ _ _ Ha Hb) as Hle. cbn beta in Hle.
  rewrite Forall_forall in F.
  destruct (F a (nth_error_In _ _ Ha)) as [Ca Pa].
  destruct (F b (nth_error_In _ _ Hb)) as [Cb Pb].
  rewrite lt_canonical by assumption. apply Z.ltb_lt.
  destruct (Z.eq_dec (signedOrd a) (signedOrd b)) as [E | Hne]; [| lia].
  exfalso.
  assert (Eab : a = b).
  { apply (sameValueZero_canonical a b Ca Cb Pa Pb).
    unfold sameValueZero. rewrite strict_eq_canonical by assumption.
    apply orb_true_iff. right. apply Z.eqb_eq. exact E. }
  subst b. rewrite NoDup_nth_error in N.
  assert (i = S i); [| lia].
  apply N; [| congruence].
  apply nth_error_Some. congruence.
Qed.

Lemma available_years_latest_first_witness :
  NoDup (availableYears (rowsOf twoYears)).
Proof.
  exact (proj1 (available_years_latest_first
                  twoYears (rowsOf twoYears)
                  ltac:(vm_compute; reflexivity))).
Defined.

(** X11. After a batch is accepted the filters select its latest year
    alone, so the dashboard is first given exactly the rows of that
    year, and at least one row whenever the batch has any. *)
Theorem first_view_is_latest_year :
  forall rawData out,
    processFinancialData rawData = Normal out ->
    out <> [] ->
    exists latest,
      years (initialFilters out) = [latest]
      /\ regions (initialFilters out) = []
      /\ products (initialFilters out) = []
      /\ (exists r, In r out /\ Year r = latest)
      /\ (forall r, In r out -> le (Year r) latest = true)
      /\ (forall r, In r (filteredData (initialFilters out) out)
                    <-> In r out /\ Year r = latest)
      /\ filteredData (initialFilters out) out <> [].
Proof.
  intros rawData out H Hne.
  assert (Hr0 : exists r0, In r0 out).
  { destruct out as [| r0 l]; [contradiction Hne; reflexivity |].
    exists r0. left. reflexivity. }
  destruct Hr0 as (r0 & Hr0).
  destruct (availableYears_spec _ _ H) as (N & F & I & Srt).
  pose proof (out_years _ _ H) as G. rewrite Forall_forall in G.
  unfold initialFilters.
  destruct (availableYears out) as [| latest rest] eqn:E.
  { exfalso. destruct (proj2 (I (Year r0))) as []. exists r0. auto. }
  exists latest. cbn [years regions products].
  split; [reflexivity |]. split; [reflexivity |]. split; [reflexivity |].
  assert (Hl : exists r, In r out /\ Year r = latest).
  { apply I. left. reflexivity. }
  assert (Gl : canonical latest = true /\ plusZero latest = latest).
  { inversion F; assumption. }
  assert (M : forall r, In r out ->
                        matchesFilters
                          {| years := [latest]; regions := []; products := [];
                             focusedQuarter := None |} r = true
                        <-> Year r = latest).
  { intros r Hr.
    assert (Gr : canonical (Year r) = true /\ plusZero (Year r) = Year r).
    { apply G. apply in_map. exact Hr. }
    assert (Mv : matchesFilters
                   {| years := [latest]; regions := []; products := [];
                      focusedQuarter := None |} r
                 = sameValueZero latest (Year r)).
    { unfold matchesFilters, includes.
      cbn [years regions products List.length Nat.eqb existsb].
      destruct (sameValueZero latest (Year r)); reflexivity. }
    rewrite Mv.
    rewrite (sameValueZero_canonical latest (Year r)
               (proj1 Gl) (proj1 Gr) (proj2 Gl) (proj2 Gr)).
    split; congruence. }
  split; [exact Hl |]. split; [| split].
  - intros r Hr.
    assert (Gr : canonical (Year r) = true /\ plusZero (Year r) = Year r).
    { apply G. apply in_map. exact Hr. }
    rewrite le_canonical by (apply Gr || apply Gl). apply Z.leb_le.
    assert (Hin : In (Year r) (latest :: rest)).
    { apply I. exists r. auto. }
    destruct Hin as [<- | Hin]; [lia |].
    pose proof (Sorted_rank_head (fun x => - signedOrd x) _ _ Srt) as Hh.
    rewrite Forall_forall in Hh. specialize (Hh _ Hin). cbn beta in Hh. lia.
  - intro r. unfold filteredData. rewrite filter_In.
    split; intros [Hr Hm]; (split; [exact Hr |]); apply (M r Hr); exact Hm.
  - destruct Hl as (r & Hr & Hy).
    intro Hnil.
    assert (Hin : In r (filteredData
                          {| years := [latest]; regions := []; products := [];
                             focusedQuarter := None |} out)).
    { unfold filteredData. apply filter_In. split; [exact Hr |].
      apply (M r Hr). exact Hy. }
    rewrite Hnil in Hin. exact Hin.
Qed.

Lemma first_view_is_latest_year_witness :
  exists latest,
    years (initialFilters (rowsOf twoYears)) = [latest]
    /\ filteredData (initialFilters (rowsOf twoYears)) (rowsOf twoYears) <> [].
Proof.
  destruct (first_view_is_latest_year
              twoYears (rowsOf twoYears)
              ltac:(vm_compute; reflexivity)
              ltac:(vm_compute; discriminate))
    as (latest & Hy & _ & _ & _ & _ & _ & Hne).
  exists latest. split; [exact Hy | exact Hne].
Defined.

(** * The filter menus *)

Section MenuFacts.

Lemma handleSelect_In (selected : list menuOption) (option x : menuOption) :
  In x (handleSelect selected option) -> In x selected \/ x = option.
Proof.
  unfold handleSelect.
  destruct (strictEquals option (Str "All")); [intros [] |].
  destruct (includes sameOption selected option).
  - intro H. apply filter_In in H. left. apply H.
  - intro H. apply in_app_or in H. destruct H as [H | [<- | []]]; auto.
Qed.

Lemma handleSelect_no_All (selected : list menuOption) (option : menuOption) :
  ~ In (Str "All") selected ->
  ~ In (Str "All") (handleSelect selected option).
Proof.
  intros Hn Hin.
  destruct (strictEquals option (Str "All")) eqn:E.
  - unfold handleSelect in Hin. rewrite E in Hin. exact Hin.
  - apply handleSelect_In in Hin. destruct Hin as [Hin | <-]; [auto |].
    discriminate E.
Qed.

Lemma plain_same (a b : menuOption) :
  plainOption a -> plainOption b ->
  (sameOption a b = true <-> a = b) /\ strictEquals a b = sameOption a b.
Proof.
  destruct a as [s | x], b as [t | y]; cbn [plainOption sameOption strictEquals];
    intros Ha Hb.
  - split; [| reflexivity]. rewrite String.eqb_eq. split; congruence.
  - split; [| reflexivity]. split; discriminate.
  - split; [| reflexivity]. split; discriminate.
  - destruct Ha as [Cx Px], Hb as [Cy Py]. split.
    + rewrite (sameValueZero_canonical x y Cx Cy Px Py). split; congruence.
    + unfold sameValueZero.
      destruct x; try discriminate Cx; reflexivity.
Qed.

Lemma plain_includes (selected : list menuOption) (option : menuOption) :
  Forall plainOption selected -> plainOption option ->
  (includes sameOption selected option = true <-> In option selected).
Proof.
  intros F P. rewrite Forall_forall in F.
  unfold includes. rewrite existsb_exists. split.
  - intros (y & Hy & E).
    apply (proj1 (plain_same y option (F y Hy) P)) in E. congruence.
  - intro H. exists option. split; [exact H |].
    apply (proj1 (plain_same option option P P)). reflexivity.
Qed.

End MenuFacts.

(** X12. A click on a menu option toggles it.  [All] clears the
    selection.  For the options the menus hold, strings and plain
    Numbers: an option that is not selected is added at the end, and a
    selected one is removed while every other one stays.  A selected
    NaN stays, since it is not strictly equal to itself.  No sequence
    of clicks puts [All] into a selection that did not hold it. *)
Theorem handleSelect_toggles :
  (forall selected, handleSelect selected (Str "All") = [])
  /\ (forall selected option,
         Forall plainOption selected -> plainOption option ->
         option <> Str "All" ->
         (~ In option selected ->
          handleSelect selected option = selected ++ [option])
         /\ (In option selected ->
             ~ In option (handleSelect selected option)
             /\ forall x, x <> option ->
                          (In x (handleSelect selected option) <-> In x selected)))
  /\ (forall selected,
         includes sameOption selected (Num NaN) = true ->
         handleSelect selected (Num NaN) = selected)
  /\ (forall clicks selected,
         ~ In (Str "All") selected ->
         ~ In (Str "All") (fold_left handleSelect clicks selected)).
Proof.
  assert (NotAll : forall option,
             option <> Str "All" -> strictEquals option (Str "All") = false).
  { intros [s | n] Hne; [| reflexivity]. cbn [strictEquals].
    destruct (String.eqb s "All") eqn:E; [| reflexivity].
    apply String.eqb_eq in E. subst s. contradiction Hne. reflexivity. }
  split; [reflexivity |].
  split.
  { intros selected option F P Hne.
    pose proof (plain_includes selected option F P) as Inc.
    rewrite Forall_forall in F.
    split.
    - intro Hn. unfold handleSelect. rewrite (NotAll _ Hne).
      destruct (includes sameOption selected option) eqn:E; [| reflexivity].
      contradiction Hn. apply Inc. reflexivity.
    - intro Hin. apply Inc in Hin.
      unfold handleSelect. rewrite (NotAll _ Hne), Hin.
      assert (K : forall x,
                 In x (filter (fun item => negb (strictEquals item option))
                              selected)
                 <-> In x selected /\ x <> option).
      { intro x. rewrite filter_In, negb_true_iff. split.
        - intros [Hx E]. split; [exact Hx |]. intros ->.
          destruct (plain_same option option P P) as [S1 S2].
          rewrite S2 in E. rewrite (proj2 S1 eq_refl) in E. discriminate E.
        - intros [Hx Hd]. split; [exact Hx |].
          destruct (plain_same x option (F x Hx) P) as [S1 S2].
          rewrite S2. destruct (sameOption x option) eqn:E; [| reflexivity].
          contradiction Hd. apply S1. reflexivity. }
      split.
      + intro Hx. apply K in Hx. destruct Hx as [_ Hx]. apply Hx. reflexivity.
      + intros x Hx. rewrite K. tauto. }
  split.
  { intros selected Hinc. unfold handleSelect.
    cbn [strictEquals]. rewrite Hinc.
    apply filter_all. intros [s | x] _; [reflexivity |].
    cbn [strictEquals]. unfold strict_eq, SFeqb.
    destruct x; reflexivity. }
  intros clicks. induction clicks as [| option clicks IH]; intros selected Hn.
  - exact Hn.
  - cbn [fold_left]. apply IH. apply handleSelect_no_All. exact Hn.
Qed.

Lemma handleSelect_toggles_witness :
  handleSelect [Str "West"] (Str "East") = [Str "West"; Str "East"].
Proof.
  apply (proj1 (proj1 (proj2 handleSelect_toggles)
                      [Str "West"] (Str "East")
                      ltac:(repeat constructor) I ltac:(discriminate))).
  intros [E | []]. discriminate E.
Defined.

(** * The upload check and the processor *)

Section MissingFacts.

Lemma trim_Blank (s : string) :
  String.eqb (trim s) EmptyString = true <-> Blank s.
Proof.
  rewrite String.eqb_eq. split.
  - intro H. apply trim_blank in H.
    destruct (trimStart_split s) as (ws & Hws & E).
    rewrite H, append_empty_r in E. subst s. exact Hws.
  - intro H. pose proof (trimStart_Blank s EmptyString H) as T.
    rewrite append_empty_r in T. cbn [trimStart] in T.
    unfold trim. rewrite T. reflexivity.
Qed.

Lemma isMissing_Blank (v : option string) :
  isMissing v = true <-> v = None \/ exists s, v = Some s /\ Blank s.
Proof.
  destruct v as [s |]; cbn [isMissing].
  - rewrite trim_Blank. split.
    + intro H. right. exists s. auto.
    + intros [E | (s' & E & H)]; [discriminate E |]. congruence.
  - split; auto.
Qed.

Lemma valid_label_not_Blank (s : string) :
  ValidQuarterLabel s -> ~ Blank s.
Proof.
  intros (q & y & c & d1 & d2 & d3 & d4 & -> & _) [H _].
  apply blankChar_isWhiteSpace in H. discriminate H.
Qed.

Lemma missingCount_positive (col : string) (data : list RawDataRow) :
  missingCount col data <> 0%nat
  <-> exists row, In row data /\ isMissing (column col row) = true.
Proof.
  unfold missingCount. split.
  - intro H.
    destruct (filter (fun r => isMissing (column col r)) data) as [| row l] eqn:E;
      [contradiction H; reflexivity |].
    exists row. apply (filter_In (fun r => isMissing (column col r))).
    rewrite E. left. reflexivity.
  - intros (row & Hin & Hm) E.
    assert (Hf : In row (filter (fun r => isMissing (column col r)) data))
      by (apply filter_In; auto).
    destruct (filter (fun r => isMissing (column col r)) data);
      [exact Hf | discriminate E].
Qed.

Lemma missing_default (val : option string) :
  isMissing val = true -> safeParseFloat val (Some zero) = Some zero.
Proof.
  destruct val as [v |]; cbn [isMissing safeParseFloat]; [| reflexivity].
  intros ->. reflexivity.
Qed.

End MissingFacts.

(** X13. The upload check counts a field as missing when it is absent
    or holds white space only, and that is what the processor cannot
    use: a batch with such a quarter label is refused when the user
    proceeds, and in a batch that parses a row whose revenue, cost of
    goods or operating expense is such a field has the value 0 there. *)
Theorem missing_values_in_processing :
  forall data,
    (forall col,
        missingCount col data <> 0%nat
        <-> exists row,
              In row data
              /\ (column col row = None
                  \/ exists s, column col row = Some s /\ Blank s))
    /\ (forall validation row,
           In row data -> Blank (raw_Quarter row) ->
           missingCount "Quarter" data <> 0%nat
           /\ exists message, handleProceed data validation = inl message)
    /\ (forall out index row,
           processFinancialData data = Normal out ->
           nth_error data index = Some row ->
           exists r,
             In r out /\ lastSegment (id r) = indexToString index
             /\ (raw_Revenue row = None
                 \/ (exists s, raw_Revenue row = Some s /\ Blank s) ->
                 Revenue r = zero)
             /\ (raw_COGS row = None
                 \/ (exists s, raw_COGS row = Some s /\ Blank s) ->
                 COGS r = zero)
             /\ (raw_OPEX row = None
                 \/ (exists s, raw_OPEX row = Some s /\ Blank s) ->
                 OPEX r = zero)).
Proof.
  intro data. split; [| split].
  - intro col. rewrite missingCount_positive.
    split; intros (row & Hin & Hm); exists row; (split; [exact Hin |]);
      apply isMissing_Blank; exact Hm.
  - intros validation row Hin Hb. split.
    + apply missingCount_positive. exists row. split; [exact Hin |].
      apply isMissing_Blank. right. exists (raw_Quarter row). auto.
    + unfold handleProceed.
      destruct (processFinancialData data) as [out | m] eqn:E; [| eauto].
      exfalso.
      destruct (process_Normal _ _ E) as (rows & Hrows & _).
      pose proof (mapFrom_normalizeRow_all_valid _ _ _ Hrows) as V.
      rewrite Forall_forall in V.
      exact (valid_label_not_Blank _ (V row Hin) Hb).
  - intros out index row H Hrow.
    destruct (source_out _ _ _ _ H Hrow) as (r & pk & Hin & _ & Hm).
    exists r. split; [exact Hin |].
    split.
    { change (id r) with (id (metricsOf r)). rewrite Hm. apply lastSegment_id. }
    change (Revenue r) with (Revenue (metricsOf r)).
    change (COGS r) with (COGS (metricsOf r)).
    change (OPEX r) with (OPEX (metricsOf r)).
    rewrite Hm. cbn [rowMetrics Revenue COGS OPEX].
    repeat split; intro Hb; apply isMissing_Blank in Hb;
      rewrite (missing_default _ Hb); reflexivity.
Qed.

Lemma missing_values_in_processing_witness :
  exists message,
    handleProceed [rawRow "  " None None (Some "100") None None None]
                  {| rowCount := 1; yearsDetected := [];
                     missingValues := []; hasPlanData := false |}
    = inl message.
Proof.
  apply (proj2 (proj1 (proj2 (missing_values_in_processing
                  [rawRow "  " None None (Some "100") None None None]))
               {| rowCount := 1; yearsDetected := [];
                  missingValues := []; hasPlanData := false |}
               (rawRow "  " None None (Some "100") None None None)
               (or_introl eq_refl)
               ltac:(cbn; unfold blankChar; cbn; tauto))).
Defined.

(** X14. The processor never reads the [Year] column, although the
    upload check requires it: rows that differ in that field alone are
    processed to the same result, rows or failure. *)
Theorem year_column_is_not_read :
  forall (change : string -> string) data,
    processFinancialData
      (map (fun row =>
              {| raw_Quarter := raw_Quarter row;
                 raw_Year := change (raw_Year row);
                 raw_Region := raw_Region row;
                 raw_Product := raw_Product row;
                 raw_Revenue := raw_Revenue row;
                 raw_COGS := raw_COGS row;
                 raw_OPEX := raw_OPEX row;
                 raw_Non_Cash_Adjustments := raw_Non_Cash_Adjustments row;
                 raw_Net_Income := raw_Net_Income row;
                 raw_Plan_Revenue := raw_Plan_Revenue row;
                 raw_Plan_COGS := raw_Plan_COGS row;
                 raw_Plan_OPEX := raw_Plan_OPEX row;
                 raw_Plan_Non_Cash_Adjustments :=
                   raw_Plan_Non_Cash_Adjustments row;
                 raw_Plan_NetIncome := raw_Plan_NetIncome row |}) data)
    = processFinancialData data.
Proof.
  intros change data. unfold processFinancialData, mapThrowing.
  generalize 0%nat.
  assert (E : forall i,
             mapFrom normalizeRow i
               (map (fun row =>
                       {| raw_Quarter := raw_Quarter row;
                          raw_Year := change (raw_Year row);
                          raw_Region := raw_Region row;
                          raw_Product := raw_Product row;
                          raw_Revenue := raw_Revenue row;
                          raw_COGS := raw_COGS row;
                          raw_OPEX := raw_OPEX row;
                          raw_Non_Cash_Adjustments := raw_Non_Cash_Adjustments row;
                          raw_Net_Income := raw_Net_Income row;
                          raw_Plan_Revenue := raw_Plan_Revenue row;
                          raw_Plan_COGS := raw_Plan_COGS row;
                          raw_Plan_OPEX := raw_Plan_OPEX row;
                          raw_Plan_Non_Cash_Adjustments :=
                            raw_Plan_Non_Cash_Adjustments row;
                          raw_Plan_NetIncome := raw_Plan_NetIncome row |}) data)
             = mapFrom normalizeRow i data).
  { induction data as [| row data IH]; intro i; [reflexivity |].
    cbn [map mapFrom].
    change (normalizeRow _ i) with (normalizeRow row i) at 1.
    rewrite IH. reflexivity. }
  intro n. rewrite E. reflexivity.
Qed.
